(** * Kernel-session supervisor: [notebook/services/kernels/kernelmanager.py]

    A shallow embedding of [KernelInterface] and [MappingKernelManager].

    - Python objects with identity ([KernelInterface] instances, handler
      closures) live in a heap indexed by allocation number; the registry
      [_kernels] maps kernel ids to heap locations, so a kernel popped from
      the registry and a kernel still registered are mutated the same way.
    - Plain methods are state transformers that return an [outcome]; state
      changes made before an exception is raised persist, as in Python.
    - Tornado coroutines ([@gen.coroutine]) are resumptions: they run up to
      the next [yield] and hand back the awaited collaborator future
      together with a continuation, which is resumed on the world as it is
      when the future completes.
    - The collaborators of [jupyter_kernel_mgmt] (message client, process
      manager, restarter) and the Prometheus gauge are modelled by the
      state the manager can observe through the calls it makes.  Their
      plain calls return normally, [remove_handler] apart, which raises
      [ValueError] for a handler that is not attached; the futures they
      hand out resolve, fail or, under [gen.with_timeout], time out, as
      the environment decides.
    - Left out: the [root_dir] trait and [cwd_for_path] (the file system),
      the blocking wrapper [shutdown_all] and the wait of [_shutdown_all]
      for the futures it built, and the attributes [_restarters] and
      [_kernel_buffers], which no method reads. *)

From stdpp Require Import base numbers option list strings gmap fin_maps.

Open Scope string_scope.

(** ** Values, exceptions, results *)

(** Object identities: the position in allocation order. *)
Abbreviation loc := nat (only parsing).

Inductive exn : Type :=
| HTTPError (status : Z) (reason : string)
| KeyError (key : string)
| AttributeError (attr : string)
| TimeoutError (reason : string)
| ValueError
| FutureError (reason : string)   (* exception set on an awaited future *)
| Dangling (l : loc).             (* model only: a location outside the heap *)

Inductive outcome (A : Type) : Type :=
| Ok (a : A)
| Raise (e : exn).
Arguments Ok {A} a.
Arguments Raise {A} e.

Inductive pyval : Type :=
| PyStr (s : string)
| PyInt (z : Z)
| PyTime (t : Z)
| PyExc (e : exn)
| PyNone.

(** A datetime is the number of microseconds since the epoch. *)
Definition timedelta (seconds : Z) : Z := (seconds * 1000000)%Z.

Record Msg := {
  msg_type : string;                 (* msg.header['msg_type'] *)
  content : gmap string string;      (* msg.content *)
}.

(** Handler callables.  Each closure is a fresh object: [uid] is its
    identity.  [buffer_msg] is [partial(buffer_msg, channel)] of
    [KernelInterface.start_buffering]; [record_activity] is the closure of
    [MappingKernelManager.start_watching_activity]. *)
Inductive handler : Type :=
| buffer_msg (self : loc) (channel : string) (uid : nat)
| record_activity (kernel : loc) (kernel_id : string) (uid : nat).

Global Instance handler_eq_dec : EqDecision handler.
Proof. solve_decision. Defined.

(** Callbacks registered on the restarter. *)
Inductive callback : Type :=
| _handle_kernel_restarted_cb (self : loc)
| _handle_kernel_died_cb (kernel_id : string).

(** ** Collaborators *)

(** The message client: the handlers attached per channel (in attachment
    order) and whether it was closed. *)
Record Client := {
  handlers : list (string * handler);
  shutdown_requested : bool;
  closed : bool;
}.

Definition new_client : Client :=
  {| handlers := []; shutdown_requested := false; closed := false |}.

Definition add_handler (channel : string) (h : handler) (c : Client) : Client :=
  {| handlers := handlers c ++ [(channel, h)];
     shutdown_requested := shutdown_requested c;
     closed := closed c |}.

(** [list.remove]: drops the first occurrence. *)
Fixpoint remove_first (x : string * handler) (l : list (string * handler))
  : option (list (string * handler)) :=
  match l with
  | [] => None
  | y :: l' =>
      if decide (x = y) then Some l'
      else match remove_first x l' with
           | Some r => Some (y :: r)
           | None => None
           end
  end.

(** [remove_handler] raises [ValueError] when the handler is not attached. *)
Definition remove_handler (channel : string) (h : handler) (c : Client)
  : outcome Client :=
  match remove_first (channel, h) (handlers c) with
  | Some hs => Ok {| handlers := hs;
                     shutdown_requested := shutdown_requested c;
                     closed := closed c |}
  | None => Raise ValueError
  end.

Definition request_shutdown (c : Client) : Client :=
  {| handlers := handlers c; shutdown_requested := true; closed := closed c |}.

Definition close (c : Client) : Client :=
  {| handlers := handlers c;
     shutdown_requested := shutdown_requested c;
     closed := true |}.

(** The process handle. *)
Record Manager := {
  killed : bool;
  cleaned_up : bool;
  interrupts : nat;
}.

Definition new_manager : Manager :=
  {| killed := false; cleaned_up := false; interrupts := 0 |}.

Definition kill (m : Manager) : Manager :=
  {| killed := true; cleaned_up := cleaned_up m; interrupts := interrupts m |}.

Definition cleanup (m : Manager) : Manager :=
  {| killed := killed m; cleaned_up := true; interrupts := interrupts m |}.

Definition interrupt_process (m : Manager) : Manager :=
  {| killed := killed m; cleaned_up := cleaned_up m;
     interrupts := S (interrupts m) |}.

(** The restarter: its callbacks by event name and whether it runs. *)
Record Restarter := {
  callbacks : list (string * callback);
  started : bool;
}.

Definition add_callback (cb : callback) (event : string) (r : Restarter)
  : Restarter :=
  {| callbacks := callbacks r ++ [(event, cb)]; started := started r |}.

(** ** [KernelInterface] *)

Record KernelInterface := {
  kernel_type : string;
  manager : Manager;
  n_connections : Z;
  execution_state : string;
  last_activity : option Z;
  restarter : Restarter;
  buffer_for_key : option string;
  buffer : list (string * Msg);
  buffer_handlers : list (string * handler);   (* {channel: handler} *)
  client : option Client;
}.

Definition set_manager (m : Manager) (k : KernelInterface) :=
  {| kernel_type := kernel_type k; manager := m;
     n_connections := n_connections k; execution_state := execution_state k;
     last_activity := last_activity k; restarter := restarter k;
     buffer_for_key := buffer_for_key k; buffer := buffer k;
     buffer_handlers := buffer_handlers k; client := client k |}.

Definition set_n_connections (n : Z) (k : KernelInterface) :=
  {| kernel_type := kernel_type k; manager := manager k;
     n_connections := n; execution_state := execution_state k;
     last_activity := last_activity k; restarter := restarter k;
     buffer_for_key := buffer_for_key k; buffer := buffer k;
     buffer_handlers := buffer_handlers k; client := client k |}.

Definition set_execution_state (s : string) (k : KernelInterface) :=
  {| kernel_type := kernel_type k; manager := manager k;
     n_connections := n_connections k; execution_state := s;
     last_activity := last_activity k; restarter := restarter k;
     buffer_for_key := buffer_for_key k; buffer := buffer k;
     buffer_handlers := buffer_handlers k; client := client k |}.

Definition set_last_activity (t : option Z) (k : KernelInterface) :=
  {| kernel_type := kernel_type k; manager := manager k;
     n_connections := n_connections k; execution_state := execution_state k;
     last_activity := t; restarter := restarter k;
     buffer_for_key := buffer_for_key k; buffer := buffer k;
     buffer_handlers := buffer_handlers k; client := client k |}.

Definition set_restarter (r : Restarter) (k : KernelInterface) :=
  {| kernel_type := kernel_type k; manager := manager k;
     n_connections := n_connections k; execution_state := execution_state k;
     last_activity := last_activity k; restarter := r;
     buffer_for_key := buffer_for_key k; buffer := buffer k;
     buffer_handlers := buffer_handlers k; client := client k |}.

Definition set_buffer_for_key (key : option string) (k : KernelInterface) :=
  {| kernel_type := kernel_type k; manager := manager k;
     n_connections := n_connections k; execution_state := execution_state k;
     last_activity := last_activity k; restarter := restarter k;
     buffer_for_key := key; buffer := buffer k;
     buffer_handlers := buffer_handlers k; client := client k |}.

Definition set_buffer (b : list (string * Msg)) (k : KernelInterface) :=
  {| kernel_type := kernel_type k; manager := manager k;
     n_connections := n_connections k; execution_state := execution_state k;
     last_activity := last_activity k; restarter := restarter k;
     buffer_for_key := buffer_for_key k; buffer := b;
     buffer_handlers := buffer_handlers k; client := client k |}.

Definition set_buffer_handlers (hs : list (string * handler))
  (k : KernelInterface) :=
  {| kernel_type := kernel_type k; manager := manager k;
     n_connections := n_connections k; execution_state := execution_state k;
     last_activity := last_activity k; restarter := restarter k;
     buffer_for_key := buffer_for_key k; buffer := buffer k;
     buffer_handlers := hs; client := client k |}.

Definition set_client (c : option Client) (k : KernelInterface) :=
  {| kernel_type := kernel_type k; manager := manager k;
     n_connections := n_connections k; execution_state := execution_state k;
     last_activity := last_activity k; restarter := restarter k;
     buffer_for_key := buffer_for_key k; buffer := buffer k;
     buffer_handlers := buffer_handlers k; client := c |}.

(** Attribute lookup by name.  The instance attributes are the ones
    [__init__] assigns plus the class attribute [client]; the class defines
    no [__getattr__], so any other name raises [AttributeError].  Attributes
    holding collaborator objects, containers or bound methods read as
    [PyNone] here: the manager never formats them. *)
Definition getattr (k : KernelInterface) (name : string) : outcome pyval :=
  if decide (name = "kernel_type") then Ok (PyStr (kernel_type k))
  else if decide (name = "n_connections") then Ok (PyInt (n_connections k))
  else if decide (name = "execution_state") then Ok (PyStr (execution_state k))
  else if decide (name = "last_activity") then
    Ok (match last_activity k with Some t => PyTime t | None => PyNone end)
  else if decide (name = "buffer_for_key") then
    Ok (match buffer_for_key k with Some s => PyStr s | None => PyNone end)
  else if decide (name ∈ ["kernel_finder"; "connection_info"; "manager";
                          "restarter"; "buffer"; "buffer_handlers"; "client";
                          "connect_client"; "shutdown"; "interrupt";
                          "_handle_kernel_restarted"; "start_buffering";
                          "get_buffer"; "stop_buffering";
                          "log"; "parent"; "config"]) then Ok PyNone
  else Raise (AttributeError name).

(** ** [MappingKernelManager] and the world *)

Record MappingKernelManager := {
  _kernels : gmap string loc;
  _kernel_connections : gmap string Z;
  _culler_callback : option Z;        (* PeriodicCallback period, in ms *)
  _initialized_culler : bool;
  cull_idle_timeout : Z;
  cull_interval : Z;
  cull_connected : bool;
  cull_busy : bool;
  buffer_offline_messages : bool;
  kernel_info_timeout : Z;            (* seconds; only handed to timedelta *)
  last_kernel_activity : Z;
}.

Definition cull_interval_default : Z := 300.

Definition set__kernels (ks : gmap string loc) (m : MappingKernelManager) :=
  {| _kernels := ks; _kernel_connections := _kernel_connections m;
     _culler_callback := _culler_callback m;
     _initialized_culler := _initialized_culler m;
     cull_idle_timeout := cull_idle_timeout m;
     cull_interval := cull_interval m; cull_connected := cull_connected m;
     cull_busy := cull_busy m;
     buffer_offline_messages := buffer_offline_messages m;
     kernel_info_timeout := kernel_info_timeout m;
     last_kernel_activity := last_kernel_activity m |}.

Definition set_last_kernel_activity (t : Z) (m : MappingKernelManager) :=
  {| _kernels := _kernels m; _kernel_connections := _kernel_connections m;
     _culler_callback := _culler_callback m;
     _initialized_culler := _initialized_culler m;
     cull_idle_timeout := cull_idle_timeout m;
     cull_interval := cull_interval m; cull_connected := cull_connected m;
     cull_busy := cull_busy m;
     buffer_offline_messages := buffer_offline_messages m;
     kernel_info_timeout := kernel_info_timeout m;
     last_kernel_activity := t |}.

Definition set_cull_interval (i : Z) (m : MappingKernelManager) :=
  {| _kernels := _kernels m; _kernel_connections := _kernel_connections m;
     _culler_callback := _culler_callback m;
     _initialized_culler := _initialized_culler m;
     cull_idle_timeout := cull_idle_timeout m;
     cull_interval := i; cull_connected := cull_connected m;
     cull_busy := cull_busy m;
     buffer_offline_messages := buffer_offline_messages m;
     kernel_info_timeout := kernel_info_timeout m;
     last_kernel_activity := last_kernel_activity m |}.

Definition set__culler_callback (cb : option Z) (m : MappingKernelManager) :=
  {| _kernels := _kernels m; _kernel_connections := _kernel_connections m;
     _culler_callback := cb;
     _initialized_culler := _initialized_culler m;
     cull_idle_timeout := cull_idle_timeout m;
     cull_interval := cull_interval m; cull_connected := cull_connected m;
     cull_busy := cull_busy m;
     buffer_offline_messages := buffer_offline_messages m;
     kernel_info_timeout := kernel_info_timeout m;
     last_kernel_activity := last_kernel_activity m |}.

Definition set__initialized_culler (b : bool) (m : MappingKernelManager) :=
  {| _kernels := _kernels m; _kernel_connections := _kernel_connections m;
     _culler_callback := _culler_callback m;
     _initialized_culler := b;
     cull_idle_timeout := cull_idle_timeout m;
     cull_interval := cull_interval m; cull_connected := cull_connected m;
     cull_busy := cull_busy m;
     buffer_offline_messages := buffer_offline_messages m;
     kernel_info_timeout := kernel_info_timeout m;
     last_kernel_activity := last_kernel_activity m |}.

Record LogRecord := {
  level : string;
  format : string;
  args : list pyval;
}.

(** Everything the manager's code reads or writes: the manager object, the
    heap of [KernelInterface] objects, the allocation counter that gives
    objects their identity, the labelled gauge
    [KERNEL_CURRENTLY_RUNNING_TOTAL], the clock read by [utcnow()] and the
    log. *)
Record World := {
  km : MappingKernelManager;
  heap : gmap loc KernelInterface;
  next_obj : nat;
  KERNEL_CURRENTLY_RUNNING_TOTAL : gmap string Z;
  utcnow : Z;
  log : list LogRecord;
}.

Definition set_km (m : MappingKernelManager) (w : World) :=
  {| km := m; heap := heap w; next_obj := next_obj w;
     KERNEL_CURRENTLY_RUNNING_TOTAL := KERNEL_CURRENTLY_RUNNING_TOTAL w;
     utcnow := utcnow w; log := log w |}.

Definition set_heap (h : gmap loc KernelInterface) (w : World) :=
  {| km := km w; heap := h; next_obj := next_obj w;
     KERNEL_CURRENTLY_RUNNING_TOTAL := KERNEL_CURRENTLY_RUNNING_TOTAL w;
     utcnow := utcnow w; log := log w |}.

Definition set_next_obj (n : nat) (w : World) :=
  {| km := km w; heap := heap w; next_obj := n;
     KERNEL_CURRENTLY_RUNNING_TOTAL := KERNEL_CURRENTLY_RUNNING_TOTAL w;
     utcnow := utcnow w; log := log w |}.

Definition set_gauge (g : gmap string Z) (w : World) :=
  {| km := km w; heap := heap w; next_obj := next_obj w;
     KERNEL_CURRENTLY_RUNNING_TOTAL := g;
     utcnow := utcnow w; log := log w |}.

Definition set_log (l : list LogRecord) (w : World) :=
  {| km := km w; heap := heap w; next_obj := next_obj w;
     KERNEL_CURRENTLY_RUNNING_TOTAL := KERNEL_CURRENTLY_RUNNING_TOTAL w;
     utcnow := utcnow w; log := l |}.

(** ** Plain methods: state and exceptions *)

Definition sync (A : Type) : Type := World → outcome A * World.

Global Instance sync_ret : MRet sync := λ A a w, (Ok a, w).

Global Instance sync_bind : MBind sync := λ A B f m w,
  match m w with
  | (Ok a, w') => f a w'
  | (Raise e, w') => (Raise e, w')
  end.

Definition raise {A} (e : exn) : sync A := λ w, (Raise e, w).

Definition gets {A} (f : World → A) : sync A := λ w, (Ok (f w), w).

Definition modify (f : World → World) : sync unit := λ w, (Ok tt, f w).

(** [try: m except Exception as e: h e] *)
Definition try_except {A} (m : sync A) (h : exn → sync A) : sync A := λ w,
  match m w with
  | (Ok a, w') => (Ok a, w')
  | (Raise e, w') => h e w'
  end.

Definition emit (lvl fmt : string) (a : list pyval) : sync unit :=
  modify (λ w, set_log (log w ++ [{| level := lvl; format := fmt; args := a |}]) w).

(** A new object identity. *)
Definition alloc : sync nat := λ w, (Ok (next_obj w), set_next_obj (S (next_obj w)) w).

Definition deref (l : loc) : sync KernelInterface := λ w,
  match heap w !! l with
  | Some k => (Ok k, w)
  | None => (Raise (Dangling l), w)
  end.

Definition update (l : loc) (f : KernelInterface → KernelInterface) : sync unit :=
  k ← deref l; modify (λ w, set_heap (<[l := f k]> (heap w)) w).

(** [self.client.<method>]: the class attribute [client] is [None] until
    [connect_client] ran. *)
Definition the_client (l : loc) (method : string) : sync Client :=
  k ← deref l;
  match client k with
  | Some c => mret c
  | None => raise (AttributeError method)
  end.

(** The gauge: [labels(type=ty).inc()] and [.dec()]. *)
Definition gauge_value (w : World) (ty : string) : Z :=
  default 0%Z (KERNEL_CURRENTLY_RUNNING_TOTAL w !! ty).

Definition gauge_inc (ty : string) : sync unit :=
  modify (λ w, set_gauge (<[ty := (gauge_value w ty + 1)%Z]>
                            (KERNEL_CURRENTLY_RUNNING_TOTAL w)) w).

Definition gauge_dec (ty : string) : sync unit :=
  modify (λ w, set_gauge (<[ty := (gauge_value w ty - 1)%Z]>
                            (KERNEL_CURRENTLY_RUNNING_TOTAL w)) w).

(** ** Coroutines *)

Inductive awaitable : Type :=
| wait_for_ready (l : loc)             (* client.wait_for_ready() *)
| shutdown_or_terminate (l : loc)      (* client.shutdown_or_terminate() *)
| with_timeout (seconds : Z) (inner : awaitable).

Inductive await_result : Type :=
| Resolved
| Rejected (e : exn)
| TimedOut.

Inductive step (A : Type) : Type :=
| Done (r : outcome A) (w : World)
| Susp (a : awaitable) (w : World) (k : await_result → World → step A).
Arguments Done {A} r w.
Arguments Susp {A} a w k.

Definition coro (A : Type) : Type := World → step A.

Fixpoint step_bind {A B} (s : step A) (f : A → coro B) : step B :=
  match s with
  | Done (Ok a) w => f a w
  | Done (Raise e) w => Done (Raise e) w
  | Susp a w k => Susp a w (λ r w', step_bind (k r w') f)
  end.

Global Instance coro_ret : MRet coro := λ A a w, Done (Ok a) w.

Global Instance coro_bind : MBind coro := λ A B f m w, step_bind (m w) f.

Definition lift {A} (m : sync A) : coro A := λ w,
  let '(r, w') := m w in Done r w'.

(** [yield future] on a collaborator's future.  A [TimedOut] result only
    arises under [gen.with_timeout]; on a bare future it reads as the
    future failing with a timeout. *)
Definition await (a : awaitable) : coro unit := λ w,
  Susp a w (λ r w',
    match r with
    | Resolved => Done (Ok tt) w'
    | Rejected e => Done (Raise e) w'
    | TimedOut => Done (Raise (TimeoutError "Timeout")) w'
    end).

(** [gen.with_timeout(timedelta(seconds=s), future)]: the caller sees the
    future's result, or [TimeoutError] once the deadline passes.  Tornado
    does not cancel the wrapped future; its continuation is no longer
    awaited by anyone. *)
Fixpoint timeout_step {A} (seconds : Z) (s : step A) : step A :=
  match s with
  | Done r w => Done r w
  | Susp a w k =>
      Susp (with_timeout seconds a) w (λ r w',
        match r with
        | TimedOut => Done (Raise (TimeoutError "Timeout")) w'
        | _ => timeout_step seconds (k r w')
        end)
  end.

Definition gen_with_timeout {A} (seconds : Z) (m : coro A) : coro A :=
  λ w, timeout_step seconds (m w).

(** [try: yield m except gen.TimeoutError: h] *)
Fixpoint catch_timeout_step {A} (s : step A) (h : coro A) : step A :=
  match s with
  | Done (Raise (TimeoutError _)) w => h w
  | Done r w => Done r w
  | Susp a w k => Susp a w (λ r w', catch_timeout_step (k r w') h)
  end.

Definition except_TimeoutError {A} (m : coro A) (h : coro A) : coro A :=
  λ w, catch_timeout_step (m w) h.

(** A coroutine called without [yield]: it runs to its first suspension,
    and the rest is left with the IO loop.  An exception is stored on the
    discarded future and does not reach the caller. *)
Definition task : Type := awaitable * (await_result → World → step unit).

Definition spawn (m : coro unit) : sync (option task) := λ w,
  match m w with
  | Done _ w' => (Ok None, w')
  | Susp a w' k => (Ok (Some (a, k)), w')
  end.

(** The world at which a coroutine first gives control back. *)
Definition step_world {A} (s : step A) : World :=
  match s with
  | Done _ w => w
  | Susp _ w _ => w
  end.

(** Drive a coroutine with the results of its awaited futures, nothing
    else running in between. *)
Fixpoint run {A} (s : step A) (rs : list await_result)
  : option (outcome A * World) :=
  match s, rs with
  | Done r w, _ => Some (r, w)
  | Susp _ w k, r :: rs' => run (k r w) rs'
  | Susp _ _ _, [] => None
  end.

Definition when (b : bool) (m : sync unit) : sync unit :=
  if b then m else mret tt.

Fixpoint for_each {A} (l : list A) (body : A → sync unit) : sync unit :=
  match l with
  | [] => mret tt
  | x :: l' => body x;; for_each l' body
  end.

(** [d[key] = value] on a dict kept in insertion order. *)
Fixpoint dict_set {V} (key : string) (value : V) (d : list (string * V))
  : list (string * V) :=
  match d with
  | [] => [(key, value)]
  | (k, v) :: d' =>
      if decide (k = key) then (k, value) :: d'
      else (k, v) :: dict_set key value d'
  end.

(** ** Methods of [KernelInterface] *)

Module KI.

(** [KernelInterface(kernel_type, kernel_finder)].  The launcher hands
    back a fresh process handle. *)
Definition __init__ (kernel_type : string) : sync loc :=
  self ← alloc;
  now ← gets utcnow;
  modify (λ w, set_heap (<[self :=
    {| kernel_type := kernel_type;
       manager := new_manager;
       n_connections := 0;
       execution_state := "starting";
       last_activity := Some now;
       restarter :=
         {| callbacks := [("restart", _handle_kernel_restarted_cb self)];
            started := true |};
       buffer_for_key := None;
       buffer := [];
       buffer_handlers := [];
       client := None |}]> (heap w)) w);;
  mret self.

Definition connect_client (self : loc) : coro unit :=
  k ← lift (deref self);
  match client k with
  | Some _ => mret tt
  | None =>
      lift (update self (set_client (Some new_client)));;
      await (wait_for_ready self)
  end.

Definition stop_buffering (self : loc) : sync unit :=
  k ← deref self;
  for_each (buffer_handlers k) (λ '(channel, handler),
    c ← the_client self "remove_handler";
    match remove_handler channel handler c with
    | Ok c' => update self (set_client (Some c'))
    | Raise ValueError => mret tt          (* handler wasn't attached *)
    | Raise e => raise e
    end);;
  update self (set_buffer_handlers []);;
  k ← deref self;
  when (bool_decide (buffer k ≠ []))
    (emit "info" "Discarding %s buffered messages for %s"
       [PyInt (Z.of_nat (length (buffer k)));
        match buffer_for_key k with Some s => PyStr s | None => PyNone end]);;
  update self (set_buffer []);;
  update self (set_buffer_for_key None).

Definition shutdown (self : loc) (now : bool) : coro unit :=
  (if now then
     lift (update self (λ k, set_manager (kill (manager k)) k))
   else
     c ← lift (the_client self "shutdown_or_terminate");
     lift (update self (set_client (Some (request_shutdown c))));;
     await (shutdown_or_terminate self));;
  c ← lift (the_client self "close");
  lift (update self (set_client (Some (close c))));;
  lift (update self (λ k, set_manager (cleanup (manager k)) k));;
  lift (stop_buffering self).

Definition interrupt (self : loc) : sync unit :=
  update self (λ k, set_manager (interrupt_process (manager k)) k).

(** [restarter.kernel_manager] is the handle of the relaunched process;
    [connect_client()] is called without [yield]. *)
Definition _handle_kernel_restarted (self : loc) : sync (option task) :=
  update self (set_manager new_manager);;
  spawn (connect_client self).

Definition start_buffering (self : loc) (session_key : string) : sync unit :=
  update self (set_buffer_for_key (Some session_key));;
  for_each ["shell"; "iopub"; "stdin"] (λ channel,
    uid ← alloc;
    let handler := buffer_msg self channel uid in
    c ← the_client self "add_handler";
    update self (set_client (Some (add_handler channel handler c)));;
    update self (λ k,
      set_buffer_handlers (dict_set channel handler (buffer_handlers k)) k)).

(** Body of the closure [buffer_msg(channel, msg_parts)]. *)
Definition run_buffer_msg (self : loc) (channel : string) (msg_parts : Msg)
  : sync unit :=
  emit "debug" "Buffering msg on %s" [PyStr channel];;
  update self (λ k, set_buffer (buffer k ++ [(channel, msg_parts)]) k).

Definition get_buffer (self : loc)
  : sync (list (string * Msg) * option string) :=
  k ← deref self;
  let buffer_ := buffer k in
  let key := buffer_for_key k in
  update self (set_buffer []);;
  stop_buffering self;;
  mret (buffer_, key).

End KI.

(** ** Methods of [MappingKernelManager] *)

(** The REST model of [kernel_model].  [last_activity] keeps the timestamp
    that [isoformat] renders. *)
Record KernelModel := {
  model_id : string;
  model_name : string;
  model_last_activity : option Z;
  model_execution_state : string;
  model_connections : Z;
}.

Module MKM.

Definition get_kernel (kernel_id : string) : sync loc := λ w,
  match _kernels (km w) !! kernel_id with
  | Some l => (Ok l, w)
  | None => (Raise (KeyError kernel_id), w)
  end.

(** [self._kernels.pop(kernel_id)] *)
Definition pop_kernel (kernel_id : string) : sync loc :=
  l ← get_kernel kernel_id;
  modify (λ w, set_km (set__kernels (delete kernel_id (_kernels (km w))) (km w)) w);;
  mret l.

(** [kernel_id in self] *)
Definition __contains__ (w : World) (kernel_id : string) : bool :=
  bool_decide (is_Some (_kernels (km w) !! kernel_id)).

Definition _check_kernel_id (kernel_id : string) : sync unit := λ w,
  if negb (__contains__ w kernel_id) then
    (Raise (HTTPError 404 ("Kernel does not exist: " ++ kernel_id)), w)
  else (Ok tt, w).

Definition _handle_kernel_died (kernel_id : string) : sync unit :=
  emit "warning" "Kernel %s died, removing from map." [PyStr kernel_id];;
  kernel ← pop_kernel kernel_id;
  c ← the_client kernel "close";
  update kernel (set_client (Some (close c)));;
  update kernel (λ k, set_manager (cleanup (manager k)) k);;
  k ← deref kernel;
  gauge_inc (kernel_type k).

(** Body of the closure [record_activity(msg)]. *)
Definition run_record_activity (kernel : loc) (kernel_id : string) (msg : Msg)
  : sync unit :=
  now ← gets utcnow;
  update kernel (set_last_activity (Some now));;
  modify (λ w, set_km (set_last_kernel_activity now (km w)) w);;
  if decide (msg_type msg = "status") then
    match content msg !! "execution_state" with
    | Some s =>
        update kernel (set_execution_state s);;
        emit "debug" "activity on %s: %s (%s)"
          [PyStr kernel_id; PyStr (msg_type msg); PyStr s]
    | None => raise (KeyError "execution_state")
    end
  else
    emit "debug" "activity on %s: %s" [PyStr kernel_id; PyStr (msg_type msg)].

Definition start_watching_activity (kernel_id : string) : sync unit :=
  kernel ← get_kernel kernel_id;
  uid ← alloc;
  c ← the_client kernel "add_handler";
  update kernel
    (set_client (Some (add_handler "iopub" (record_activity kernel kernel_id uid) c))).

Definition initialize_culler : sync unit :=
  m ← gets km;
  when (negb (_initialized_culler m) && bool_decide (cull_idle_timeout m > 0)%Z)
    (when (bool_decide (_culler_callback m = None))
       (when (bool_decide (cull_interval m ≤ 0)%Z)
          (emit "warning"
             "Invalid value for 'cull_interval' detected (%s) - using default value (%s)."
             [PyInt (cull_interval m); PyInt cull_interval_default];;
           modify (λ w, set_km (set_cull_interval cull_interval_default (km w)) w));;
        m ← gets km;
        modify (λ w, set_km
          (set__culler_callback (Some (1000 * cull_interval m)%Z) (km w)) w);;
        emit "info"
          "Culling kernels with idle durations > %s seconds at %s second intervals ..."
          [PyInt (cull_idle_timeout m); PyInt (cull_interval m)];;
        when (cull_busy m) (emit "info" "Culling kernels even if busy" []);;
        when (cull_connected m)
          (emit "info" "Culling kernels even with connected clients" [])));;
  modify (λ w, set_km (set__initialized_culler true (km w)) w).

Definition _start_kernel (kernel_id kernel_type : string) : coro unit :=
  kernel ← lift (KI.__init__ kernel_type);
  KI.connect_client kernel;;
  lift (modify (λ w,
    set_km (set__kernels (<[kernel_id := kernel]> (_kernels (km w))) (km w)) w));;
  lift (start_watching_activity kernel_id);;
  lift (emit "info" "Kernel started: %s" [PyStr kernel_id]);;
  lift (update kernel (λ k,
    set_restarter (add_callback (_handle_kernel_died_cb kernel_id) "dead"
                     (restarter k)) k)).

(** [start_kernel(kernel_id, path, kernel_name)]; [uuid4] is the value
    [uuid.uuid4()] draws.  The working directory computed from [path] is
    stored in [kwargs] and not used again. *)
Definition start_kernel (kernel_id kernel_name : option string)
    (uuid4 : string) : coro string :=
  kernel_id ←
    match kernel_id with
    | None =>
        let kernel_id := uuid4 in
        let kernel_name :=
          match kernel_name with
          | None => "pyimport/kernel"
          | Some n =>
              if bool_decide (is_Some (String.index 0 "/" n)) then n
              else "spec/" ++ n
          end in
        _start_kernel kernel_id kernel_name;;
        kernel ← lift (get_kernel kernel_id);
        k ← lift (deref kernel);
        lift (gauge_inc (kernel_type k));;
        mret kernel_id
    | Some kernel_id =>
        lift (_check_kernel_id kernel_id);;
        lift (emit "info" "Using existing kernel: %s" [PyStr kernel_id]);;
        mret kernel_id
    end;
  initialized ← lift (gets (λ w, _initialized_culler (km w)));
  lift (when (negb initialized) initialize_culler);;
  mret kernel_id.

(** Returns the channels whose streams were closed instead of buffered. *)
Definition start_buffering (kernel_id session_key : string)
    (channels : list string) : sync (list string) :=
  enabled ← gets (λ w, buffer_offline_messages (km w));
  if negb enabled then mret channels
  else
    emit "info" "Starting buffering for %s" [PyStr session_key];;
    _check_kernel_id kernel_id;;
    kernel ← get_kernel kernel_id;
    (* clear previous buffering state *)
    KI.stop_buffering kernel;;
    KI.start_buffering kernel session_key;;
    mret [].

(** [now] is accepted and not passed on: [kernel.shutdown()]. *)
Definition shutdown_kernel (kernel_id : string) (now : bool) : coro unit :=
  lift (_check_kernel_id kernel_id);;
  kernel ← lift (pop_kernel kernel_id);
  lift (emit "info" "Shutting down kernel %s" [PyStr kernel_id]);;
  KI.shutdown kernel false;;
  lift (t ← gets utcnow;
        modify (λ w, set_km (set_last_kernel_activity t (km w)) w));;
  k ← lift (deref kernel);
  lift (gauge_dec (kernel_type k)).

Definition restart_kernel (kernel_id : string) : coro unit :=
  lift (_check_kernel_id kernel_id);;
  kernel ← lift (get_kernel kernel_id);
  KI.shutdown kernel false;;
  seconds ← lift (gets (λ w, kernel_info_timeout (km w)));
  k ← lift (deref kernel);
  except_TimeoutError
    (gen_with_timeout seconds (_start_kernel kernel_id (kernel_type k)))
    (lift (emit "warning" "Timeout waiting for kernel_info_reply: %s"
             [PyStr kernel_id]);;
     k ← lift (deref kernel);
     lift (gauge_dec (kernel_type k));;
     lift (raise (TimeoutError "Timeout waiting for restart"))).

Definition notify_connect (kernel_id : string) : sync unit :=
  known ← gets (λ w, __contains__ w kernel_id);
  when known
    (kernel ← get_kernel kernel_id;
     update kernel (λ k, set_n_connections (n_connections k + 1)%Z k)).

Definition notify_disconnect (kernel_id : string) : sync unit :=
  known ← gets (λ w, __contains__ w kernel_id);
  when known
    (kernel ← get_kernel kernel_id;
     update kernel (λ k, set_n_connections (n_connections k - 1)%Z k)).

Definition kernel_model (kernel_id : string) : sync KernelModel :=
  _check_kernel_id kernel_id;;
  kernel ← get_kernel kernel_id;
  k ← deref kernel;
  mret {| model_id := kernel_id;
          model_name := kernel_type k;
          model_last_activity := last_activity k;
          model_execution_state := execution_state k;
          model_connections := n_connections k |}.

(** [self._kernels.keys()].  The registry is used as a map; the order of
    its keys is the one [map_to_list] gives. *)
Definition list_kernel_ids (w : World) : list string :=
  (map_to_list (_kernels (km w))).*1.

Fixpoint models_of (ids : list string) : sync (list KernelModel) :=
  match ids with
  | [] => mret []
  | kernel_id :: ids' =>
      model ← kernel_model kernel_id;
      kernels ← models_of ids';
      mret (model :: kernels)
  end.

Definition list_kernels : sync (list KernelModel) :=
  ids ← gets list_kernel_ids;
  models_of ids.

Definition cull_kernel_if_idle (kernel_id : string) : sync (option task) :=
  kernel ← get_kernel kernel_id;
  k ← deref kernel;
  kernel_name ← (λ w, (getattr k "kernel_name", w));
  emit "debug" "kernel_id=%s, kernel_name=%s, last_activity=%s"
    [PyStr kernel_id; kernel_name;
     match last_activity k with Some t => PyTime t | None => PyNone end];;
  match last_activity k with
  | Some last =>
      dt_now ← gets utcnow;
      m ← gets km;
      let dt_idle := (dt_now - last)%Z in
      (* Compute idle properties *)
      let is_idle_time :=
        bool_decide (dt_idle > timedelta (cull_idle_timeout m))%Z in
      let is_idle_execute :=
        cull_busy m || bool_decide (execution_state k ≠ "busy") in
      let connections := default 0%Z (_kernel_connections m !! kernel_id) in
      let is_idle_connected :=
        cull_connected m || bool_decide (connections = 0%Z) in
      (* Cull the kernel if all three criteria are met *)
      if is_idle_time && is_idle_execute && is_idle_connected then
        let idle_duration := (dt_idle `quot` 1000000)%Z in
        emit "warning"
          "Culling '%s' kernel '%s' (%s) with %d connections due to %s seconds of inactivity."
          [PyStr (execution_state k); PyStr (kernel_type k); PyStr kernel_id;
           PyInt connections; PyInt idle_duration];;
        spawn (KI.shutdown kernel false)
      else mret None
  | None => mret None
  end.

Fixpoint cull_each (ids : list string) : sync (list task) :=
  match ids with
  | [] => mret []
  | kernel_id :: ids' =>
      t ← try_except (cull_kernel_if_idle kernel_id) (λ e,
            emit "exception"
              "The following exception was encountered while checking the idle duration of kernel %s: %s"
              [PyStr kernel_id; PyExc e];;
            mret None);
      ts ← cull_each ids';
      mret (option_list t ++ ts)%list
  end.

(** Returns the shutdowns it left running with the IO loop. *)
Definition cull_kernels : sync (list task) :=
  m ← gets km;
  emit "debug" "Polling every %s seconds for kernels idle > %s seconds..."
    [PyInt (cull_interval m); PyInt (cull_idle_timeout m)];;
  ids ← gets list_kernel_ids;
  cull_each ids.


(** [[self.shutdown_kernel(kid) for kid in ids]]: each coroutine runs to
    its first [yield] when it is called; an exception it raises before
    that is stored on its future. *)
Fixpoint shutdown_each (ids : list string) : sync (list task) :=
  match ids with
  | [] => mret []
  | kid :: ids' =>
      t ← spawn (shutdown_kernel kid false);
      ts ← shutdown_each ids';
      mret (option_list t ++ ts)%list
  end.

(** [_shutdown_all], up to its [yield]: the futures it hands to
    [gen.multi], which the loop then completes one by one. *)
Definition _shutdown_all : sync (list task) :=
  ids ← gets list_kernel_ids;
  shutdown_each ids.

End MKM.

(** * Vocabulary of the statements *)

(** ** Parts of the world that a method leaves alone *)

(** The registry map as a part of the world. *)
Definition registry (w : World) : gmap string loc := _kernels (km w).

(** [m] leaves the part [f] of the world as it was, also when it raises. *)
Definition keeps {X A} (f : World → X) (m : sync A) : Prop :=
  ∀ w, f (m w).2 = f w.

(** A coroutine keeps [f] when each of its segments, from one resumption
    to the next suspension, does; what other tasks do to the world while
    it is suspended is up to them.  The index is [f] of the world the
    segment at hand started from. *)
Inductive step_keeps {X A} (f : World → X) : X → step A → Prop :=
| step_keeps_done r w : step_keeps f (f w) (Done r w)
| step_keeps_susp a w k :
    (∀ r w', step_keeps f (f w') (k r w')) → step_keeps f (f w) (Susp a w k).

Definition coro_keeps {X A} (f : World → X) (m : coro A) : Prop :=
  ∀ w, step_keeps f (f w) (m w).

(** The id is unbound at every point at which the coroutine hands control
    back, provided nothing that runs while it is suspended binds it. *)
Inductive absent_throughout {A} (kernel_id : string) : step A → Prop :=
| absent_done r w :
    MKM.__contains__ w kernel_id = false →
    absent_throughout kernel_id (Done r w)
| absent_susp a w k :
    MKM.__contains__ w kernel_id = false →
    (∀ r w', MKM.__contains__ w' kernel_id = false →
             absent_throughout kernel_id (k r w')) →
    absent_throughout kernel_id (Susp a w k).

(** ** The culler's log *)

Definition polling_record (w : World) : LogRecord :=
  {| level := "debug";
     format := "Polling every %s seconds for kernels idle > %s seconds...";
     args := [PyInt (cull_interval (km w)); PyInt (cull_idle_timeout (km w))] |}.

Definition cull_exception_record (e : exn) (kernel_id : string) : LogRecord :=
  {| level := "exception";
     format := "The following exception was encountered while checking the idle duration of kernel %s: %s";
     args := [PyStr kernel_id; PyExc e] |}.

(** Every registered id leads to an object. *)
Definition registry_resolves (w : World) : Prop :=
  ∀ kernel_id l, _kernels (km w) !! kernel_id = Some l → is_Some (heap w !! l).

(** ** Replacing one object *)

(** The world with the object at [l] replaced. *)
Definition put (l : loc) (k : KernelInterface) (w : World) : World :=
  set_heap (<[l := k]> (heap w)) w.

(** ** Buffering *)

(** What the loop of [stop_buffering] leaves of the client's handlers. *)
Fixpoint detach (hs : list (string * handler)) (c : Client) : Client :=
  match hs with
  | [] => c
  | (channel, h) :: hs' =>
      detach hs' (match remove_handler channel h c with
                  | Ok c' => c'
                  | Raise _ => c
                  end)
  end.

(** The kernel as [stop_buffering] leaves it. *)
Definition stopped (k : KernelInterface) : KernelInterface :=
  set_buffer_for_key None
    (set_buffer []
       (set_buffer_handlers []
          (set_client (detach (buffer_handlers k) <$> client k) k))).

Definition discard_record (k : KernelInterface) : list LogRecord :=
  if bool_decide (buffer k ≠ []) then
    [{| level := "info";
        format := "Discarding %s buffered messages for %s";
        args := [PyInt (Z.of_nat (length (buffer k)));
                 match buffer_for_key k with Some s => PyStr s | None => PyNone end] |}]
  else [].

(** [stop_buffering] cannot fail on a kernel whose client is connected,
    nor on one that never buffered. *)
Definition can_stop_buffering (k : KernelInterface) : Prop :=
  client k = None → buffer_handlers k = [].

(** A client holds each handler object at most once, and handlers are only
    recorded in [buffer_handlers] once the client exists. *)
Definition attached_once (k : KernelInterface) : Prop :=
  match client k with
  | Some c => NoDup (handlers c)
  | None => buffer_handlers k = []
  end.

Definition is_buffer_msg (h : handler) : bool :=
  match h with
  | buffer_msg _ _ _ => true
  | record_activity _ _ _ => false
  end.

(** Every buffering handler the client holds is the recorded one of its
    channel: the state the registry's [start_buffering] sets up, which
    stops the previous buffering before it starts the next. *)
Definition buffering_recorded (k : KernelInterface) : Prop :=
  ∀ c p, client k = Some c → p ∈ handlers c → is_buffer_msg p.2 = true →
         p ∈ buffer_handlers k.

(** What the client does with a handler when a message arrives. *)
Definition run_handler (h : handler) (msg : Msg) : sync unit :=
  match h with
  | buffer_msg self channel _ => KI.run_buffer_msg self channel msg
  | record_activity kernel kernel_id _ =>
      MKM.run_record_activity kernel kernel_id msg
  end.

(** The kernel after the loop of [start_buffering] went through
    [channels], the first new handler being object number [n]. *)
Fixpoint attached (self : loc) (channels : list string) (n : nat)
    (k : KernelInterface) : KernelInterface :=
  match channels with
  | [] => k
  | channel :: channels' =>
      attached self channels' (S n)
        (set_buffer_handlers
           (dict_set channel (buffer_msg self channel n) (buffer_handlers k))
           (set_client (add_handler channel (buffer_msg self channel n) <$> client k) k))
  end.

(** The three handlers one call of [start_buffering] creates. *)
Definition new_handlers (self : loc) (n : nat) : list (string * handler) :=
  [("shell", buffer_msg self "shell" n);
   ("iopub", buffer_msg self "iopub" (S n));
   ("stdin", buffer_msg self "stdin" (S (S n)))].

(** ** Kernels as the code builds them *)

Definition handler_uid (h : handler) : nat :=
  match h with
  | buffer_msg _ _ uid | record_activity _ _ uid => uid
  end.

(** Handlers are recorded in [buffer_handlers] only once the client
    exists, and a client holds each handler object once; handler objects
    were allocated before the next object number [n]. *)
Definition kernel_ok (n : nat) (k : KernelInterface) : Prop :=
  match client k with
  | Some c =>
      NoDup (handlers c) ∧ Forall (λ p, handler_uid p.2 < n) (handlers c)
  | None => buffer_handlers k = []
  end.

Definition world_ok (w : World) : Prop :=
  ∀ l k, heap w !! l = Some k → kernel_ok (next_obj w) k.

(** [m] maintains the invariant [I], also when it raises. *)
Definition maintains {A} (I : World → Prop) (m : sync A) : Prop :=
  ∀ w, I w → I (m w).2.

(** A coroutine maintains [I] when it hands control back only in worlds
    that satisfy [I], as long as it is resumed in such worlds. *)
Inductive step_maintains {A} (I : World → Prop) : step A → Prop :=
| step_maintains_done r w : I w → step_maintains I (Done r w)
| step_maintains_susp a w k :
    I w →
    (∀ r w', I w' → step_maintains I (k r w')) →
    step_maintains I (Susp a w k).

Definition coro_maintains {A} (I : World → Prop) (m : coro A) : Prop :=
  ∀ w, I w → step_maintains I (m w).

(** ** Shutdown and restart *)

(** Client closed, process resources released, buffering stopped. *)
Definition torn_down (k : KernelInterface) : Prop :=
  (∃ c, client k = Some c ∧ closed c = true)
  ∧ cleaned_up (manager k) = true
  ∧ buffer_handlers k = []
  ∧ buffer k = []
  ∧ buffer_for_key k = None.

(** The object [KernelInterface(kernel_type, ...)] builds at location [n]. *)
Definition launched (n : loc) (kernel_type : string) (now : Z) : KernelInterface :=
  {| kernel_type := kernel_type;
     manager := new_manager;
     n_connections := 0;
     execution_state := "starting";
     last_activity := Some now;
     restarter :=
       {| callbacks := [("restart", _handle_kernel_restarted_cb n)];
          started := true |};
     buffer_for_key := None;
     buffer := [];
     buffer_handlers := [];
     client := None |}.

(** ** Connection counting *)

Inductive notification : Type :=
| Connect (kernel_id : string)
| Disconnect (kernel_id : string).

Definition notify (n : notification) : sync unit :=
  match n with
  | Connect kernel_id => MKM.notify_connect kernel_id
  | Disconnect kernel_id => MKM.notify_disconnect kernel_id
  end.

(** A sequence of calls from the handlers, one after the other. *)
Definition notify_all (ns : list notification) (w : World) : World :=
  foldl (λ w n, (notify n w).2) w ns.

(** Connects minus disconnects addressed to [kernel_id]. *)
Fixpoint net (kernel_id : string) (ns : list notification) : Z :=
  match ns with
  | [] => 0
  | Connect i :: ns' =>
      ((if decide (i = kernel_id) then 1 else 0) + net kernel_id ns')%Z
  | Disconnect i :: ns' =>
      ((if decide (i = kernel_id) then -1 else 0) + net kernel_id ns')%Z
  end.

(** The connection count [kernel_model] reports for [kernel_id]. *)
Definition reported_connections (w : World) (kernel_id : string) : option Z :=
  match (MKM.kernel_model kernel_id w).1 with
  | Ok model => Some (model_connections model)
  | Raise _ => None
  end.

(** ** The running-kernel gauge *)

(** The registered sessions whose kernel is of type [ty]. *)
Definition live_sessions (w : World) (ty : string) : Z :=
  Z.of_nat (size (filter (λ p : string * loc,
                            kernel_type <$> heap w !! p.2 = Some ty)
                         (_kernels (km w)))).

(** By how much the gauge for [ty] exceeds the live sessions of type [ty]. *)
Definition gauge_excess (w : World) (ty : string) : Z :=
  (gauge_value w ty - live_sessions w ty)%Z.

(** ** Concrete worlds *)

(** A manager as [__init__] leaves it, configured as in the idle-cull
    scenario: idle timeout 60 s, poll interval 1 s, busy and connected
    kernels exempt from culling. *)
Definition fresh_manager : MappingKernelManager :=
  {| _kernels := ∅;
     _kernel_connections := ∅;
     _culler_callback := None;
     _initialized_culler := false;
     cull_idle_timeout := 60;
     cull_interval := 1;
     cull_connected := false;
     cull_busy := false;
     buffer_offline_messages := true;
     kernel_info_timeout := 60;
     last_kernel_activity := 0 |}.

Definition fresh_world : World :=
  {| km := fresh_manager;
     heap := ∅;
     next_obj := 0;
     KERNEL_CURRENTLY_RUNNING_TOTAL := ∅;
     utcnow := 0;
     log := [] |}.

(** The world a coroutine ends in when its awaited futures complete with
    [rs] ([w] itself if it does not get that far). *)
Definition world_after {A} (m : coro A) (rs : list await_result) (w : World)
  : World :=
  match run (m w) rs with
  | Some (_, w') => w'
  | None => w
  end.

(** One kernel of the default type, started under the id ["X"]; it is the
    object at location 0. *)
Definition one_kernel : World :=
  world_after (MKM.start_kernel None None "X") [Resolved] fresh_world.

(** The kernel object of [one_kernel]. *)
Definition kernel_X : KernelInterface :=
  {| kernel_type := "pyimport/kernel";
     manager := new_manager;
     n_connections := 0;
     execution_state := "starting";
     last_activity := Some 0%Z;
     restarter :=
       {| callbacks := [("restart", _handle_kernel_restarted_cb 0);
                        ("dead", _handle_kernel_died_cb "X")];
          started := true |};
     buffer_for_key := None;
     buffer := [];
     buffer_handlers := [];
     client := Some {| handlers := [("iopub", record_activity 0 "X" 1)];
                       shutdown_requested := false;
                       closed := false |} |}.

Definition a_message : Msg := {| msg_type := "stream"; content := ∅ |}.

(** The session of [one_kernel] after its viewer went away: buffering was
    started for the session key ["key"] and one message arrived on iopub. *)
Definition buffering_kernel : World :=
  (KI.run_buffer_msg 0 "iopub" a_message
     (MKM.start_buffering "X" "key" [] one_kernel).2).2.

Definition client_X_buffering : Client :=
  {| handlers := [("iopub", record_activity 0 "X" 1);
                  ("shell", buffer_msg 0 "shell" 2);
                  ("iopub", buffer_msg 0 "iopub" 3);
                  ("stdin", buffer_msg 0 "stdin" 4)];
     shutdown_requested := false;
     closed := false |}.

Definition kernel_X_buffering : KernelInterface :=
  set_client (Some client_X_buffering)
    (set_buffer_handlers [("shell", buffer_msg 0 "shell" 2);
                          ("iopub", buffer_msg 0 "iopub" 3);
                          ("stdin", buffer_msg 0 "stdin" 4)]
       (set_buffer [("iopub", a_message)]
          (set_buffer_for_key (Some "key") kernel_X))).

Definition set_utcnow (t : Z) (w : World) : World :=
  {| km := km w; heap := heap w; next_obj := next_obj w;
     KERNEL_CURRENTLY_RUNNING_TOTAL := KERNEL_CURRENTLY_RUNNING_TOTAL w;
     utcnow := t; log := log w |}.

Definition status_idle : Msg :=
  {| msg_type := "status"; content := {["execution_state" := "idle"]} |}.

(** The session ["X"] reported [idle] at time 0 and nothing since; it is
    now 120 s later.  Idle timeout 60 s, [cull_busy] and [cull_connected]
    off, no connections. *)
Definition idle_scenario : World :=
  set_utcnow (timedelta 120)
    (MKM.run_record_activity 0 "X" status_idle one_kernel).2.

(** ** Parts of the world beside the manager's configuration *)

(** The kernel objects, the registry, the gauge and the allocation
    counter. *)
Definition sessions (w : World)
  : gmap loc KernelInterface * gmap string loc * gmap string Z * nat :=
  (heap w, _kernels (km w), KERNEL_CURRENTLY_RUNNING_TOTAL w, next_obj w).

(** The period the culler runs with, in seconds. *)
Definition effective_cull_interval (m : MappingKernelManager) : Z :=
  if bool_decide (cull_interval m ≤ 0)%Z then cull_interval_default
  else cull_interval m.

(** The kernel type [start_kernel] launches for [kernel_name]. *)
Definition requested_type (kernel_name : option string) : string :=
  match kernel_name with
  | None => "pyimport/kernel"
  | Some n => if bool_decide (is_Some (String.index 0 "/" n)) then n else "spec/" ++ n
  end.

(** The kernel as [_start_kernel] leaves it once its client is ready: the
    activity watcher, object number [uid], attached to iopub and the death
    handler registered with the restarter. *)
Definition watched (self : loc) (kernel_id : string) (uid : nat)
    (k : KernelInterface) (c : Client) : KernelInterface :=
  set_restarter
    (add_callback (_handle_kernel_died_cb kernel_id) "dead" (restarter k))
    (set_client
       (Some (add_handler "iopub" (record_activity self kernel_id uid) c)) k).

(** The model [kernel_model] builds for the kernel [k] registered as
    [kernel_id]. *)
Definition model_of (kernel_id : string) (k : KernelInterface) : KernelModel :=
  {| model_id := kernel_id;
     model_name := kernel_type k;
     model_last_activity := last_activity k;
     model_execution_state := execution_state k;
     model_connections := n_connections k |}.

(** The kernel after the activity watcher saw [msg] at time [now]. *)
Definition activity_recorded (now : Z) (msg : Msg) (k : KernelInterface)
  : KernelInterface :=
  let k' := set_last_activity (Some now) k in
  if decide (msg_type msg = "status") then
    match content msg !! "execution_state" with
    | Some s => set_execution_state s k'
    | None => k'
    end
  else k'.


(** ** The server under the IO loop *)

(** A coroutine whose result nobody reads. *)
Fixpoint forget {A} (s : step A) : step unit :=
  match s with
  | Done (Ok _) w => Done (Ok tt) w
  | Done (Raise e) w => Done (Raise e) w
  | Susp a w k => Susp a w (λ r w', forget (k r w'))
  end.

(** A coroutine called from the loop runs to its first [yield]; what is
    left of it stays with the loop as a task. *)
Definition called {A} (m : coro A) (w : World) : World * list task :=
  match forget (m w) with
  | Done _ w' => (w', [])
  | Susp a w' k => (w', [(a, k)])
  end.

(** A plain method called from the loop, and the tasks among its result
    that it left running. *)
Definition returned {A} (tasks : A → list task) (m : sync A) (w : World)
  : World * list task :=
  match m w with
  | (Ok a, w') => (w', tasks a)
  | (Raise _, w') => (w', [])
  end.

(** Everything that can be called on the manager and on a kernel object,
    by a request handler, by the periodic callback of the culler, by a
    restarter or by a message client. *)
Inductive call : Type :=
| call_start_kernel (kernel_id kernel_name : option string) (uuid4 : string)
| call_shutdown_kernel (kernel_id : string) (now : bool)
| call_restart_kernel (kernel_id : string)
| call_start_buffering (kernel_id session_key : string) (channels : list string)
| call_notify_connect (kernel_id : string)
| call_notify_disconnect (kernel_id : string)
| call_kernel_model (kernel_id : string)
| call_list_kernels
| call_initialize_culler
| call_cull_kernels
| call_handle_kernel_died (kernel_id : string)
| call_connect_client (self : loc)
| call_shutdown (self : loc) (now : bool)
| call_interrupt (self : loc)
| call_handle_kernel_restarted (self : loc)
| call_kernel_start_buffering (self : loc) (session_key : string)
| call_get_buffer (self : loc)
| call_stop_buffering (self : loc)
| call_handler (h : handler) (msg : Msg).

Definition serve (c : call) : World → World * list task :=
  match c with
  | call_start_kernel kernel_id kernel_name uuid4 =>
      called (MKM.start_kernel kernel_id kernel_name uuid4)
  | call_shutdown_kernel kernel_id now => called (MKM.shutdown_kernel kernel_id now)
  | call_restart_kernel kernel_id => called (MKM.restart_kernel kernel_id)
  | call_start_buffering kernel_id session_key channels =>
      returned (λ _, []) (MKM.start_buffering kernel_id session_key channels)
  | call_notify_connect kernel_id => returned (λ _, []) (MKM.notify_connect kernel_id)
  | call_notify_disconnect kernel_id =>
      returned (λ _, []) (MKM.notify_disconnect kernel_id)
  | call_kernel_model kernel_id => returned (λ _, []) (MKM.kernel_model kernel_id)
  | call_list_kernels => returned (λ _, []) MKM.list_kernels
  | call_initialize_culler => returned (λ _, []) MKM.initialize_culler
  | call_cull_kernels => returned id MKM.cull_kernels
  | call_handle_kernel_died kernel_id =>
      returned (λ _, []) (MKM._handle_kernel_died kernel_id)
  | call_connect_client self => called (KI.connect_client self)
  | call_shutdown self now => called (KI.shutdown self now)
  | call_interrupt self => returned (λ _, []) (KI.interrupt self)
  | call_handle_kernel_restarted self =>
      returned option_list (KI._handle_kernel_restarted self)
  | call_kernel_start_buffering self session_key =>
      returned (λ _, []) (KI.start_buffering self session_key)
  | call_get_buffer self => returned (λ _, []) (KI.get_buffer self)
  | call_stop_buffering self => returned (λ _, []) (KI.stop_buffering self)
  | call_handler h msg => returned (λ _, []) (run_handler h msg)
  end.

(** A task resumed with the result of the future it waits for. *)
Definition resumed (t : task) (r : await_result) (w : World) : World * list task :=
  match t.2 r w with
  | Done _ w' => (w', [])
  | Susp a w' k => (w', [(a, k)])
  end.

(** One turn of the loop: a call is served up to its first [yield], or a
    waiting task is resumed up to its next one, or time passes.  Which
    future completes next, and how, is up to the environment. *)
Inductive loop_step : World * list task → World * list task → Prop :=
| loop_call c w ts :
    loop_step (w, ts) ((serve c w).1, (ts ++ (serve c w).2)%list)
| loop_resume t r w ts1 ts2 :
    loop_step (w, (ts1 ++ t :: ts2)%list)
      ((resumed t r w).1, (ts1 ++ (resumed t r w).2 ++ ts2)%list)
| loop_clock t w ts :
    loop_step (w, ts) (set_utcnow t w, ts).

(** The worlds a server started in [w0] can be in between two turns. *)
Definition reachable (w0 w : World) : Prop :=
  ∃ ts, rtc loop_step (w0, []) (w, ts).

(** Resumed in a world where [I] holds, the task hands back only worlds
    where [I] holds. *)
Definition task_maintains (I : World → Prop) (t : task) : Prop :=
  ∀ r w, I w → step_maintains I (t.2 r w).

(** [m] maintains [I], and the value it returns satisfies [Q]. *)
Definition yields {A} (I : World → Prop) (Q : A → Prop) (m : sync A) : Prop :=
  ∀ w, I w → I (m w).2 ∧ ∀ a, (m w).1 = Ok a → Q a.


(** ** What a task relies on while it waits *)

(** Every kernel object has a client: [_start_kernel] connects the object
    it creates before it yields. *)
Definition all_connected (w : World) : Prop :=
  ∀ l k, heap w !! l = Some k → is_Some (client k).

(** Objects are older than the next object. *)
Definition heap_below_next (w : World) : Prop :=
  ∀ l k, heap w !! l = Some k → l < next_obj w.

Definition sessions_ok (w : World) : Prop :=
  all_connected w ∧ registry_resolves w ∧ heap_below_next w.

(** Kernel objects are never dropped from the heap. *)
Definition heap_grows (w w' : World) : Prop :=
  ∀ l, is_Some (heap w !! l) → is_Some (heap w' !! l).

(** [m] maintains [I] and changes the world within [R], also when it
    raises. *)
Definition guarantees {A} (I : World → Prop) (R : relation World)
    (m : sync A) : Prop :=
  ∀ w, I w → I (m w).2 ∧ R w (m w).2.

(** A coroutine resumed in [w0]: each of its segments maintains [I] and
    changes the world within [R], as long as the world it is resumed in
    satisfies [I] and differs within [R] from the one it handed back. *)
Inductive step_guarantees {A} (I : World → Prop) (R : relation World)
    (w0 : World) : step A → Prop :=
| step_guarantees_done r w :
    I w → R w0 w → step_guarantees I R w0 (Done r w)
| step_guarantees_susp a w k :
    I w → R w0 w →
    (∀ r w', I w' → R w w' → step_guarantees I R w' (k r w')) →
    step_guarantees I R w0 (Susp a w k).

Definition coro_guarantees {A} (I : World → Prop) (R : relation World)
    (m : coro A) : Prop :=
  ∀ w, I w → step_guarantees I R w (m w).

(** A task that was handed back in [w0]. *)
Definition task_guarantees (I : World → Prop) (R : relation World)
    (w0 : World) (t : task) : Prop :=
  ∀ r w, I w → R w0 w → step_guarantees I R w (t.2 r w).


(** [m] guarantees [I] and [R], and the value it returns satisfies [Q] in
    the world it returns in. *)
Definition yields_in {A} (I : World → Prop) (R : relation World)
    (Q : World → A → Prop) (m : sync A) : Prop :=
  ∀ w, I w → I (m w).2 ∧ R w (m w).2 ∧ ∀ a, (m w).1 = Ok a → Q (m w).2 a.


(** ** Messages arriving while nobody listens *)

(** The client hands each message of [msgs] to the buffering handler of
    its channel on the kernel [self]. *)
Definition deliver (self : loc) (msgs : list (string * Msg)) : sync unit :=
  for_each msgs (λ '(channel, msg),
    run_handler (buffer_msg self channel 0) msg).

(** * Properties *)

(** ** Unfolding the two monads *)

Lemma sync_bind_unfold {A B} (m : sync A) (k : A → sync B) (w : World) :
  (m ≫= k) w =
  match m w with
  | (Ok a, w') => k a w'
  | (Raise e, w') => (Raise e, w')
  end.
Proof. reflexivity. Qed.

Lemma sync_bind_ok {A B} (m : sync A) (k : A → sync B) w a w' :
  m w = (Ok a, w') → (m ≫= k) w = k a w'.
Proof. intros H. rewrite sync_bind_unfold, H. reflexivity. Qed.

Lemma sync_bind_raise {A B} (m : sync A) (k : A → sync B) w e w' :
  m w = (Raise e, w') → (m ≫= k) w = (Raise e, w').
Proof. intros H. rewrite sync_bind_unfold, H. reflexivity. Qed.

Lemma coro_bind_unfold {A B} (m : coro A) (k : A → coro B) (w : World) :
  (m ≫= k) w = step_bind (m w) k.
Proof. reflexivity. Qed.

Lemma lift_bind_ok {A B} (m : sync A) (k : A → coro B) w a w' :
  m w = (Ok a, w') → (lift m ≫= k) w = k a w'.
Proof. intros H. rewrite coro_bind_unfold. unfold lift. rewrite H. reflexivity. Qed.

Lemma lift_bind_raise {A B} (m : sync A) (k : A → coro B) w e w' :
  m w = (Raise e, w') → (lift m ≫= k) w = Done (Raise e) w'.
Proof. intros H. rewrite coro_bind_unfold. unfold lift. rewrite H. reflexivity. Qed.

Lemma set_log_app_nil w : set_log (log w ++ []) w = w.
Proof. destruct w. unfold set_log. simpl. by rewrite app_nil_r. Qed.

Lemma set_log_set_log l1 l2 w : set_log l2 (set_log l1 w) = set_log l2 w.
Proof. reflexivity. Qed.

Lemma deref_ok l w k : heap w !! l = Some k → deref l w = (Ok k, w).
Proof. intros H. unfold deref. by rewrite H. Qed.

Lemma update_ok l f w k :
  heap w !! l = Some k →
  update l f w = (Ok tt, set_heap (<[l := f k]> (heap w)) w).
Proof. intros H. unfold update. by rewrite (sync_bind_ok _ _ _ _ _ (deref_ok _ _ _ H)). Qed.

Lemma the_client_ok l method w k c :
  heap w !! l = Some k → client k = Some c → the_client l method w = (Ok c, w).
Proof.
  intros H Hc. unfold the_client.
  rewrite (sync_bind_ok _ _ _ _ _ (deref_ok _ _ _ H)). by rewrite Hc.
Qed.

Lemma get_kernel_ok kernel_id w l :
  _kernels (km w) !! kernel_id = Some l → MKM.get_kernel kernel_id w = (Ok l, w).
Proof. intros H. unfold MKM.get_kernel. by rewrite H. Qed.

Lemma contains_true w kernel_id :
  MKM.__contains__ w kernel_id = true ↔ is_Some (_kernels (km w) !! kernel_id).
Proof. unfold MKM.__contains__. apply bool_decide_eq_true. Qed.

Lemma contains_false w kernel_id :
  MKM.__contains__ w kernel_id = false ↔ _kernels (km w) !! kernel_id = None.
Proof.
  unfold MKM.__contains__. rewrite bool_decide_eq_false.
  by rewrite eq_None_not_Some.
Qed.

Lemma check_kernel_id_ok kernel_id w l :
  _kernels (km w) !! kernel_id = Some l →
  MKM._check_kernel_id kernel_id w = (Ok tt, w).
Proof.
  intros H. unfold MKM._check_kernel_id.
  assert (MKM.__contains__ w kernel_id = true) as ->; [|done].
  apply contains_true. eauto.
Qed.

(** ** The culler *)

Lemma getattr_kernel_name k :
  getattr k "kernel_name" = Raise (AttributeError "kernel_name").
Proof. reflexivity. Qed.

Lemma cull_kernel_if_idle_AttributeError w kernel_id l k :
  _kernels (km w) !! kernel_id = Some l →
  heap w !! l = Some k →
  MKM.cull_kernel_if_idle kernel_id w = (Raise (AttributeError "kernel_name"), w).
Proof.
  intros Hreg Hk. unfold MKM.cull_kernel_if_idle.
  rewrite (sync_bind_ok _ _ _ _ _ (get_kernel_ok _ _ _ Hreg)).
  rewrite (sync_bind_ok _ _ _ _ _ (deref_ok _ _ _ Hk)).
  by rewrite sync_bind_unfold, getattr_kernel_name.
Qed.

Lemma cull_each_logs ids : ∀ w,
  registry_resolves w →
  Forall (λ kernel_id, is_Some (_kernels (km w) !! kernel_id)) ids →
  MKM.cull_each ids w =
    (Ok [],
     set_log (log w ++ (cull_exception_record (AttributeError "kernel_name") <$> ids)) w).
Proof.
  induction ids as [|kernel_id ids IH]; intros w Hres Hids.
  - cbn. by rewrite set_log_app_nil.
  - apply Forall_cons in Hids as [[l Hreg] Hids].
    destruct (Hres _ _ Hreg) as [k Hk].
    cbn [MKM.cull_each]. rewrite sync_bind_unfold. unfold try_except at 1.
    rewrite (cull_kernel_if_idle_AttributeError _ _ _ _ Hreg Hk).
    rewrite sync_bind_unfold. unfold emit at 1, modify at 1.
    cbn [mret sync_ret].
    rewrite sync_bind_unfold, IH; [|exact Hres|exact Hids].
    cbn. by rewrite <- app_assoc.
Qed.

Lemma list_kernel_ids_registered w :
  Forall (λ kernel_id, is_Some (_kernels (km w) !! kernel_id)) (MKM.list_kernel_ids w).
Proof.
  apply Forall_forall. intros kernel_id Hin. unfold MKM.list_kernel_ids in Hin.
  apply list_elem_of_fmap in Hin as [[i l] [-> Hin]].
  apply elem_of_map_to_list in Hin. eauto.
Qed.

(** C2.  On a registered kernel, [cull_kernel_if_idle] raises
    [AttributeError] at the read of [kernel.kernel_name], before any of the
    three criteria is computed and with nothing changed.  [cull_kernels]
    catches and logs it for each registered kernel in turn: a cull pass
    appends its polling record and one exception record per kernel, starts
    no shutdown, and leaves the registry, every kernel object and the gauge
    as they were. *)
Theorem cull_kernels_never_shuts_down (w : World) :
  registry_resolves w →
  (∀ kernel_id,
     is_Some (_kernels (km w) !! kernel_id) →
     MKM.cull_kernel_if_idle kernel_id w =
       (Raise (AttributeError "kernel_name"), w))
  ∧ MKM.cull_kernels w =
      (Ok [],
       set_log (log w ++ polling_record w ::
                  (cull_exception_record (AttributeError "kernel_name")
                     <$> MKM.list_kernel_ids w)) w).
Proof.
  intros Hres. split.
  - intros kernel_id [l Hreg]. destruct (Hres _ _ Hreg) as [k Hk].
    by eapply cull_kernel_if_idle_AttributeError.
  - unfold MKM.cull_kernels. rewrite sync_bind_unfold. cbn [gets].
    rewrite sync_bind_unfold. unfold emit at 1, modify at 1.
    rewrite sync_bind_unfold. cbn [gets].
    rewrite cull_each_logs.
    + cbn. unfold polling_record. by rewrite <- app_assoc.
    + exact Hres.
    + apply (list_kernel_ids_registered w).
Qed.

(** ** Methods that leave a part of the world alone *)

Section keeps.

Context {X : Type} (f : World → X).

Lemma keeps_ret {A} (a : A) : keeps f (mret a).
Proof. done. Qed.

Lemma keeps_raise {A} e : keeps f (@raise A e).
Proof. done. Qed.

Lemma keeps_gets {A} (g : World → A) : keeps f (gets g).
Proof. done. Qed.

Lemma keeps_modify g : (∀ w, f (g w) = f w) → keeps f (modify g).
Proof. intros H w. apply H. Qed.

Lemma keeps_bind {A B} (m : sync A) (k : A → sync B) :
  keeps f m → (∀ a, keeps f (k a)) → keeps f (m ≫= k).
Proof.
  intros Hm Hk w. rewrite sync_bind_unfold.
  specialize (Hm w). destruct (m w) as [[a|e] w']; simpl in *.
  - by rewrite Hk.
  - done.
Qed.

Lemma keeps_try_except {A} (m : sync A) h :
  keeps f m → (∀ e, keeps f (h e)) → keeps f (try_except m h).
Proof.
  intros Hm Hh w. unfold try_except.
  specialize (Hm w). destruct (m w) as [[a|e] w']; simpl in *.
  - done.
  - by rewrite Hh.
Qed.

Lemma keeps_when b m : keeps f m → keeps f (when b m).
Proof. destruct b; [done | intros _; apply keeps_ret]. Qed.

Lemma keeps_for_each {A} (l : list A) body :
  (∀ x, keeps f (body x)) → keeps f (for_each l body).
Proof.
  intros H. induction l as [|x l IH]; simpl.
  - apply keeps_ret.
  - apply keeps_bind; [apply H | intros _; apply IH].
Qed.

Lemma keeps_deref l : keeps f (deref l).
Proof. intros w. unfold deref. by destruct (heap w !! l). Qed.

Lemma keeps_the_client l method : keeps f (the_client l method).
Proof.
  apply keeps_bind; [apply keeps_deref|].
  intros k. destruct (client k); [apply keeps_ret | apply keeps_raise].
Qed.

Lemma keeps_get_kernel kernel_id : keeps f (MKM.get_kernel kernel_id).
Proof. intros w. unfold MKM.get_kernel. by destruct (_ !! _). Qed.

Lemma keeps_check_kernel_id kernel_id : keeps f (MKM._check_kernel_id kernel_id).
Proof. intros w. unfold MKM._check_kernel_id. by destruct (negb _). Qed.

Lemma keeps_spawn (m : coro unit) :
  (∀ w, f (step_world (m w)) = f w) → keeps f (spawn m).
Proof. intros H w. specialize (H w). unfold spawn. by destruct (m w). Qed.

Section fields.

Hypothesis f_heap : ∀ h w, f (set_heap h w) = f w.

Hypothesis f_log : ∀ l w, f (set_log l w) = f w.

Hypothesis f_next_obj : ∀ n w, f (set_next_obj n w) = f w.

Hypothesis f_gauge : ∀ g w, f (set_gauge g w) = f w.

Lemma keeps_update l g : keeps f (update l g).
Proof.
  apply keeps_bind; [apply keeps_deref|].
  intros k. apply keeps_modify. intros w. apply f_heap.
Qed.

Lemma keeps_emit lvl fmt a : keeps f (emit lvl fmt a).
Proof. apply keeps_modify. intros w. apply f_log. Qed.

Lemma keeps_alloc : keeps f alloc.
Proof. intros w. apply f_next_obj. Qed.

Lemma keeps_gauge_inc ty : keeps f (gauge_inc ty).
Proof. apply keeps_modify. intros w. apply f_gauge. Qed.

Lemma keeps_gauge_dec ty : keeps f (gauge_dec ty).
Proof. apply keeps_modify. intros w. apply f_gauge. Qed.

End fields.

Lemma step_keeps_bind {A B} x (s : step A) (k : A → coro B) :
  step_keeps f x s → (∀ a, coro_keeps f (k a)) → step_keeps f x (step_bind s k).
Proof.
  intros Hs Hk. induction Hs as [[a|e] w|a w k' _ IH]; simpl.
  - apply Hk.
  - constructor.
  - constructor. intros r w'. apply IH.
Qed.

Lemma coro_keeps_ret {A} (a : A) : coro_keeps f (mret a).
Proof. intros w. constructor. Qed.

Lemma coro_keeps_bind {A B} (m : coro A) (k : A → coro B) :
  coro_keeps f m → (∀ a, coro_keeps f (k a)) → coro_keeps f (m ≫= k).
Proof. intros Hm Hk w. apply step_keeps_bind; [apply Hm | apply Hk]. Qed.

Lemma coro_keeps_lift {A} (m : sync A) : keeps f m → coro_keeps f (lift m).
Proof.
  intros Hm w. unfold lift. specialize (Hm w).
  destruct (m w) as [r w']; simpl in *. rewrite <- Hm. constructor.
Qed.

Lemma coro_keeps_await a : coro_keeps f (await a).
Proof. intros w. constructor. intros [|e|] w'; constructor. Qed.

Lemma step_keeps_world {A} x (s : step A) : step_keeps f x s → f (step_world s) = x.
Proof. by intros []. Qed.

End keeps.

Ltac keeps_step :=
  first
    [ apply keeps_ret | apply keeps_raise | apply keeps_gets
    | apply keeps_deref | apply keeps_the_client | apply keeps_get_kernel
    | apply keeps_check_kernel_id
    | apply keeps_update; reflexivity
    | apply keeps_emit; reflexivity
    | apply keeps_alloc; reflexivity
    | apply keeps_gauge_inc; reflexivity
    | apply keeps_gauge_dec; reflexivity
    | apply keeps_modify; reflexivity
    | apply keeps_when
    | apply keeps_for_each; intros ?
    | apply keeps_bind; [|intros ?]
    | match goal with
      | |- keeps _ (let '(_, _) := ?x in _) => destruct x
      | |- keeps _ (match ?x with _ => _ end) => destruct x
      | |- keeps _ (if ?x then _ else _) => destruct x
      end ].

Ltac coro_keeps_step :=
  first
    [ apply coro_keeps_ret | apply coro_keeps_await
    | apply coro_keeps_lift; repeat keeps_step
    | apply coro_keeps_bind; [|intros ?]
    | match goal with
      | |- coro_keeps _ (match ?x with _ => _ end) => destruct x
      | |- coro_keeps _ (if ?x then _ else _) => destruct x
      end ].

Lemma stop_buffering_keeps_registry self : keeps registry (KI.stop_buffering self).
Proof. unfold KI.stop_buffering. repeat keeps_step. Qed.

Lemma shutdown_keeps_registry self now : coro_keeps registry (KI.shutdown self now).
Proof.
  unfold KI.shutdown. repeat coro_keeps_step.
Qed.

(** ** Stopping a session *)

Lemma step_keeps_absent {A} kernel_id x (s : step A) :
  step_keeps registry x s →
  x !! kernel_id = None →
  absent_throughout kernel_id s.
Proof.
  induction 1 as [r w|a w k _ IH]; intros Habs.
  - constructor. by apply contains_false.
  - constructor; [by apply contains_false|].
    intros r w' Hw'. apply IH. by apply contains_false.
Qed.

Lemma pop_kernel_ok kernel_id w l :
  _kernels (km w) !! kernel_id = Some l →
  MKM.pop_kernel kernel_id w =
    (Ok l, set_km (set__kernels (delete kernel_id (_kernels (km w))) (km w)) w).
Proof.
  intros H. unfold MKM.pop_kernel.
  by rewrite (sync_bind_ok _ _ _ _ _ (get_kernel_ok _ _ _ H)).
Qed.


Example one_kernel_registered :
  MKM.list_kernel_ids one_kernel = ["X"]
  ∧ registry one_kernel !! "X" = Some 0
  ∧ gauge_value one_kernel "pyimport/kernel" = 1%Z
  ∧ (MKM.kernel_model "X" one_kernel).1 =
      Ok {| model_id := "X"; model_name := "pyimport/kernel";
            model_last_activity := Some 0%Z;
            model_execution_state := "starting";
            model_connections := 0 |}.
Proof. vm_compute. done. Qed.

(** A kernel name without a slash is looked up among the kernel specs. *)
Example start_kernel_by_spec_name :
  (run (MKM.start_kernel None (Some "python3") "Y" one_kernel) [Resolved]
     ≫= λ '(r, w), Some (r, (MKM.kernel_model "Y" w).1, next_obj w))
  = Some (Ok "Y",
          Ok {| model_id := "Y"; model_name := "spec/python3";
                model_last_activity := Some 0%Z;
                model_execution_state := "starting";
                model_connections := 0 |},
          4).
Proof. vm_compute. reflexivity. Qed.

(** Starting with the id of a live session hands the id back and launches
    nothing; with an unknown id it is the 404. *)
Example start_kernel_existing_id :
  (run (MKM.start_kernel (Some "X") None "Y" one_kernel) []
     ≫= λ '(r, w), Some (r, MKM.list_kernel_ids w, next_obj w))
  = Some (Ok "X", ["X"], next_obj one_kernel)
  ∧ (run (MKM.start_kernel (Some "Z") None "Y" one_kernel) []
       ≫= λ '(r, w), Some (r, MKM.list_kernel_ids w))
    = Some (Raise (HTTPError 404 "Kernel does not exist: Z"), ["X"]).
Proof. vm_compute. done. Qed.

(** A completed [shutdown_kernel] empties the registry and takes the gauge
    back to 0. *)
Example shutdown_kernel_completes :
  (run (MKM.shutdown_kernel "X" false one_kernel) [Resolved]
     ≫= λ '(r, w), Some (r, MKM.list_kernel_ids w,
                          gauge_value w "pyimport/kernel"))
  = Some (Ok tt, [], 0%Z).
Proof. vm_compute. reflexivity. Qed.

Lemma one_kernel_heap : heap one_kernel !! 0 = Some kernel_X.
Proof. vm_compute. reflexivity. Qed.

Lemma one_kernel_registry : _kernels (km one_kernel) !! "X" = Some 0.
Proof. vm_compute. reflexivity. Qed.

Lemma one_kernel_resolves : registry_resolves one_kernel.
Proof.
  intros kernel_id l.
  assert (_kernels (km one_kernel) = {["X" := 0]}) as ->
    by (apply map_eq; intros j; vm_compute; reflexivity).
  intros [_ <-]%lookup_singleton_Some. rewrite one_kernel_heap. eauto.
Qed.

Lemma cull_kernels_never_shuts_down_witness :
  MKM.cull_kernel_if_idle "X" one_kernel =
    (Raise (AttributeError "kernel_name"), one_kernel)
  ∧ MKM.cull_kernels one_kernel =
      (Ok [],
       set_log (log one_kernel ++
                  [polling_record one_kernel;
                   cull_exception_record (AttributeError "kernel_name") "X"])
         one_kernel).
Proof.
  destruct (cull_kernels_never_shuts_down one_kernel one_kernel_resolves)
    as [Hone Hpass].
  split.
  - apply Hone. rewrite one_kernel_registry. eauto.
  - exact Hpass.
Defined.


(** ** Connection counting *)

Lemma notify_unknown n w :
  match n with Connect i | Disconnect i => _kernels (km w) !! i = None end →
  notify n w = (Ok tt, w).
Proof.
  destruct n as [i|i]; intros H; apply contains_false in H; simpl;
    unfold MKM.notify_connect, MKM.notify_disconnect;
    rewrite sync_bind_unfold; cbn [gets]; by rewrite H.
Qed.

Lemma notify_step n w kernel_id l k :
  _kernels (km w) !! kernel_id = Some l →
  heap w !! l = Some k →
  (∀ i, _kernels (km w) !! i = Some l → i = kernel_id) →
  km (notify n w).2 = km w
  ∧ ∃ k', heap (notify n w).2 !! l = Some k'
          ∧ n_connections k' = (n_connections k + net kernel_id [n])%Z
          ∧ kernel_type k' = kernel_type k.
Proof.
  intros Hreg Hk Hinj.
  assert (∀ i d,
    (known ← gets (λ w, MKM.__contains__ w i);
     when known
       (kernel ← MKM.get_kernel i;
        update kernel (λ k, set_n_connections (n_connections k + d)%Z k))) w
    = match _kernels (km w) !! i with
      | Some l' =>
          match heap w !! l' with
          | Some k0 =>
              (Ok tt, set_heap (<[l' := set_n_connections (n_connections k0 + d)%Z k0]>
                                  (heap w)) w)
          | None => (Raise (Dangling l'), w)
          end
      | None => (Ok tt, w)
      end) as Hcall.
  { intros i d. rewrite sync_bind_unfold. cbn [gets].
    destruct (_kernels (km w) !! i) as [l'|] eqn:Hi.
    - assert (MKM.__contains__ w i = true) as -> by (apply contains_true; eauto).
      cbn [when]. rewrite (sync_bind_ok _ _ _ _ _ (get_kernel_ok _ _ _ Hi)).
      destruct (heap w !! l') as [k0|] eqn:Hk0.
      + by rewrite (update_ok _ _ _ _ Hk0).
      + unfold update. rewrite sync_bind_unfold. unfold deref. by rewrite Hk0.
    - assert (MKM.__contains__ w i = false) as -> by by apply contains_false.
      done. }
  assert (∀ i d,
    let w' := match _kernels (km w) !! i with
      | Some l' =>
          match heap w !! l' with
          | Some k0 =>
              set_heap (<[l' := set_n_connections (n_connections k0 + d)%Z k0]>
                          (heap w)) w
          | None => w
          end
      | None => w
      end in
    km w' = km w
    ∧ ∃ k', heap w' !! l = Some k'
            ∧ n_connections k' =
                (n_connections k + (if decide (i = kernel_id) then d else 0))%Z
            ∧ kernel_type k' = kernel_type k) as Hres.
  { intros i d. simpl.
    destruct (_kernels (km w) !! i) as [l'|] eqn:Hi.
    - destruct (heap w !! l') as [k0|] eqn:Hk0.
      + split; [done|]. destruct (decide (l' = l)) as [->|Hne].
        * rewrite (Hinj _ Hi), decide_True by done.
          assert (k0 = k) as -> by congruence.
          eexists. cbn. rewrite lookup_insert_eq. done.
        * exists k. cbn. rewrite lookup_insert_ne by done.
          destruct (decide (i = kernel_id)) as [->|]; [congruence|].
          split; [done|]. split; [lia|done].
      + split; [done|]. exists k.
        destruct (decide (i = kernel_id)) as [->|]; [congruence|].
        split; [done|]. split; [lia|done].
    - split; [done|]. exists k.
      destruct (decide (i = kernel_id)) as [->|]; [congruence|].
      split; [done|]. split; [lia|done]. }
  destruct n as [i|i]; cbn [notify net];
    unfold MKM.notify_connect, MKM.notify_disconnect.
  - rewrite (Hcall i 1%Z). specialize (Hres i 1%Z). simpl in Hres.
    destruct (_kernels (km w) !! i) as [l'|]; [destruct (heap w !! l')|];
      (destruct Hres as (Hkm & k' & ? & Hn & ?); split; [exact Hkm|];
       exists k'; split; [done|]; split; [|done];
       rewrite Hn; destruct (decide (i = kernel_id)); lia).
  - change (n_connections ?k0 - 1)%Z with (n_connections k0 + -1)%Z.
    rewrite (Hcall i (-1)%Z). specialize (Hres i (-1)%Z). simpl in Hres.
    destruct (_kernels (km w) !! i) as [l'|]; [destruct (heap w !! l')|];
      (destruct Hres as (Hkm & k' & ? & Hn & ?); split; [exact Hkm|];
       exists k'; split; [done|]; split; [|done];
       rewrite Hn; destruct (decide (i = kernel_id)); lia).
Qed.

Lemma notify_all_spec ns : ∀ w kernel_id l k,
  _kernels (km w) !! kernel_id = Some l →
  heap w !! l = Some k →
  (∀ i, _kernels (km w) !! i = Some l → i = kernel_id) →
  km (notify_all ns w) = km w
  ∧ ∃ k', heap (notify_all ns w) !! l = Some k'
          ∧ n_connections k' = (n_connections k + net kernel_id ns)%Z
          ∧ kernel_type k' = kernel_type k.
Proof.
  induction ns as [|n ns IH]; intros w kernel_id l k Hreg Hk Hinj.
  - split; [done|]. exists k. simpl. split; [done|]. split; [lia|done].
  - destruct (notify_step n w kernel_id l k Hreg Hk Hinj)
      as (Hkm & k1 & Hk1 & Hn1 & Hty1).
    change (notify_all (n :: ns) w) with (notify_all ns (notify n w).2).
    destruct (IH (notify n w).2 kernel_id l k1) as (Hkm' & k' & Hk' & Hn' & Hty').
    + by rewrite Hkm.
    + done.
    + rewrite Hkm. exact Hinj.
    + split; [congruence|]. exists k'. split; [done|]. split; [|congruence].
      rewrite Hn', Hn1. destruct n as [i|i]; simpl; lia.
Qed.

(** C6, as the code has it.  A call for an id that is not registered
    changes nothing.  For a registered session the counter is a plain
    integer that [notify_connect] increments and [notify_disconnect]
    decrements without a lower bound: after any sequence of calls
    [kernel_model] reports the initial count plus the connects minus the
    disconnects addressed to that id, which is non-negative exactly when the
    disconnects do not outnumber the initial count plus the connects. *)
Theorem connection_count_is_connects_minus_disconnects
    (w : World) (kernel_id : string) (l : loc) (k : KernelInterface)
    (ns : list notification) :
  _kernels (km w) !! kernel_id = Some l →
  heap w !! l = Some k →
  (∀ i, _kernels (km w) !! i = Some l → i = kernel_id) →
  (∀ i, _kernels (km w) !! i = None →
        MKM.notify_connect i w = (Ok tt, w)
        ∧ MKM.notify_disconnect i w = (Ok tt, w))
  ∧ ∃ model,
      MKM.kernel_model kernel_id (notify_all ns w) = (Ok model, notify_all ns w)
      ∧ model_connections model = (n_connections k + net kernel_id ns)%Z
      ∧ (0 ≤ model_connections model ↔ - net kernel_id ns ≤ n_connections k)%Z.
Proof.
  intros Hreg Hk Hinj. split.
  - intros i Hi. split.
    + by apply (notify_unknown (Connect i)).
    + by apply (notify_unknown (Disconnect i)).
  - destruct (notify_all_spec ns w kernel_id l k Hreg Hk Hinj)
      as (Hkm & k' & Hk' & Hn & _).
    assert (_kernels (km (notify_all ns w)) !! kernel_id = Some l) as Hreg'
      by by rewrite Hkm.
    eexists. split; [|split].
    + unfold MKM.kernel_model.
      rewrite (sync_bind_ok _ _ _ _ _ (check_kernel_id_ok _ _ _ Hreg')).
      rewrite (sync_bind_ok _ _ _ _ _ (get_kernel_ok _ _ _ Hreg')).
      rewrite (sync_bind_ok _ _ _ _ _ (deref_ok _ _ _ Hk')).
      reflexivity.
    + exact Hn.
    + cbn. rewrite Hn. lia.
Qed.

Lemma connection_count_is_connects_minus_disconnects_witness :
  ∃ model,
    MKM.kernel_model "X"
      (notify_all [Connect "X"; Connect "X"; Connect "X"; Disconnect "X"] one_kernel)
    = (Ok model,
       notify_all [Connect "X"; Connect "X"; Connect "X"; Disconnect "X"] one_kernel)
    ∧ model_connections model = 2%Z.
Proof.
  destruct (connection_count_is_connects_minus_disconnects one_kernel "X" 0 kernel_X
              [Connect "X"; Connect "X"; Connect "X"; Disconnect "X"])
    as (_ & model & Hmodel & Hn & _).
  - vm_compute. reflexivity.
  - vm_compute. reflexivity.
  - intros i Hi. destruct (decide (i = "X")) as [|Hne]; [done|].
    exfalso. revert Hi.
    assert (_kernels (km one_kernel) = {["X" := 0]}) as ->
      by (apply map_eq; intros j; vm_compute; reflexivity).
    rewrite lookup_singleton_ne by done. done.
  - exists model. split; [exact Hmodel | exact Hn].
Defined.

(** C6 as stated fails.  One [notify_disconnect] on the freshly started
    session, whose count is 0, leaves it at -1.  Paired calls do not help
    either: a viewer connects (count 1), the session is restarted, which
    registers a new kernel object with count 0 under the same id, and the
    viewer's disconnect then leaves -1. *)
Lemma connection_count_goes_negative :
  reported_connections one_kernel "X" = Some 0%Z
  ∧ reported_connections (notify_all [Disconnect "X"] one_kernel) "X" = Some (-1)%Z
  ∧ reported_connections (notify_all [Connect "X"] one_kernel) "X" = Some 1%Z
  ∧ reported_connections
      (notify_all [Disconnect "X"]
         (world_after (MKM.restart_kernel "X") [Resolved; Resolved]
            (notify_all [Connect "X"] one_kernel))) "X" = Some (-1)%Z.
Proof. vm_compute. done. Qed.

(** ** Unexpected death and the running-kernel gauge *)

Lemma gauge_value_inc w ty g :
  gauge_value (set_gauge (<[ty := (g + 1)%Z]> (KERNEL_CURRENTLY_RUNNING_TOTAL w)) w) ty
  = (g + 1)%Z.
Proof. unfold gauge_value. cbn. by rewrite lookup_insert_eq. Qed.

Lemma live_sessions_delete w w' kernel_id l k ty :
  _kernels (km w) !! kernel_id = Some l →
  heap w !! l = Some k →
  kernel_type k = ty →
  _kernels (km w') = delete kernel_id (_kernels (km w)) →
  (∀ l0, kernel_type <$> heap w' !! l0 = kernel_type <$> heap w !! l0) →
  live_sessions w' ty = (live_sessions w ty - 1)%Z.
Proof.
  intros Hreg Hk Hty Hkm Hheap. unfold live_sessions. rewrite Hkm.
  assert (filter (λ p : string * loc, kernel_type <$> heap w' !! p.2 = Some ty)
            (delete kernel_id (_kernels (km w)))
          = delete kernel_id
              (filter (λ p : string * loc, kernel_type <$> heap w !! p.2 = Some ty)
                 (_kernels (km w)))) as ->.
  { rewrite <- map_filter_delete. apply map_filter_ext.
    intros i x _. simpl. by rewrite Hheap. }
  rewrite map_size_delete_Some.
  - assert (size (filter (λ p : string * loc,
                            kernel_type <$> heap w !! p.2 = Some ty)
                         (_kernels (km w))) ≠ 0) as Hpos; [|lia].
    apply map_size_ne_0_lookup. exists kernel_id.
    exists l. apply map_lookup_filter_Some. split; [done|].
    simpl. by rewrite Hk, <- Hty.
  - exists l. apply map_lookup_filter_Some. split; [done|].
    simpl. by rewrite Hk, <- Hty.
Qed.

(** C10, as the code has it.  When the death handler runs for a registered
    session whose client is connected, it removes the entry from the
    registry, closes the client, cleans up the process handle and
    increments the gauge of the kernel's type by 1.  The registry has one
    live session of that type less and the gauge counts one more, so the
    gauge's excess over the live sessions of that type grows by 2. *)
Theorem kernel_death_raises_gauge_excess_by_two
    (w : World) (kernel_id : string) (l : loc) (k : KernelInterface) (c : Client) :
  _kernels (km w) !! kernel_id = Some l →
  heap w !! l = Some k →
  client k = Some c →
  ∃ w',
    MKM._handle_kernel_died kernel_id w = (Ok tt, w')
    ∧ MKM.__contains__ w' kernel_id = false
    ∧ heap w' !! l =
        Some (set_manager (cleanup (manager k)) (set_client (Some (close c)) k))
    ∧ gauge_value w' (kernel_type k) = (gauge_value w (kernel_type k) + 1)%Z
    ∧ live_sessions w' (kernel_type k) = (live_sessions w (kernel_type k) - 1)%Z
    ∧ gauge_excess w' (kernel_type k) = (gauge_excess w (kernel_type k) + 2)%Z.
Proof.
  intros Hreg Hk Hc.
  unfold MKM._handle_kernel_died.
  rewrite sync_bind_unfold. unfold emit at 1, modify at 1.
  erewrite sync_bind_ok; [|by apply pop_kernel_ok].
  erewrite sync_bind_ok; [|by eapply the_client_ok].
  erewrite sync_bind_ok; [|by eapply update_ok].
  erewrite sync_bind_ok; [|eapply update_ok; cbn; apply lookup_insert_eq].
  erewrite sync_bind_ok; [|eapply deref_ok; cbn; apply lookup_insert_eq].
  unfold gauge_inc, modify. cbn [kernel_type set_manager set_client].
  eexists. split; [reflexivity|].
  match goal with |- ?A ∧ ?B ∧ ?C ∧ ?D ∧ ?E =>
    assert A as HA; [|assert B as HB; [|assert C as HC; [|assert D as HD]]]
  end.
  - apply contains_false. cbn. apply lookup_delete_eq.
  - cbn. by rewrite insert_insert_eq, lookup_insert_eq.
  - unfold gauge_value at 1. cbn. rewrite lookup_insert_eq. reflexivity.
  - eapply live_sessions_delete; [exact Hreg | exact Hk | reflexivity | reflexivity |].
    intros l0. cbn. rewrite insert_insert_eq.
    destruct (decide (l0 = l)) as [->|Hne].
    + by rewrite lookup_insert_eq, Hk.
    + by rewrite lookup_insert_ne.
  - repeat split; try assumption.
    unfold gauge_excess. rewrite HC, HD. lia.
Qed.

Lemma kernel_death_raises_gauge_excess_by_two_witness :
  ∃ w',
    MKM._handle_kernel_died "X" one_kernel = (Ok tt, w')
    ∧ MKM.__contains__ w' "X" = false
    ∧ gauge_excess w' "pyimport/kernel"
      = (gauge_excess one_kernel "pyimport/kernel" + 2)%Z.
Proof.
  destruct (kernel_death_raises_gauge_excess_by_two one_kernel "X" 0 kernel_X
              {| handlers := [("iopub", record_activity 0 "X" 1)];
                 shutdown_requested := false; closed := false |})
    as (w' & Hrun & Hgone & _ & _ & _ & Hexcess).
  - vm_compute. reflexivity.
  - vm_compute. reflexivity.
  - reflexivity.
  - exists w'. split; [exact Hrun|]. split; [exact Hgone | exact Hexcess].
Defined.

(** C10 as stated fails: with one session of the default type and the
    gauge at 1, the gauge exceeds the live sessions by 0 before the death
    and by 2 after it, not by 1. *)
Lemma kernel_death_excess_not_one_more :
  gauge_excess one_kernel "pyimport/kernel" = 0%Z
  ∧ (MKM._handle_kernel_died "X" one_kernel).1 = Ok tt
  ∧ gauge_value (MKM._handle_kernel_died "X" one_kernel).2 "pyimport/kernel" = 2%Z
  ∧ live_sessions (MKM._handle_kernel_died "X" one_kernel).2 "pyimport/kernel" = 0%Z
  ∧ gauge_excess (MKM._handle_kernel_died "X" one_kernel).2 "pyimport/kernel"
    ≠ (gauge_excess one_kernel "pyimport/kernel" + 1)%Z.
Proof. vm_compute. repeat split; congruence. Qed.

(** ** Buffering *)

Lemma lookup_put l k w : heap (put l k w) !! l = Some k.
Proof. unfold put. cbn. apply lookup_insert_eq. Qed.

Lemma put_put l k1 k2 w : put l k2 (put l k1 w) = put l k2 w.
Proof. unfold put. cbn. by rewrite insert_insert_eq. Qed.

Lemma put_id l k w : heap w !! l = Some k → put l k w = w.
Proof. intros H. unfold put. rewrite insert_id by done. by destruct w. Qed.

Lemma update_put l f w k :
  heap w !! l = Some k → update l f w = (Ok tt, put l (f k) w).
Proof. apply update_ok. Qed.

Lemma set_client_id k c : client k = Some c → set_client (Some c) k = k.
Proof. destruct k. cbn. by intros ->. Qed.

Lemma stop_loop_spec self hs : ∀ w k c,
  heap w !! self = Some k →
  client k = Some c →
  for_each hs (λ '(channel, handler),
    c ← the_client self "remove_handler";
    match remove_handler channel handler c with
    | Ok c' => update self (set_client (Some c'))
    | Raise ValueError => mret tt
    | Raise e => raise e
    end) w
  = (Ok tt, put self (set_client (Some (detach hs c)) k) w).
Proof.
  induction hs as [|[channel h] hs IH]; intros w k c Hk Hc.
  - cbn. by rewrite (set_client_id _ _ Hc), (put_id _ _ _ Hk).
  - cbn [for_each detach].
    rewrite sync_bind_unfold.
    rewrite (sync_bind_ok _ _ _ _ _ (the_client_ok _ _ _ _ _ Hk Hc)).
    unfold remove_handler.
    destruct (remove_first (channel, h) (handlers c)) as [hs1|].
    + rewrite (update_put _ _ _ _ Hk).
      erewrite IH; [|apply lookup_put|reflexivity].
      by rewrite put_put.
    + cbn [mret sync_ret]. by erewrite IH.
Qed.

Lemma stop_buffering_spec self w k :
  heap w !! self = Some k →
  can_stop_buffering k →
  KI.stop_buffering self w =
    (Ok tt, set_log (log w ++ discard_record k) (put self (stopped k) w)).
Proof.
  intros Hk Hcan. unfold KI.stop_buffering.
  rewrite (sync_bind_ok _ _ _ _ _ (deref_ok _ _ _ Hk)).
  set (k1 := set_client (detach (buffer_handlers k) <$> client k) k).
  assert (for_each (buffer_handlers k) (λ '(channel, handler),
            c ← the_client self "remove_handler";
            match remove_handler channel handler c with
            | Ok c' => update self (set_client (Some c'))
            | Raise ValueError => mret tt
            | Raise e => raise e
            end) w = (Ok tt, put self k1 w)) as Hloop.
  { destruct (client k) as [c|] eqn:Hc.
    - subst k1. by apply stop_loop_spec.
    - rewrite (Hcan Hc). cbn [for_each mret sync_ret]. subst k1.
      cbn [fmap option_fmap option_map].
      assert (set_client None k = k) as -> by (destruct k; cbn in *; by subst).
      by rewrite (put_id _ _ _ Hk). }
  rewrite (sync_bind_ok _ _ _ _ _ Hloop).
  rewrite (sync_bind_ok _ _ _ _ _ (update_put _ _ _ _ (lookup_put _ _ _))).
  rewrite put_put.
  rewrite (sync_bind_ok _ _ _ _ _ (deref_ok _ _ _ (lookup_put _ _ _))).
  rewrite sync_bind_unfold.
  assert (buffer (set_buffer_handlers [] k1) = buffer k) as Hb by reflexivity.
  assert (buffer_for_key (set_buffer_handlers [] k1) = buffer_for_key k) as Hkey
    by reflexivity.
  unfold discard_record. rewrite Hb, Hkey.
  destruct (bool_decide (buffer k ≠ [])); cbn [when].
  - unfold emit at 1, modify at 1.
    erewrite sync_bind_ok; [|apply update_put; cbn; apply lookup_insert_eq].
    erewrite update_put; [|cbn; apply lookup_insert_eq].
    unfold put, stopped. cbn. by rewrite !insert_insert_eq.
  - cbn [mret sync_ret].
    erewrite sync_bind_ok; [|apply update_put; apply lookup_put].
    erewrite update_put; [|apply lookup_put].
    rewrite !put_put. unfold put, stopped. cbn. by rewrite app_nil_r.
Qed.

(** ** Shutting a kernel down *)

Lemma teardown_spec self w k c :
  heap w !! self = Some k →
  client k = Some c →
  ((c ← lift (the_client self "close");
    lift (update self (set_client (Some (close c))));;
    lift (update self (λ k, set_manager (cleanup (manager k)) k));;
    lift (KI.stop_buffering self)) : coro unit) w
  = Done (Ok tt)
      (set_log (log w ++ discard_record k)
         (put self
            (stopped (set_manager (cleanup (manager k))
                        (set_client (Some (close c)) k))) w)).
Proof.
  intros Hk Hc.
  rewrite (lift_bind_ok _ _ _ _ _ (the_client_ok _ _ _ _ _ Hk Hc)).
  rewrite (lift_bind_ok _ _ _ _ _ (update_put _ _ _ _ Hk)).
  rewrite (lift_bind_ok _ _ _ _ _ (update_put _ _ _ _ (lookup_put _ _ _))).
  rewrite put_put. unfold lift.
  erewrite stop_buffering_spec; [|apply lookup_put|by intros ?].
  by rewrite put_put.
Qed.

Lemma detach_closed hs : ∀ c, closed (detach hs c) = closed c.
Proof.
  induction hs as [|[channel h] hs IH]; intros c; cbn; [done|].
  rewrite IH. unfold remove_handler. by destruct (remove_first _ _).
Qed.

Lemma stopped_torn_down k c :
  torn_down (stopped (set_manager (cleanup (manager k))
                        (set_client (Some (close c)) k))).
Proof.
  unfold torn_down, stopped. cbn. split; [|done].
  eexists. split; [reflexivity|]. by rewrite detach_closed.
Qed.

Lemma shutdown_now_spec self w k c :
  heap w !! self = Some k →
  client k = Some c →
  KI.shutdown self true w =
    Done (Ok tt)
      (set_log (log w ++ discard_record k)
         (put self
            (stopped (set_manager (cleanup (kill (manager k)))
                        (set_client (Some (close c)) k))) w)).
Proof.
  intros Hk Hc. unfold KI.shutdown. rewrite coro_bind_unfold.
  unfold lift at 1. rewrite (update_put _ _ _ _ Hk). cbn [step_bind].
  erewrite teardown_spec; [|apply lookup_put|exact Hc].
  by rewrite put_put.
Qed.

Lemma shutdown_graceful_spec self w k c :
  heap w !! self = Some k →
  client k = Some c →
  ∃ rest,
    KI.shutdown self false w =
      Susp (shutdown_or_terminate self)
        (put self (set_client (Some (request_shutdown c)) k) w) rest
    ∧ ∀ w2 k2 c2,
        heap w2 !! self = Some k2 →
        client k2 = Some c2 →
        rest Resolved w2 =
          Done (Ok tt)
            (set_log (log w2 ++ discard_record k2)
               (put self
                  (stopped (set_manager (cleanup (manager k2))
                              (set_client (Some (close c2)) k2))) w2))
        ∧ ∀ e, rest (Rejected e) w2 = Done (Raise e) w2.
Proof.
  intros Hk Hc. unfold KI.shutdown. rewrite coro_bind_unfold.
  rewrite (lift_bind_ok _ _ _ _ _ (the_client_ok _ _ _ _ _ Hk Hc)).
  rewrite (lift_bind_ok _ _ _ _ _ (update_put _ _ _ _ Hk)).
  cbn [await step_bind].
  eexists. split; [reflexivity|].
  intros w2 k2 c2 Hk2 Hc2. split; [|reflexivity].
  cbn [step_bind]. by erewrite teardown_spec.
Qed.


Lemma buffering_kernel_heap : heap buffering_kernel !! 0 = Some kernel_X_buffering.
Proof. vm_compute. reflexivity. Qed.

Lemma buffering_kernel_registry : _kernels (km buffering_kernel) !! "X" = Some 0.
Proof. vm_compute. reflexivity. Qed.



(** ** Taking the buffer *)

Lemma remove_first_None x l : remove_first x l = None → x ∉ l.
Proof.
  induction l as [|y l IH]; cbn; [intros _; apply not_elem_of_nil|].
  destruct (decide (x = y)); [done|].
  destruct (remove_first x l); [done|].
  intros _. apply not_elem_of_cons. auto.
Qed.

Lemma remove_first_Some x l : ∀ r,
  remove_first x l = Some r →
  (∀ y, y ∈ r → y ∈ l) ∧ (NoDup l → NoDup r ∧ x ∉ r).
Proof.
  induction l as [|y l IH]; cbn; [done|]. intros r.
  destruct (decide (x = y)) as [->|Hne].
  - intros [= ->]. split.
    + intros z Hz. by apply elem_of_cons; right.
    + intros Hnd. apply NoDup_cons in Hnd. by destruct Hnd.
  - destruct (remove_first x l) as [r'|]; [|done].
    intros [= <-]. destruct (IH r' eq_refl) as [Hsub Hnd]. split.
    + intros z Hz. apply elem_of_cons in Hz as [->|Hz].
      * by apply elem_of_cons; left.
      * apply elem_of_cons; right. by apply Hsub.
    + intros Hl. apply NoDup_cons in Hl as [Hy Hl].
      destruct (Hnd Hl) as [Hr' Hx]. split.
      * apply NoDup_cons. split; [|done]. intros Hin. apply Hy. by apply Hsub.
      * apply not_elem_of_cons. done.
Qed.

Lemma detach_subseteq hs : ∀ c p, p ∈ handlers (detach hs c) → p ∈ handlers c.
Proof.
  induction hs as [|[channel h] hs IH]; intros c p; cbn; [done|].
  intros Hp. apply IH in Hp. revert Hp. unfold remove_handler.
  destruct (remove_first (channel, h) (handlers c)) as [r|] eqn:Hr; [|done].
  cbn. by apply (remove_first_Some _ _ _ Hr).
Qed.

Lemma detach_NoDup hs : ∀ c, NoDup (handlers c) → NoDup (handlers (detach hs c)).
Proof.
  induction hs as [|[channel h] hs IH]; intros c Hnd; cbn; [done|].
  apply IH. unfold remove_handler.
  destruct (remove_first (channel, h) (handlers c)) as [r|] eqn:Hr; [|done].
  cbn. by apply (remove_first_Some _ _ _ Hr).
Qed.

Lemma detach_removes hs : ∀ c p,
  NoDup (handlers c) → p ∈ hs → p ∉ handlers (detach hs c).
Proof.
  induction hs as [|[channel h] hs IH]; intros c p Hnd Hp; cbn.
  - by apply elem_of_nil in Hp.
  - apply elem_of_cons in Hp as [->|Hp].
    + intros Hin. apply detach_subseteq in Hin. revert Hin.
      unfold remove_handler.
      destruct (remove_first (channel, h) (handlers c)) as [r|] eqn:Hr.
      * cbn. by apply (remove_first_Some _ _ _ Hr).
      * by apply remove_first_None.
    + apply IH; [|done]. unfold remove_handler.
      destruct (remove_first (channel, h) (handlers c)) as [r|] eqn:Hr; [|done].
      cbn. by apply (remove_first_Some _ _ _ Hr).
Qed.

Lemma get_buffer_spec self w k :
  heap w !! self = Some k →
  can_stop_buffering k →
  KI.get_buffer self w = (Ok (buffer k, buffer_for_key k), put self (stopped k) w).
Proof.
  intros Hk Hcan. unfold KI.get_buffer.
  rewrite (sync_bind_ok _ _ _ _ _ (deref_ok _ _ _ Hk)).
  rewrite (sync_bind_ok _ _ _ _ _ (update_put _ _ _ _ Hk)).
  erewrite sync_bind_ok; [|by apply stop_buffering_spec; [apply lookup_put|]].
  cbn [mret sync_ret]. rewrite put_put.
  unfold discard_record. cbn. by rewrite app_nil_r.
Qed.


Lemma kernel_X_buffering_recorded : buffering_recorded kernel_X_buffering.
Proof.
  intros c p [= <-].
  assert (Forall (λ p : string * handler,
                    is_buffer_msg p.2 = true →
                    p ∈ buffer_handlers kernel_X_buffering)
                 (handlers client_X_buffering)) as Hall
    by (apply (bool_decide_unpack _); vm_compute; exact I).
  rewrite Forall_forall in Hall. apply Hall.
Qed.


(** ** Starting to buffer *)

Lemma attach_loop_spec self channels : ∀ w k c,
  heap w !! self = Some k →
  client k = Some c →
  for_each channels (λ channel,
    uid ← alloc;
    let handler := buffer_msg self channel uid in
    c ← the_client self "add_handler";
    update self (set_client (Some (add_handler channel handler c)));;
    update self (λ k,
      set_buffer_handlers (dict_set channel handler (buffer_handlers k)) k)) w
  = (Ok tt,
     set_next_obj (next_obj w + length channels)
       (put self (attached self channels (next_obj w) k) w)).
Proof.
  induction channels as [|channel channels IH]; intros w k c Hk Hc.
  - cbn. rewrite (put_id _ _ _ Hk), Nat.add_0_r. by destruct w.
  - cbn [for_each attached length].
    rewrite sync_bind_unfold.
    rewrite sync_bind_unfold. unfold alloc at 1.
    erewrite sync_bind_ok; [|by eapply the_client_ok].
    erewrite sync_bind_ok; [|by eapply update_put].
    erewrite update_put; [|cbn; apply lookup_insert_eq].
    erewrite IH; [|cbn; apply lookup_insert_eq|reflexivity].
    cbn. rewrite Hc. cbn. unfold put, set_next_obj, set_heap. cbn.
    rewrite !insert_insert_eq. do 2 f_equal. lia.
Qed.

Lemma start_buffering_spec self session_key w k c :
  heap w !! self = Some k →
  client k = Some c →
  KI.start_buffering self session_key w =
    (Ok tt,
     set_next_obj (next_obj w + 3)
       (put self (attached self ["shell"; "iopub"; "stdin"] (next_obj w)
                    (set_buffer_for_key (Some session_key) k)) w)).
Proof.
  intros Hk Hc. unfold KI.start_buffering.
  rewrite (sync_bind_ok _ _ _ _ _ (update_put _ _ _ _ Hk)).
  erewrite attach_loop_spec; [|apply lookup_put|exact Hc].
  by rewrite put_put.
Qed.

Lemma dict_set_elem {V} key (v : V) d : (key, v) ∈ dict_set key v d.
Proof.
  induction d as [|[k0 v0] d IH]; cbn.
  - apply list_elem_of_singleton. reflexivity.
  - case_decide; subst.
    + apply elem_of_cons. by left.
    + apply elem_of_cons. by right.
Qed.

Lemma dict_set_other {V} key (v : V) key' v' d :
  key ≠ key' → (key', v') ∈ d → (key', v') ∈ dict_set key v d.
Proof.
  intros Hne. induction d as [|[k0 v0] d IH]; cbn.
  - intros H. by apply elem_of_nil in H.
  - intros H. apply elem_of_cons in H as [[= <- <-]|H].
    + rewrite decide_False by done. apply elem_of_cons. by left.
    + case_decide; subst; apply elem_of_cons; right; auto.
Qed.

Lemma run_buffer_msg_appends self channel msg w k :
  heap w !! self = Some k →
  ∃ w',
    KI.run_buffer_msg self channel msg w = (Ok tt, w')
    ∧ heap w' !! self = Some (set_buffer (buffer k ++ [(channel, msg)]) k).
Proof.
  intros Hk. unfold KI.run_buffer_msg.
  rewrite sync_bind_unfold. unfold emit at 1, modify at 1.
  erewrite update_put; [|exact Hk].
  eexists. split; [reflexivity|]. apply lookup_put.
Qed.

(** C9, as the code has it.  The clearing is done by the registry's
    [start_buffering], which calls [stop_buffering] before the kernel's
    [start_buffering]: with offline buffering enabled, a registered id and a
    connected client, it leaves the kernel with an empty buffer, the owner
    key, exactly the three new handlers recorded, and on the client what
    was attached apart from the previously recorded handlers, followed by
    the three new ones.  [KernelInterface.start_buffering] on its own
    records the key and attaches and records the three handlers, and clears
    nothing: the buffer and the attached handlers stay.  Each new handler,
    when a message arrives, appends the pair of its channel and the message
    to the buffer. *)
Theorem start_buffering_clears_only_through_the_registry
    (w : World) (kernel_id session_key : string) (channels : list string)
    (l : loc) (k : KernelInterface) (c : Client) :
  buffer_offline_messages (km w) = true →
  _kernels (km w) !! kernel_id = Some l →
  heap w !! l = Some k →
  client k = Some c →
  (∃ w' k' c',
      MKM.start_buffering kernel_id session_key channels w = (Ok [], w')
      ∧ heap w' !! l = Some k'
      ∧ buffer k' = []
      ∧ buffer_for_key k' = Some session_key
      ∧ buffer_handlers k' = new_handlers l (next_obj w)
      ∧ client k' = Some c'
      ∧ handlers c' =
          (handlers (detach (buffer_handlers k) c)
             ++ new_handlers l (next_obj w))%list
      ∧ (NoDup (handlers c) →
         ∀ p, p ∈ buffer_handlers k →
              p ∉ handlers (detach (buffer_handlers k) c)))
  ∧ (∃ w' k' c',
      KI.start_buffering l session_key w = (Ok tt, w')
      ∧ heap w' !! l = Some k'
      ∧ buffer k' = buffer k
      ∧ buffer_for_key k' = Some session_key
      ∧ client k' = Some c'
      ∧ handlers c' = (handlers c ++ new_handlers l (next_obj w))%list
      ∧ ∀ p, p ∈ new_handlers l (next_obj w) → p ∈ buffer_handlers k')
  ∧ ∀ channel h msg w1 k1,
      (channel, h) ∈ new_handlers l (next_obj w) →
      heap w1 !! l = Some k1 →
      ∃ w2 k2,
        run_handler h msg w1 = (Ok tt, w2)
        ∧ heap w2 !! l = Some k2
        ∧ buffer k2 = (buffer k1 ++ [(channel, msg)])%list.
Proof.
  intros Hon Hreg Hk Hc. split; [|split].
  - unfold MKM.start_buffering.
    rewrite sync_bind_unfold. cbn [gets]. rewrite Hon. cbn [negb].
    rewrite sync_bind_unfold. unfold emit at 1, modify at 1.
    erewrite sync_bind_ok; [|by eapply check_kernel_id_ok].
    erewrite sync_bind_ok; [|by eapply get_kernel_ok].
    erewrite sync_bind_ok;
      [|apply stop_buffering_spec; [exact Hk | intros Hn; congruence]].
    erewrite sync_bind_ok;
      [|eapply start_buffering_spec; [cbn; apply lookup_insert_eq|]].
    2:{ unfold stopped. cbn. rewrite Hc. reflexivity. }
    eexists _, _, _. split; [reflexivity|].
    split; [cbn; rewrite insert_insert_eq; apply lookup_insert_eq|].
    cbn. rewrite Hc. cbn.
    do 4 (split; [reflexivity|]). split.
    + unfold add_handler, new_handlers. cbn. by rewrite <- !app_assoc.
    + intros Hnd p Hp. by apply detach_removes.
  - rewrite (start_buffering_spec _ _ _ _ _ Hk Hc).
    eexists _, _, _. split; [reflexivity|].
    split; [cbn; apply lookup_insert_eq|].
    cbn. rewrite Hc. cbn.
    do 3 (split; [reflexivity|]). split.
    + unfold add_handler, new_handlers. cbn. by rewrite <- !app_assoc.
    + intros p Hp. unfold new_handlers in Hp.
      repeat (apply elem_of_cons in Hp as [->|Hp]);
        [| | |by apply elem_of_nil in Hp].
      * do 2 (apply dict_set_other; [done|]). apply dict_set_elem.
      * apply dict_set_other; [done|]. apply dict_set_elem.
      * apply dict_set_elem.
  - intros channel h msg w1 k1 Hin Hk1. unfold new_handlers in Hin.
    repeat (apply elem_of_cons in Hin as [[= -> ->]|Hin]);
      [| | |by apply elem_of_nil in Hin].
    all: match goal with |- context [run_handler (buffer_msg _ ?ch _)] =>
           destruct (run_buffer_msg_appends l ch msg w1 k1 Hk1)
             as (w2 & Hrun & Hk2)
         end;
      eexists _, _; (split; [exact Hrun|]); split; [exact Hk2|reflexivity].
Qed.

Lemma start_buffering_clears_only_through_the_registry_witness :
  ∃ w' k' c',
    MKM.start_buffering "X" "key2" [] buffering_kernel = (Ok [], w')
    ∧ heap w' !! 0 = Some k'
    ∧ buffer k' = []
    ∧ buffer_for_key k' = Some "key2"
    ∧ buffer_handlers k' = new_handlers 0 5
    ∧ client k' = Some c'
    ∧ handlers c' = ("iopub", record_activity 0 "X" 1) :: new_handlers 0 5.
Proof.
  destruct (start_buffering_clears_only_through_the_registry
              buffering_kernel "X" "key2" [] 0 kernel_X_buffering client_X_buffering)
    as [(w' & k' & c' & Hrun & Hk' & Hb & Hkey & Hhs & Hc' & Hattached & _) _].
  - reflexivity.
  - vm_compute. reflexivity.
  - vm_compute. reflexivity.
  - reflexivity.
  - exists w', k', c'. split; [exact Hrun|]. split; [exact Hk'|].
    split; [exact Hb|]. split; [exact Hkey|]. split; [exact Hhs|].
    split; [exact Hc'|]. rewrite Hattached. vm_compute. reflexivity.
Defined.

(** C9 as stated fails: [KernelInterface.start_buffering] called on the
    session that is already buffering for ["key"] records the new key, and
    the message buffered for ["key"] is still in the buffer and the three
    handlers of that episode are still attached, next to the three new
    ones. *)
Lemma start_buffering_alone_keeps_earlier_episode :
  (k ← heap (KI.start_buffering 0 "key2" buffering_kernel).2 !! 0;
   c ← client k;
   Some (buffer_for_key k, buffer k, handlers c))
  = Some (Some "key2",
          [("iopub", a_message)],
          [("iopub", record_activity 0 "X" 1);
           ("shell", buffer_msg 0 "shell" 2);
           ("iopub", buffer_msg 0 "iopub" 3);
           ("stdin", buffer_msg 0 "stdin" 4);
           ("shell", buffer_msg 0 "shell" 5);
           ("iopub", buffer_msg 0 "iopub" 6);
           ("stdin", buffer_msg 0 "stdin" 7)]).
Proof. vm_compute. reflexivity. Qed.

(** ** Restarting a session *)

Lemma init_spec ty w :
  KI.__init__ ty w =
    (Ok (next_obj w),
     put (next_obj w) (launched (next_obj w) ty (utcnow w))
       (set_next_obj (S (next_obj w)) w)).
Proof. reflexivity. Qed.

(** [_start_kernel] launches the replacement and suspends on its client
    becoming ready; the registry is not touched before that. *)
Lemma start_kernel_suspends kernel_id ty w :
  ∃ rest,
    MKM._start_kernel kernel_id ty w =
      Susp (wait_for_ready (next_obj w))
        (put (next_obj w)
           (set_client (Some new_client) (launched (next_obj w) ty (utcnow w)))
           (set_next_obj (S (next_obj w)) w))
        rest.
Proof.
  unfold MKM._start_kernel.
  rewrite (lift_bind_ok _ _ _ _ _ (init_spec _ _)).
  rewrite coro_bind_unfold. unfold KI.connect_client.
  erewrite lift_bind_ok; [|apply deref_ok; apply lookup_put].
  cbn [client launched].
  erewrite lift_bind_ok; [|apply update_put; apply lookup_put].
  rewrite put_put. cbn [await step_bind]. eauto.
Qed.

(** Once the replacement's client is ready, the rest of [_start_kernel]
    binds the id to the replacement.  Under [gen.with_timeout] this rest is
    what keeps running unobserved after the deadline. *)
Lemma start_kernel_resumes kernel_id ty w :
  ∃ rest,
    MKM._start_kernel kernel_id ty w =
      Susp (wait_for_ready (next_obj w))
        (put (next_obj w)
           (set_client (Some new_client) (launched (next_obj w) ty (utcnow w)))
           (set_next_obj (S (next_obj w)) w))
        rest
    ∧ ∀ w' k' c',
        heap w' !! next_obj w = Some k' →
        client k' = Some c' →
        ∃ w'',
          rest Resolved w' = Done (Ok tt) w''
          ∧ _kernels (km w'') = <[kernel_id := next_obj w]> (_kernels (km w')).
Proof.
  unfold MKM._start_kernel.
  rewrite (lift_bind_ok _ _ _ _ _ (init_spec _ _)).
  rewrite coro_bind_unfold. unfold KI.connect_client.
  erewrite lift_bind_ok; [|apply deref_ok; apply lookup_put].
  cbn [client launched].
  erewrite lift_bind_ok; [|apply update_put; apply lookup_put].
  rewrite put_put. cbn [await step_bind].
  eexists. split; [reflexivity|].
  intros w' k' c' Hk' Hc'. cbn [step_bind].
  rewrite coro_bind_unfold. unfold lift at 1, modify at 1. cbn [step_bind].
  unfold MKM.start_watching_activity.
  erewrite lift_bind_ok.
  2:{ erewrite sync_bind_ok; [|apply get_kernel_ok; cbn; apply lookup_insert_eq].
      rewrite sync_bind_unfold. unfold alloc at 1.
      erewrite sync_bind_ok; [|eapply the_client_ok; [exact Hk'|exact Hc']].
      erewrite update_put; [|exact Hk']. reflexivity. }
  rewrite coro_bind_unfold. unfold lift at 1, emit at 1, modify at 1.
  cbn [step_bind]. unfold lift.
  erewrite update_put; [|cbn; apply lookup_insert_eq].
  eexists. split; [reflexivity|]. reflexivity.
Qed.

Lemma restart_kernel_timeout_spec w kernel_id l k c :
  _kernels (km w) !! kernel_id = Some l →
  heap w !! l = Some k →
  client k = Some c →
  ∃ w',
    run (MKM.restart_kernel kernel_id w) [Resolved; TimedOut] =
      Some (Raise (TimeoutError "Timeout waiting for restart"), w')
    ∧ _kernels (km w') = _kernels (km w)
    ∧ gauge_value w' (kernel_type k) = (gauge_value w (kernel_type k) - 1)%Z
    ∧ (heap w !! next_obj w = None →
       ∃ k', heap w' !! l = Some k' ∧ torn_down k').
Proof.
  intros Hreg Hk Hc. unfold MKM.restart_kernel.
  rewrite (lift_bind_ok _ _ _ _ _ (check_kernel_id_ok _ _ _ Hreg)).
  rewrite (lift_bind_ok _ _ _ _ _ (get_kernel_ok _ _ _ Hreg)).
  rewrite coro_bind_unfold.
  destruct (shutdown_graceful_spec l w k c Hk Hc) as (rest & -> & Hrest).
  cbn [step_bind run].
  destruct (Hrest (put l (set_client (Some (request_shutdown c)) k) w) _ _
              (lookup_put _ _ _) eq_refl) as [-> _].
  cbn [step_bind].
  set (k2 := stopped _). set (w2 := set_log _ _).
  assert (heap w2 !! l = Some k2) as Hk2 by (subst w2; cbn; apply lookup_insert_eq).
  assert (kernel_type k2 = kernel_type k) as Hty by reflexivity.
  assert (next_obj w2 = next_obj w) as Hn by reflexivity.
  assert (_kernels (km w2) = _kernels (km w)) as Hregs by reflexivity.
  assert (gauge_value w2 (kernel_type k) = gauge_value w (kernel_type k)) as Hg
    by reflexivity.
  assert (torn_down k2) as Htorn by apply stopped_torn_down.
  assert (∀ l0, l0 ≠ l → heap w2 !! l0 = heap w !! l0) as Hother.
  { intros l0 Hne. subst w2. cbn. by rewrite !lookup_insert_ne. }
  clearbody k2 w2.
  rewrite coro_bind_unfold. unfold lift at 1. cbn [gets step_bind].
  rewrite (lift_bind_ok _ _ _ _ _ (deref_ok _ _ _ Hk2)).
  unfold except_TimeoutError, gen_with_timeout.
  destruct (start_kernel_suspends kernel_id (kernel_type k2) w2) as [rest' ->].
  cbn [timeout_step catch_timeout_step run].
  rewrite coro_bind_unfold. unfold lift at 1, emit at 1, modify at 1.
  cbn [step_bind].
  set (fresh := set_client (Some new_client) _).
  assert (∃ k4, heap (set_log
            (log (put (next_obj w2) fresh (set_next_obj (S (next_obj w2)) w2)) ++
             [{| level := "warning";
                 format := "Timeout waiting for kernel_info_reply: %s";
                 args := [PyStr kernel_id] |}])
            (put (next_obj w2) fresh (set_next_obj (S (next_obj w2)) w2))) !! l
          = Some k4 ∧ kernel_type k4 = kernel_type k
          ∧ (heap w !! next_obj w = None → k4 = k2)) as (k4 & Hk4 & Hty4 & Hsame).
  { cbn. destruct (decide (next_obj w2 = l)) as [Heq|Hne].
    - exists fresh. rewrite Heq, lookup_insert_eq. split; [done|]. split; [done|].
      intros Hfresh. rewrite <- Hn, Heq in Hfresh. congruence.
    - exists k2. rewrite lookup_insert_ne by done. done. }
  rewrite (lift_bind_ok _ _ _ _ _ (deref_ok _ _ _ Hk4)).
  rewrite coro_bind_unfold. unfold lift at 1, gauge_dec at 1, modify at 1.
  cbn [step_bind]. unfold lift, raise.
  eexists. split; [reflexivity|].
  split; [exact Hregs|]. split.
  - rewrite Hty4. unfold gauge_value at 1. cbn. rewrite lookup_insert_eq.
    cbn. rewrite <- Hg. reflexivity.
  - intros Hfresh. exists k2. split; [|exact Htorn].
    rewrite <- (Hsame Hfresh). exact Hk4.
Qed.

Lemma one_kernel_fresh : heap one_kernel !! next_obj one_kernel = None.
Proof. vm_compute. reflexivity. Qed.

Lemma list_kernel_ids_one w :
  _kernels (km w) = _kernels (km one_kernel) → MKM.list_kernel_ids w = ["X"].
Proof. intros H. unfold MKM.list_kernel_ids. rewrite H. vm_compute. reflexivity. Qed.

(** [list_kernels] returns one model per registered id, in the order of
    [list_kernel_ids]. *)
Lemma models_of_spec ids : ∀ w,
  registry_resolves w →
  Forall (λ kernel_id, is_Some (_kernels (km w) !! kernel_id)) ids →
  ∃ models, MKM.models_of ids w = (Ok models, w) ∧ model_id <$> models = ids.
Proof.
  induction ids as [|kernel_id ids IH]; intros w Hres Hids.
  - by exists [].
  - apply Forall_cons in Hids as [[l Hreg] Hids].
    destruct (Hres _ _ Hreg) as [k Hk].
    destruct (IH w Hres Hids) as (models & Hmodels & Hnames).
    cbn [MKM.models_of]. unfold MKM.kernel_model.
    rewrite sync_bind_unfold.
    rewrite (sync_bind_ok _ _ _ _ _ (check_kernel_id_ok _ _ _ Hreg)).
    rewrite (sync_bind_ok _ _ _ _ _ (get_kernel_ok _ _ _ Hreg)).
    rewrite (sync_bind_ok _ _ _ _ _ (deref_ok _ _ _ Hk)).
    cbn [mret sync_ret]. rewrite sync_bind_unfold, Hmodels.
    eexists. split; [reflexivity|]. cbn. by rewrite Hnames.
Qed.

Lemma list_kernels_spec w :
  registry_resolves w →
  ∃ models,
    MKM.list_kernels w = (Ok models, w)
    ∧ model_id <$> models = MKM.list_kernel_ids w.
Proof.
  intros Hres. unfold MKM.list_kernels. rewrite sync_bind_unfold. cbn [gets].
  apply models_of_spec; [exact Hres|apply list_kernel_ids_registered].
Qed.

(** C3 on the code.  The session ["X"] is restarted; its shutdown
    completes and the replacement is not ready within
    [kernel_info_timeout].  [restart_kernel] raises the [TimeoutError], and
    ["X"] is still in the registry: the membership test answers [true] and
    [list_kernel_ids] has it. *)
Theorem restart_timeout_leaves_id_registered :
  ∃ w',
    run (MKM.restart_kernel "X" one_kernel) [Resolved; TimedOut] =
      Some (Raise (TimeoutError "Timeout waiting for restart"), w')
    ∧ MKM.__contains__ w' "X" = true
    ∧ MKM.list_kernel_ids w' = ["X"].
Proof.
  destruct (restart_kernel_timeout_spec one_kernel "X" 0 kernel_X _
              one_kernel_registry one_kernel_heap eq_refl)
    as (w' & Hrun & Hregs & _).
  exists w'. split; [exact Hrun|]. split.
  - apply contains_true. rewrite Hregs, one_kernel_registry. eauto.
  - by apply list_kernel_ids_one.
Qed.

(** C5 on the code.  After the same timed-out restart the kernel object
    registered under ["X"] is the one whose shutdown completed (client
    closed, process handle cleaned up, buffering stopped), and
    [list_kernels] still returns a model for it. *)
Theorem shut_down_session_is_still_listed :
  ∃ w' k' model,
    run (MKM.restart_kernel "X" one_kernel) [Resolved; TimedOut] =
      Some (Raise (TimeoutError "Timeout waiting for restart"), w')
    ∧ _kernels (km w') !! "X" = Some 0
    ∧ heap w' !! 0 = Some k'
    ∧ torn_down k'
    ∧ MKM.list_kernels w' = (Ok [model], w')
    ∧ model_id model = "X".
Proof.
  destruct (restart_kernel_timeout_spec one_kernel "X" 0 kernel_X _
              one_kernel_registry one_kernel_heap eq_refl)
    as (w' & Hrun & Hregs & _ & Hold).
  destruct (Hold one_kernel_fresh) as (k' & Hk' & Htorn).
  assert (_kernels (km w') !! "X" = Some 0) as Hreg
    by (rewrite Hregs; apply one_kernel_registry).
  exists w', k'. eexists. split; [exact Hrun|].
  split; [exact Hreg|]. split; [exact Hk'|]. split; [exact Htorn|]. split.
  - unfold MKM.list_kernels. rewrite sync_bind_unfold. cbn [gets].
    rewrite (list_kernel_ids_one _ Hregs). cbn [MKM.models_of].
    unfold MKM.kernel_model.
    rewrite sync_bind_unfold.
    rewrite (sync_bind_ok _ _ _ _ _ (check_kernel_id_ok _ _ _ Hreg)).
    rewrite (sync_bind_ok _ _ _ _ _ (get_kernel_ok _ _ _ Hreg)).
    rewrite (sync_bind_ok _ _ _ _ _ (deref_ok _ _ _ Hk')).
    reflexivity.
  - reflexivity.
Qed.

(** ** The idle-cull scenario *)

Example idle_scenario_facts :
  (k ← heap idle_scenario !! 0;
   t ← last_activity k;
   Some (execution_state k, n_connections k, (utcnow idle_scenario - t)%Z))
  = Some ("idle", 0%Z, timedelta 120)
  ∧ cull_idle_timeout (km idle_scenario) = 60%Z
  ∧ cull_busy (km idle_scenario) = false
  ∧ cull_connected (km idle_scenario) = false
  ∧ _kernel_connections (km idle_scenario) !! "X" = None.
Proof. vm_compute. done. Qed.

(** C1 on the code.  In the idle-cull scenario all three criteria hold,
    and the tick does not shut the session down: [cull_kernel_if_idle]
    raises [AttributeError] on [kernel.kernel_name], [cull_kernels] starts
    no shutdown, and the kernel object is as it was, its client open and
    no shutdown requested. *)
Theorem idle_session_is_not_culled :
  MKM.cull_kernel_if_idle "X" idle_scenario =
    (Raise (AttributeError "kernel_name"), idle_scenario)
  ∧ (MKM.cull_kernels idle_scenario).1 = Ok []
  ∧ heap (MKM.cull_kernels idle_scenario).2 !! 0 = heap idle_scenario !! 0
  ∧ (k ← heap (MKM.cull_kernels idle_scenario).2 !! 0;
     c ← client k;
     Some (shutdown_requested c, closed c, cleaned_up (manager k)))
    = Some (false, false, false).
Proof.
  split; [|split; [|split]].
  - assert (is_Some (heap idle_scenario !! 0)) as [k Hk] by (vm_compute; eauto).
    apply (cull_kernel_if_idle_AttributeError idle_scenario "X" 0 k); [|exact Hk].
    vm_compute. reflexivity.
  - vm_compute. reflexivity.
  - vm_compute. reflexivity.
  - vm_compute. reflexivity.
Qed.

(** ** Kernels as the code builds them *)

Section maintains.

Context (I : World → Prop).

Lemma maintains_pure {A} (m : sync A) : (∀ w, (m w).2 = w) → maintains I m.
Proof. intros H w Hw. by rewrite H. Qed.

Lemma maintains_ret {A} (a : A) : maintains I (mret a).
Proof. by apply maintains_pure. Qed.

Lemma maintains_raise {A} e : maintains I (@raise A e).
Proof. by apply maintains_pure. Qed.

Lemma maintains_gets {A} (g : World → A) : maintains I (gets g).
Proof. by apply maintains_pure. Qed.

Lemma maintains_deref l : maintains I (deref l).
Proof. apply maintains_pure. intros w. unfold deref. by destruct (_ !! _). Qed.

Lemma maintains_get_kernel kernel_id : maintains I (MKM.get_kernel kernel_id).
Proof.
  apply maintains_pure. intros w. unfold MKM.get_kernel. by destruct (_ !! _).
Qed.

Lemma maintains_check_kernel_id kernel_id :
  maintains I (MKM._check_kernel_id kernel_id).
Proof.
  apply maintains_pure. intros w. unfold MKM._check_kernel_id.
  by destruct (negb _).
Qed.

Lemma maintains_modify g : (∀ w, I w → I (g w)) → maintains I (modify g).
Proof. intros H w. apply H. Qed.

Lemma maintains_bind {A B} (m : sync A) (k : A → sync B) :
  maintains I m → (∀ a, maintains I (k a)) → maintains I (m ≫= k).
Proof.
  intros Hm Hk w Hw. rewrite sync_bind_unfold.
  specialize (Hm w Hw). destruct (m w) as [[a|e] w']; simpl in *.
  - by apply Hk.
  - done.
Qed.

Lemma maintains_the_client l method : maintains I (the_client l method).
Proof.
  apply maintains_bind; [apply maintains_deref|].
  intros k. destruct (client k); [apply maintains_ret | apply maintains_raise].
Qed.

Lemma maintains_try_except {A} (m : sync A) h :
  maintains I m → (∀ e, maintains I (h e)) → maintains I (try_except m h).
Proof.
  intros Hm Hh w Hw. unfold try_except.
  specialize (Hm w Hw). destruct (m w) as [[a|e] w']; simpl in *.
  - done.
  - by apply Hh.
Qed.

Lemma maintains_when b m : maintains I m → maintains I (when b m).
Proof. destruct b; [done | intros _; apply maintains_ret]. Qed.

Lemma maintains_for_each {A} (l : list A) body :
  (∀ x, maintains I (body x)) → maintains I (for_each l body).
Proof.
  intros H. induction l as [|x l IH]; simpl.
  - apply maintains_ret.
  - apply maintains_bind; [apply H | intros _; apply IH].
Qed.

Lemma step_maintains_world {A} (s : step A) :
  step_maintains I s → I (step_world s).
Proof. by intros []. Qed.

Lemma step_maintains_bind {A B} (s : step A) (k : A → coro B) :
  step_maintains I s → (∀ a, coro_maintains I (k a)) →
  step_maintains I (step_bind s k).
Proof.
  intros Hs Hk. induction Hs as [[a|e] w Hw|a w k' Hw _ IH]; simpl.
  - by apply Hk.
  - by constructor.
  - constructor; [done|]. intros r w' Hw'. by apply IH.
Qed.

Lemma coro_maintains_ret {A} (a : A) : coro_maintains I (mret a).
Proof. intros w Hw. by constructor. Qed.

Lemma coro_maintains_bind {A B} (m : coro A) (k : A → coro B) :
  coro_maintains I m → (∀ a, coro_maintains I (k a)) →
  coro_maintains I (m ≫= k).
Proof. intros Hm Hk w Hw. apply step_maintains_bind; [by apply Hm | apply Hk]. Qed.

Lemma coro_maintains_lift {A} (m : sync A) :
  maintains I m → coro_maintains I (lift m).
Proof.
  intros Hm w Hw. unfold lift. specialize (Hm w Hw).
  destruct (m w) as [r w']. by constructor.
Qed.

Lemma coro_maintains_await a : coro_maintains I (await a).
Proof.
  intros w Hw. constructor; [done|]. intros [|e|] w' Hw'; by constructor.
Qed.

Lemma step_maintains_timeout {A} seconds (s : step A) :
  step_maintains I s → step_maintains I (timeout_step seconds s).
Proof.
  induction 1 as [r w Hw|a w k Hw _ IH]; simpl.
  - by constructor.
  - constructor; [done|]. intros [|e|] w' Hw'; [by apply IH..|by constructor].
Qed.

Lemma step_maintains_catch_timeout {A} (s : step A) (h : coro A) :
  step_maintains I s → coro_maintains I h →
  step_maintains I (catch_timeout_step s h).
Proof.
  intros Hs Hh. induction Hs as [r w Hw|a w k Hw _ IH]; simpl.
  - destruct r as [a|[]]; try by constructor. by apply Hh.
  - constructor; [done|]. intros r w' Hw'. by apply IH.
Qed.

Lemma maintains_spawn (m : coro unit) :
  coro_maintains I m → maintains I (spawn m).
Proof.
  intros Hm w Hw. specialize (Hm w Hw). unfold spawn.
  destruct Hm; done.
Qed.

End maintains.

Lemma kernel_ok_mono (n n' : nat) k :
  (n ≤ n')%nat → kernel_ok n k → kernel_ok n' k.
Proof.
  intros Hle. unfold kernel_ok. destruct (client k) as [c|]; [|done].
  intros [Hnd Hall]. split; [done|].
  eapply Forall_impl; [exact Hall|]. intros p Hp. simpl in *. lia.
Qed.

Lemma world_ok_alloc w : world_ok w → world_ok (set_next_obj (S (next_obj w)) w).
Proof.
  intros Hw l k Hk. apply (kernel_ok_mono (next_obj w)); [cbn; lia|].
  by apply (Hw l).
Qed.

Lemma world_ok_put l k w :
  world_ok w → kernel_ok (next_obj w) k → world_ok (put l k w).
Proof.
  intros Hw Hk l0 k0. unfold put. cbn.
  destruct (decide (l0 = l)) as [->|Hne].
  - rewrite lookup_insert_eq. by intros [= <-].
  - rewrite lookup_insert_ne by done. apply Hw.
Qed.

Lemma maintains_update l f :
  (∀ n k, kernel_ok n k → kernel_ok n (f k)) →
  maintains world_ok (update l f).
Proof.
  intros Hf w Hw. unfold update. rewrite sync_bind_unfold. unfold deref.
  destruct (heap w !! l) as [k|] eqn:Hk; [|done].
  apply world_ok_put; [done|]. apply Hf. by apply (Hw l).
Qed.

Lemma maintains_emit lvl fmt a : maintains world_ok (emit lvl fmt a).
Proof. apply maintains_modify. intros w Hw. exact Hw. Qed.

Lemma maintains_alloc : maintains world_ok alloc.
Proof. intros w Hw. by apply world_ok_alloc. Qed.

Lemma maintains_gauge_inc ty : maintains world_ok (gauge_inc ty).
Proof. apply maintains_modify. intros w Hw. exact Hw. Qed.

Lemma maintains_gauge_dec ty : maintains world_ok (gauge_dec ty).
Proof. apply maintains_modify. intros w Hw. exact Hw. Qed.

Lemma maintains_set_km g : maintains world_ok (modify (λ w, set_km (g w) w)).
Proof. apply maintains_modify. intros w Hw. exact Hw. Qed.

(** Replacing the client by one that holds the same handlers. *)
Lemma kernel_ok_same_handlers n k c c' :
  client k = Some c → handlers c' = handlers c →
  kernel_ok n k → kernel_ok n (set_client (Some c') k).
Proof.
  intros Hc Hh. unfold kernel_ok. rewrite Hc. cbn. by rewrite Hh.
Qed.

Lemma kernel_ok_remove n k c channel h c' :
  client k = Some c → remove_handler channel h c = Ok c' →
  kernel_ok n k → kernel_ok n (set_client (Some c') k).
Proof.
  intros Hc. unfold remove_handler.
  destruct (remove_first (channel, h) (handlers c)) as [r|] eqn:Hr; [|done].
  intros [= <-]. unfold kernel_ok. rewrite Hc. cbn. intros [Hnd Hall].
  destruct (remove_first_Some _ _ _ Hr) as [Hsub Hnd'].
  split; [by apply Hnd'|].
  apply Forall_forall. intros p Hp. rewrite Forall_forall in Hall.
  apply Hall. by apply Hsub.
Qed.

Lemma kernel_ok_add n k c channel h :
  client k = Some c → handler_uid h = n →
  kernel_ok n k → kernel_ok (S n) (set_client (Some (add_handler channel h c)) k).
Proof.
  intros Hc Huid. unfold kernel_ok. rewrite Hc. cbn. intros [Hnd Hall].
  split.
  - apply NoDup_app. split; [done|]. split; [|apply NoDup_singleton].
    intros p Hp Hin. apply list_elem_of_singleton in Hin as ->.
    rewrite Forall_forall in Hall. specialize (Hall _ Hp). simpl in Hall. lia.
  - apply Forall_app. split.
    + eapply Forall_impl; [exact Hall|]. intros p Hp. simpl in *. lia.
    + apply Forall_singleton. simpl. lia.
Qed.

Ltac kernel_ok_field :=
  let n := fresh "n" in let k := fresh "k" in
  intros n k; unfold kernel_ok; cbn; try done;
  destruct (client k); done.

(** Methods already shown to maintain [world_ok]. *)
Create HintDb maintains discriminated.

Ltac maintains_step :=
  first
    [ solve [auto 1 with maintains nocore]
    | apply maintains_ret | apply maintains_raise | apply maintains_gets
    | apply maintains_deref | apply maintains_the_client
    | apply maintains_get_kernel | apply maintains_check_kernel_id
    | apply maintains_emit | apply maintains_alloc
    | apply maintains_gauge_inc | apply maintains_gauge_dec
    | apply maintains_set_km
    | apply maintains_update; kernel_ok_field
    | apply maintains_when
    | apply maintains_for_each; intros ?
    | apply maintains_bind; [|intros ?]
    | match goal with
      | |- maintains _ (let '(_, _) := ?x in _) => destruct x
      | |- maintains _ (match ?x with _ => _ end) => destruct x
      | |- maintains _ (if ?x then _ else _) => destruct x
      end ].

(** The step of the loop of [stop_buffering]. *)
Lemma maintains_remove_step self channel h :
  maintains world_ok
    (c ← the_client self "remove_handler";
     match remove_handler channel h c with
     | Ok c' => update self (set_client (Some c'))
     | Raise ValueError => mret tt
     | Raise e => raise e
     end).
Proof.
  intros w Hw. rewrite sync_bind_unfold. unfold the_client.
  rewrite sync_bind_unfold. unfold deref.
  destruct (heap w !! self) as [k|] eqn:Hk; [|done].
  destruct (client k) as [c|] eqn:Hc; [|done]. cbn [mret sync_ret].
  destruct (remove_handler channel h c) as [c'|e] eqn:Hrm.
  - rewrite (update_put _ _ _ _ Hk). apply world_ok_put; [done|].
    eapply kernel_ok_remove; [exact Hc|exact Hrm|]. by apply (Hw self).
  - by destruct e.
Qed.

Lemma stop_buffering_maintains self : maintains world_ok (KI.stop_buffering self).
Proof.
  unfold KI.stop_buffering.
  apply maintains_bind; [apply maintains_deref|]. intros k.
  apply maintains_bind.
  { apply maintains_for_each. intros [channel h]. apply maintains_remove_step. }
  intros _. repeat maintains_step.
Qed.

#[global] Hint Resolve stop_buffering_maintains : maintains.

Lemma get_buffer_maintains self : maintains world_ok (KI.get_buffer self).
Proof. unfold KI.get_buffer. repeat maintains_step. Qed.

(** Attaching a newly made handler. *)
Lemma attach_world_ok w self k c channel h :
  world_ok w →
  heap w !! self = Some k →
  client k = Some c →
  handler_uid h = next_obj w →
  world_ok (put self (set_client (Some (add_handler channel h c)) k)
              (set_next_obj (S (next_obj w)) w)).
Proof.
  intros Hw Hk Hc Huid l0 k0. unfold put. cbn.
  destruct (decide (l0 = self)) as [->|Hne].
  - rewrite lookup_insert_eq. intros [= <-].
    apply kernel_ok_add; [done|done|]. by apply (Hw self).
  - rewrite lookup_insert_ne by done. intros Hk0.
    apply (kernel_ok_mono (next_obj w)); [lia|]. by apply (Hw l0).
Qed.

Lemma start_buffering_maintains self session_key :
  maintains world_ok (KI.start_buffering self session_key).
Proof.
  unfold KI.start_buffering.
  apply maintains_bind; [repeat maintains_step|]. intros _.
  apply maintains_for_each. intros channel w Hw.
  rewrite sync_bind_unfold. unfold alloc at 1. cbn zeta.
  rewrite sync_bind_unfold. unfold the_client.
  rewrite sync_bind_unfold. unfold deref. cbn [heap set_next_obj].
  destruct (heap w !! self) as [k|] eqn:Hk; [|by apply world_ok_alloc].
  destruct (client k) as [c|] eqn:Hc; [|by apply world_ok_alloc].
  cbn [mret sync_ret]. rewrite sync_bind_unfold.
  erewrite update_put; [|exact Hk].
  erewrite update_put; [|apply lookup_put]. rewrite put_put.
  pose proof (attach_world_ok w self k c channel
                (buffer_msg self channel (next_obj w)) Hw Hk Hc eq_refl) as Hok.
  intros l0 k0. specialize (Hok l0). revert Hok. unfold put. cbn.
  destruct (decide (l0 = self)) as [->|Hne].
  - rewrite !lookup_insert_eq. intros Hok [= <-].
    specialize (Hok _ eq_refl). revert Hok. unfold kernel_ok. by cbn.
  - rewrite !lookup_insert_ne by done. intros Hok Hk0. by apply Hok.
Qed.

#[global] Hint Resolve get_buffer_maintains start_buffering_maintains : maintains.

Lemma interrupt_maintains self : maintains world_ok (KI.interrupt self).
Proof. unfold KI.interrupt. repeat maintains_step. Qed.

Lemma run_buffer_msg_maintains self channel msg :
  maintains world_ok (KI.run_buffer_msg self channel msg).
Proof. unfold KI.run_buffer_msg. repeat maintains_step. Qed.

Lemma init_maintains ty : maintains world_ok (KI.__init__ ty).
Proof.
  intros w Hw. rewrite init_spec. cbn [snd].
  apply world_ok_put; [by apply world_ok_alloc|]. reflexivity.
Qed.

#[global] Hint Resolve interrupt_maintains run_buffer_msg_maintains
  init_maintains : maintains.

(** [self.client.<method>()] for a method that leaves the handlers alone,
    followed by the rest of a coroutine. *)
Lemma coro_maintains_client_call {A} self method (g : Client → Client)
    (rest : coro A) :
  (∀ c, handlers (g c) = handlers c) →
  coro_maintains world_ok rest →
  coro_maintains world_ok
    (c ← lift (the_client self method);
     lift (update self (set_client (Some (g c))));;
     rest).
Proof.
  intros Hg Hrest w Hw. rewrite coro_bind_unfold. unfold lift at 1, the_client.
  rewrite sync_bind_unfold. unfold deref.
  destruct (heap w !! self) as [k|] eqn:Hk; [|by constructor].
  destruct (client k) as [c|] eqn:Hc; [|by constructor].
  cbn [mret sync_ret step_bind].
  rewrite (lift_bind_ok _ _ _ _ _ (update_put _ _ _ _ Hk)).
  apply Hrest. apply world_ok_put; [done|].
  eapply kernel_ok_same_handlers; [exact Hc|apply Hg|]. by apply (Hw self).
Qed.

Ltac coro_maintains_step :=
  first
    [ apply coro_maintains_ret | apply coro_maintains_await
    | apply coro_maintains_lift; solve [repeat maintains_step]
    | apply coro_maintains_client_call; [done|]
    | apply coro_maintains_bind; [|intros ?]
    | match goal with
      | |- coro_maintains _ (match ?x with _ => _ end) => destruct x
      | |- coro_maintains _ (if ?x then _ else _) => destruct x
      end ].

Lemma connect_client_maintains self :
  coro_maintains world_ok (KI.connect_client self).
Proof.
  unfold KI.connect_client.
  apply coro_maintains_bind; [coro_maintains_step|]. intros k.
  destruct (client k); [coro_maintains_step|].
  apply coro_maintains_bind; [|intros ?; coro_maintains_step].
  apply coro_maintains_lift. apply maintains_update.
  intros n k0 _. unfold kernel_ok. cbn. split; constructor.
Qed.

Lemma shutdown_maintains self now : coro_maintains world_ok (KI.shutdown self now).
Proof.
  unfold KI.shutdown.
  assert (coro_maintains world_ok
            (c ← lift (the_client self "close");
             lift (update self (set_client (Some (close c))));;
             lift (update self (λ k, set_manager (cleanup (manager k)) k));;
             lift (KI.stop_buffering self))) as Htail.
  { repeat coro_maintains_step. }
  apply coro_maintains_bind; [|intros ?; exact Htail].
  destruct now.
  - repeat coro_maintains_step.
  - apply (coro_maintains_client_call self "shutdown_or_terminate"
             request_shutdown (await (shutdown_or_terminate self))); [done|].
    apply coro_maintains_await.
Qed.

#[global] Hint Resolve maintains_remove_step : maintains.

Lemma maintains_client_call {A} self method (g : Client → Client)
    (rest : sync A) :
  (∀ c, handlers (g c) = handlers c) →
  maintains world_ok rest →
  maintains world_ok
    (c ← the_client self method;
     update self (set_client (Some (g c)));;
     rest).
Proof.
  intros Hg Hrest w Hw. rewrite sync_bind_unfold. unfold the_client.
  rewrite sync_bind_unfold. unfold deref.
  destruct (heap w !! self) as [k|] eqn:Hk; [|done].
  destruct (client k) as [c|] eqn:Hc; [|done].
  cbn [mret sync_ret].
  rewrite (sync_bind_ok _ _ _ _ _ (update_put _ _ _ _ Hk)).
  apply Hrest. apply world_ok_put; [done|].
  eapply kernel_ok_same_handlers; [exact Hc|apply Hg|]. by apply (Hw self).
Qed.

Lemma pop_kernel_maintains kernel_id : maintains world_ok (MKM.pop_kernel kernel_id).
Proof. unfold MKM.pop_kernel. repeat maintains_step. Qed.

#[global] Hint Resolve pop_kernel_maintains : maintains.

Lemma handle_kernel_died_maintains kernel_id :
  maintains world_ok (MKM._handle_kernel_died kernel_id).
Proof.
  unfold MKM._handle_kernel_died.
  apply maintains_bind; [repeat maintains_step|]. intros _.
  apply maintains_bind; [repeat maintains_step|]. intros kernel.
  apply maintains_client_call; [done|]. repeat maintains_step.
Qed.

Lemma run_record_activity_maintains kernel kernel_id msg :
  maintains world_ok (MKM.run_record_activity kernel kernel_id msg).
Proof. unfold MKM.run_record_activity. repeat maintains_step. Qed.

Lemma start_watching_activity_maintains kernel_id :
  maintains world_ok (MKM.start_watching_activity kernel_id).
Proof.
  unfold MKM.start_watching_activity.
  apply maintains_bind; [repeat maintains_step|]. intros kernel w Hw.
  rewrite sync_bind_unfold. unfold alloc at 1.
  rewrite sync_bind_unfold. unfold the_client.
  rewrite sync_bind_unfold. unfold deref. cbn [heap set_next_obj].
  destruct (heap w !! kernel) as [k|] eqn:Hk; [|by apply world_ok_alloc].
  destruct (client k) as [c|] eqn:Hc; [|by apply world_ok_alloc].
  cbn [mret sync_ret].
  erewrite update_put; [|exact Hk].
  by apply attach_world_ok.
Qed.

Lemma initialize_culler_maintains : maintains world_ok MKM.initialize_culler.
Proof. unfold MKM.initialize_culler. repeat maintains_step. Qed.

Lemma notify_connect_maintains kernel_id :
  maintains world_ok (MKM.notify_connect kernel_id).
Proof. unfold MKM.notify_connect. repeat maintains_step. Qed.

Lemma notify_disconnect_maintains kernel_id :
  maintains world_ok (MKM.notify_disconnect kernel_id).
Proof. unfold MKM.notify_disconnect. repeat maintains_step. Qed.

Lemma manager_start_buffering_maintains kernel_id session_key channels :
  maintains world_ok (MKM.start_buffering kernel_id session_key channels).
Proof. unfold MKM.start_buffering. repeat maintains_step. Qed.

#[global] Hint Resolve handle_kernel_died_maintains
  run_record_activity_maintains start_watching_activity_maintains
  initialize_culler_maintains notify_connect_maintains
  notify_disconnect_maintains manager_start_buffering_maintains : maintains.

Lemma start_kernel_inner_maintains kernel_id ty :
  coro_maintains world_ok (MKM._start_kernel kernel_id ty).
Proof.
  unfold MKM._start_kernel.
  apply coro_maintains_bind; [coro_maintains_step|]. intros kernel.
  apply coro_maintains_bind; [apply connect_client_maintains|]. intros _.
  repeat coro_maintains_step.
Qed.

Lemma start_kernel_maintains kernel_id kernel_name uuid4 :
  coro_maintains world_ok (MKM.start_kernel kernel_id kernel_name uuid4).
Proof.
  unfold MKM.start_kernel.
  apply coro_maintains_bind; [|intros ?; repeat coro_maintains_step].
  destruct kernel_id as [kernel_id|].
  - repeat coro_maintains_step.
  - apply coro_maintains_bind; [apply start_kernel_inner_maintains|]. intros _.
    repeat coro_maintains_step.
Qed.

Lemma shutdown_kernel_maintains kernel_id now :
  coro_maintains world_ok (MKM.shutdown_kernel kernel_id now).
Proof.
  unfold MKM.shutdown_kernel.
  do 3 (apply coro_maintains_bind; [coro_maintains_step|]; intros ?).
  apply coro_maintains_bind; [apply shutdown_maintains|]. intros _.
  repeat coro_maintains_step.
Qed.

Lemma restart_kernel_maintains kernel_id :
  coro_maintains world_ok (MKM.restart_kernel kernel_id).
Proof.
  unfold MKM.restart_kernel.
  do 2 (apply coro_maintains_bind; [coro_maintains_step|]; intros ?).
  apply coro_maintains_bind; [apply shutdown_maintains|]. intros _.
  do 2 (apply coro_maintains_bind; [coro_maintains_step|]; intros ?).
  intros w Hw. unfold except_TimeoutError, gen_with_timeout.
  apply step_maintains_catch_timeout.
  - apply step_maintains_timeout. by apply start_kernel_inner_maintains.
  - repeat coro_maintains_step.
Qed.

Lemma cull_kernel_if_idle_maintains kernel_id :
  maintains world_ok (MKM.cull_kernel_if_idle kernel_id).
Proof.
  unfold MKM.cull_kernel_if_idle.
  do 2 (apply maintains_bind; [maintains_step|]; intros ?).
  apply maintains_bind; [by apply maintains_pure|]. intros ?.
  apply maintains_bind; [maintains_step|]. intros _.
  destruct (last_activity _); [|maintains_step].
  do 2 (apply maintains_bind; [maintains_step|]; intros ?).
  destruct (_ && _); [|maintains_step].
  apply maintains_bind; [maintains_step|]. intros _.
  apply maintains_spawn. apply shutdown_maintains.
Qed.

Lemma cull_kernels_maintains : maintains world_ok MKM.cull_kernels.
Proof.
  unfold MKM.cull_kernels.
  do 3 (apply maintains_bind; [maintains_step|]; intros ?).
  match goal with |- maintains _ (MKM.cull_each ?ids) =>
    induction ids as [|kernel_id ids IH] end; cbn [MKM.cull_each].
  - maintains_step.
  - apply maintains_bind.
    + apply maintains_try_except; [apply cull_kernel_if_idle_maintains|].
      intros e. repeat maintains_step.
    + intros t. apply maintains_bind; [exact IH|]. intros ts. maintains_step.
Qed.

Lemma fresh_world_ok : world_ok fresh_world.
Proof. intros l k Hk. cbn in Hk. by rewrite lookup_empty in Hk. Qed.

(** In every such world a kernel meets the premise of C8. *)
Lemma world_ok_attached_once w l k :
  world_ok w → heap w !! l = Some k → attached_once k.
Proof.
  intros Hw Hk. specialize (Hw l k Hk). unfold kernel_ok in Hw.
  unfold attached_once. destruct (client k); [by destruct Hw | done].
Qed.

(** ** Buffering handlers stay recorded under the registry's discipline *)

Lemma launched_recorded n ty now : buffering_recorded (launched n ty now).
Proof. intros c p Hc. discriminate Hc. Qed.

Lemma watching_recorded k c kernel kernel_id uid :
  client k = Some c →
  buffering_recorded k →
  buffering_recorded
    (set_client (Some (add_handler "iopub" (record_activity kernel kernel_id uid) c)) k).
Proof.
  intros Hc Hrec c' p [= <-]. cbn.
  intros [Hp| ->%list_elem_of_singleton]%elem_of_app Hb; [|done].
  by apply (Hrec c p).
Qed.

Lemma stopped_recorded k :
  attached_once k → buffering_recorded k → buffering_recorded (stopped k).
Proof.
  intros Honce Hrec c' p Hc' Hp Hb. exfalso.
  unfold stopped in Hc'. cbn in Hc'. unfold attached_once in Honce.
  destruct (client k) as [c|] eqn:Hc; [|done]. cbn in Hc'. injection Hc' as <-.
  apply (detach_removes (buffer_handlers k) c p); [done| |done].
  apply (Hrec c p Hc); [|done]. by eapply detach_subseteq.
Qed.

(** After the registry's [start_buffering] the client's buffering handlers
    are exactly the three recorded ones. *)
Lemma restarted_buffering_recorded self session_key n k :
  attached_once k → buffering_recorded k → is_Some (client k) →
  buffering_recorded
    (attached self ["shell"; "iopub"; "stdin"] n
       (set_buffer_for_key (Some session_key) (stopped k))).
Proof.
  intros Honce Hrec [c Hc] c' p. cbn. rewrite Hc. cbn. intros [= <-]. cbn.
  rewrite <- !app_assoc. cbn.
  intros [Hp|Hp]%elem_of_app Hb.
  - exfalso. apply (detach_removes (buffer_handlers k) c p); [|by apply (Hrec c p Hc);
      [eapply detach_subseteq|]|done].
    unfold attached_once in Honce. by rewrite Hc in Honce.
  - exact Hp.
Qed.

(** * Further properties *)

(** ** The culler's initialisation *)

Lemma initialize_culler_keeps_sessions : keeps sessions MKM.initialize_culler.
Proof. unfold MKM.initialize_culler. repeat keeps_step. Qed.

Lemma set_initialized_again w :
  _initialized_culler (km w) = true →
  set_km (set__initialized_culler true (km w)) w = w.
Proof. destruct w as [[] ? ? ? ? ?]. cbn. by intros ->. Qed.

Lemma initialize_culler_spec (w : World) :
  ∃ w',
    MKM.initialize_culler w = (Ok tt, w')
    ∧ _initialized_culler (km w') = true
    ∧ sessions w' = sessions w
    ∧ (_initialized_culler (km w) = true → w' = w)
    ∧ ((cull_idle_timeout (km w) ≤ 0)%Z →
       _culler_callback (km w') = _culler_callback (km w)
       ∧ cull_interval (km w') = cull_interval (km w)
       ∧ log w' = log w)
    ∧ (_initialized_culler (km w) = false →
       (0 < cull_idle_timeout (km w))%Z →
       _culler_callback (km w) = None →
       _culler_callback (km w') = Some (1000 * effective_cull_interval (km w))%Z
       ∧ cull_interval (km w') = effective_cull_interval (km w)
       ∧ (0 < 1000 * effective_cull_interval (km w))%Z).
Proof.
  pose proof (initialize_culler_keeps_sessions w) as Hkeep. revert Hkeep.
  unfold MKM.initialize_culler, effective_cull_interval, cull_interval_default,
    when, emit, modify, gets, mbind, sync_bind, mret, sync_ret.
  destruct (_initialized_culler (km w)) eqn:Hinit; cbn [negb andb].
  - intros Hkeep. eexists. split; [reflexivity|].
    split; [reflexivity|]. split; [exact Hkeep|].
    split; [intros _; by apply set_initialized_again|]. done.
  - destruct (bool_decide (cull_idle_timeout (km w) > 0)%Z) eqn:Hpos.
    + apply bool_decide_eq_true in Hpos.
      destruct (_culler_callback (km w)) as [cb|] eqn:Hcb.
      * rewrite bool_decide_eq_false_2 by done.
        intros Hkeep. eexists. split; [reflexivity|].
        split; [reflexivity|]. split; [exact Hkeep|].
        split; [done|]. split; [intros ?; lia|]. done.
      * rewrite bool_decide_eq_true_2 by done.
        destruct (bool_decide (cull_interval (km w) ≤ 0)%Z) eqn:Hint; cbn;
          destruct (cull_busy (km w)), (cull_connected (km w));
          cbn; intros Hkeep; (eexists; split; [reflexivity|]);
          (split; [reflexivity|]); (split; [exact Hkeep|]);
          (split; [done|]); (split; [intros ?; lia|]);
          intros _ _ _; cbn;
          try apply bool_decide_eq_false in Hint; repeat split; lia.
    + apply bool_decide_eq_false in Hpos.
      intros Hkeep. eexists. split; [reflexivity|].
      split; [reflexivity|]. split; [exact Hkeep|].
      split; [done|]. split; [done|]. intros _ ?. lia.
Qed.



(** ** Starting a session *)

Lemma lazy_culler_init_spec w :
  ∃ w',
    when (negb (_initialized_culler (km w))) MKM.initialize_culler w = (Ok tt, w')
    ∧ _initialized_culler (km w') = true
    ∧ sessions w' = sessions w.
Proof.
  destruct (_initialized_culler (km w)) eqn:Hinit; cbn [negb when].
  - exists w. done.
  - destruct (initialize_culler_spec w) as (w' & Hrun & Hflag & Hkeep & _).
    exists w'. done.
Qed.



Lemma start_kernel_inner_spec kernel_id ty w :
  ∃ rest,
    MKM._start_kernel kernel_id ty w =
      Susp (wait_for_ready (next_obj w))
        (put (next_obj w)
           (set_client (Some new_client) (launched (next_obj w) ty (utcnow w)))
           (set_next_obj (S (next_obj w)) w))
        rest
    ∧ (∀ e w', rest (Rejected e) w' = Done (Raise e) w')
    ∧ ∀ w' k' c',
        heap w' !! next_obj w = Some k' →
        client k' = Some c' →
        ∃ w'',
          rest Resolved w' = Done (Ok tt) w''
          ∧ sessions w'' =
              (<[next_obj w := watched (next_obj w) kernel_id (next_obj w') k' c']>
                 (heap w'),
               <[kernel_id := next_obj w]> (_kernels (km w')),
               KERNEL_CURRENTLY_RUNNING_TOTAL w',
               S (next_obj w'))
          ∧ _initialized_culler (km w'') = _initialized_culler (km w').
Proof.
  unfold MKM._start_kernel.
  rewrite (lift_bind_ok _ _ _ _ _ (init_spec _ _)).
  rewrite coro_bind_unfold. unfold KI.connect_client.
  erewrite lift_bind_ok; [|apply deref_ok; apply lookup_put].
  cbn [client launched].
  erewrite lift_bind_ok; [|apply update_put; apply lookup_put].
  rewrite put_put. cbn [await step_bind].
  eexists. split; [reflexivity|]. split; [reflexivity|].
  intros w' k' c' Hk' Hc'. cbn [step_bind].
  rewrite coro_bind_unfold. unfold lift at 1, modify at 1. cbn [step_bind].
  unfold MKM.start_watching_activity.
  erewrite lift_bind_ok.
  2:{ erewrite sync_bind_ok; [|apply get_kernel_ok; cbn; apply lookup_insert_eq].
      rewrite sync_bind_unfold. unfold alloc at 1.
      erewrite sync_bind_ok; [|eapply the_client_ok; [exact Hk'|exact Hc']].
      erewrite update_put; [|exact Hk']. reflexivity. }
  rewrite coro_bind_unfold. unfold lift at 1, emit at 1, modify at 1.
  cbn [step_bind]. unfold lift.
  erewrite update_put; [|cbn; apply lookup_insert_eq].
  eexists. split; [reflexivity|]. split; [|reflexivity].
  unfold sessions, put, watched. cbn. by rewrite insert_insert_eq.
Qed.

Lemma start_kernel_new_spec kernel_name uuid4 w :
  ∃ rest,
    MKM.start_kernel None kernel_name uuid4 w =
      Susp (wait_for_ready (next_obj w))
        (put (next_obj w)
           (set_client (Some new_client)
              (launched (next_obj w) (requested_type kernel_name) (utcnow w)))
           (set_next_obj (S (next_obj w)) w))
        rest
    ∧ (∀ e w', rest (Rejected e) w' = Done (Raise e) w')
    ∧ ∀ w' k' c',
        heap w' !! next_obj w = Some k' →
        client k' = Some c' →
        ∃ w'',
          rest Resolved w' = Done (Ok uuid4) w''
          ∧ sessions w'' =
              (<[next_obj w := watched (next_obj w) uuid4 (next_obj w') k' c']>
                 (heap w'),
               <[uuid4 := next_obj w]> (_kernels (km w')),
               <[kernel_type k' := (gauge_value w' (kernel_type k') + 1)%Z]>
                 (KERNEL_CURRENTLY_RUNNING_TOTAL w'),
               S (next_obj w'))
          ∧ _initialized_culler (km w'') = true.
Proof.
  unfold MKM.start_kernel. rewrite coro_bind_unfold, coro_bind_unfold.
  fold (requested_type kernel_name).
  destruct (start_kernel_inner_spec uuid4 (requested_type kernel_name) w)
    as (rest & -> & Hfail & Hready).
  cbn [step_bind]. eexists. split; [reflexivity|]. split.
  - intros e w'. cbn beta. by rewrite Hfail.
  - intros w' k' c' Hk' Hc'. cbn beta.
    destruct (Hready w' k' c' Hk' Hc') as (w1 & -> & Hses & Hinit).
    cbn [step_bind].
    injection Hses as Hheap Hreg Hgauge Hnext.
    erewrite lift_bind_ok; [|apply get_kernel_ok; rewrite Hreg; apply lookup_insert_eq].
    erewrite lift_bind_ok; [|apply deref_ok; rewrite Hheap; apply lookup_insert_eq].
    rewrite coro_bind_unfold. unfold lift at 1, gauge_inc at 1, modify at 1.
    cbn [step_bind mret coro_ret].
    rewrite coro_bind_unfold. unfold lift at 1. cbn [gets step_bind].
    rewrite coro_bind_unfold. unfold lift.
    match goal with |- context [when (negb _) _ ?w0] =>
      destruct (lazy_culler_init_spec w0) as (w2 & Hrun & Hflag & Hkeep) end.
    rewrite Hrun. cbn [step_bind mret coro_ret].
    exists w2. split; [reflexivity|]. split; [|exact Hflag].
    rewrite Hkeep. unfold sessions, gauge_value. cbn.
    by rewrite Hheap, Hreg, Hgauge, Hnext.
Qed.

(** X3.  [start_kernel] without an id launches a kernel of the requested
    type (the default type when no name is given, the name itself when it
    has a slash, ["spec/"] and the name otherwise) and suspends until its
    client is ready; up to then the registry is as before.  Once the client
    is ready it returns the drawn id, bound in the registry to the new
    kernel object, whose connection count is 0 and execution state
    ["starting"], with the activity watcher as the only handler on iopub
    and the death handler registered for this id; the gauge of the kernel's
    type is one higher and the culler is initialised. *)
Theorem start_kernel_registers_new_session
    (w : World) (kernel_name : option string) (uuid4 : string) :
  ∃ w1 rest w',
    MKM.start_kernel None kernel_name uuid4 w =
      Susp (wait_for_ready (next_obj w)) w1 rest
    ∧ _kernels (km w1) = _kernels (km w)
    ∧ run (MKM.start_kernel None kernel_name uuid4 w) [Resolved] = Some (Ok uuid4, w')
    ∧ _kernels (km w') = <[uuid4 := next_obj w]> (_kernels (km w))
    ∧ heap w' !! next_obj w =
        Some (watched (next_obj w) uuid4 (S (next_obj w))
                (launched (next_obj w) (requested_type kernel_name) (utcnow w))
                new_client)
    ∧ gauge_value w' (requested_type kernel_name)
      = (gauge_value w (requested_type kernel_name) + 1)%Z
    ∧ MKM.__contains__ w' uuid4 = true
    ∧ _initialized_culler (km w') = true.
Proof.
  destruct (start_kernel_new_spec kernel_name uuid4 w) as (rest & Hsusp & _ & Hready).
  destruct (Hready
              (put (next_obj w)
                 (set_client (Some new_client)
                    (launched (next_obj w) (requested_type kernel_name) (utcnow w)))
                 (set_next_obj (S (next_obj w)) w))
              (set_client (Some new_client)
                 (launched (next_obj w) (requested_type kernel_name) (utcnow w)))
              new_client (lookup_put _ _ _) eq_refl)
    as (w' & Hdone & Hses & Hflag).
  injection Hses as Hheap Hreg Hgauge Hnext.
  eexists _, rest, w'. split; [exact Hsusp|]. split; [reflexivity|].
  split; [by rewrite Hsusp; cbn [run]; rewrite Hdone|].
  split; [exact Hreg|]. split.
  - rewrite Hheap, lookup_insert_eq. reflexivity.
  - split; [|split; [|exact Hflag]].
    + unfold gauge_value at 1. rewrite Hgauge. cbn. by rewrite lookup_insert_eq.
    + apply contains_true. rewrite Hreg, lookup_insert_eq. eauto.
Qed.

(** X4.  When the new kernel's client fails to become ready,
    [start_kernel] raises the failure and registers nothing: registry and
    gauge are as before the call.  The launched process is not taken down
    either: the kernel object stays behind with its client open, its
    process handle neither killed nor cleaned up and its restarter
    running. *)
Theorem start_kernel_failure_registers_nothing
    (w : World) (kernel_name : option string) (uuid4 : string) (e : exn) :
  ∃ w' k c,
    run (MKM.start_kernel None kernel_name uuid4 w) [Rejected e] = Some (Raise e, w')
    ∧ _kernels (km w') = _kernels (km w)
    ∧ KERNEL_CURRENTLY_RUNNING_TOTAL w' = KERNEL_CURRENTLY_RUNNING_TOTAL w
    ∧ heap w' !! next_obj w = Some k
    ∧ client k = Some c
    ∧ closed c = false
    ∧ killed (manager k) = false
    ∧ cleaned_up (manager k) = false
    ∧ started (restarter k) = true.
Proof.
  destruct (start_kernel_new_spec kernel_name uuid4 w) as (rest & Hsusp & Hfail & _).
  eexists _, _, _. split.
  - rewrite Hsusp. cbn [run]. rewrite Hfail. reflexivity.
  - split; [reflexivity|]. split; [reflexivity|].
    split; [apply lookup_put|]. done.
Qed.

(** ** Listing sessions *)

Lemma kernel_model_ok w kernel_id l k :
  _kernels (km w) !! kernel_id = Some l →
  heap w !! l = Some k →
  MKM.kernel_model kernel_id w = (Ok (model_of kernel_id k), w).
Proof.
  intros Hreg Hk. unfold MKM.kernel_model.
  rewrite (sync_bind_ok _ _ _ _ _ (check_kernel_id_ok _ _ _ Hreg)).
  rewrite (sync_bind_ok _ _ _ _ _ (get_kernel_ok _ _ _ Hreg)).
  by rewrite (sync_bind_ok _ _ _ _ _ (deref_ok _ _ _ Hk)).
Qed.

Lemma models_of_contents ids : ∀ w,
  registry_resolves w →
  Forall (λ kernel_id, is_Some (_kernels (km w) !! kernel_id)) ids →
  ∃ models,
    MKM.models_of ids w = (Ok models, w)
    ∧ Forall2 (λ kernel_id model,
                 ∃ l k, _kernels (km w) !! kernel_id = Some l
                        ∧ heap w !! l = Some k
                        ∧ model = model_of kernel_id k) ids models.
Proof.
  induction ids as [|kernel_id ids IH]; intros w Hres Hids.
  - exists []. split; [reflexivity|constructor].
  - apply Forall_cons in Hids as [[l Hreg] Hids].
    destruct (Hres _ _ Hreg) as [k Hk].
    destruct (IH w Hres Hids) as (models & Hmodels & Hall).
    cbn [MKM.models_of].
    rewrite (sync_bind_ok _ _ _ _ _ (kernel_model_ok _ _ _ _ Hreg Hk)).
    rewrite sync_bind_unfold, Hmodels.
    eexists. split; [reflexivity|]. constructor; [eauto|done].
Qed.

(** X5.  [list_kernels] changes nothing and returns one model per
    registered id, each id once and in the order of [list_kernel_ids]: an
    id is listed exactly when the membership test holds for it, and its
    model carries the kernel's type, last activity, execution state and
    connection count as they are now. *)
Theorem list_kernels_lists_the_registry (w : World) :
  registry_resolves w →
  ∃ models,
    MKM.list_kernels w = (Ok models, w)
    ∧ model_id <$> models = MKM.list_kernel_ids w
    ∧ NoDup (model_id <$> models)
    ∧ (∀ kernel_id,
         kernel_id ∈ model_id <$> models ↔ MKM.__contains__ w kernel_id = true)
    ∧ Forall (λ model,
                ∃ l k, _kernels (km w) !! model_id model = Some l
                       ∧ heap w !! l = Some k
                       ∧ model = model_of (model_id model) k) models.
Proof.
  intros Hres. unfold MKM.list_kernels. rewrite sync_bind_unfold. cbn [gets].
  destruct (models_of_contents (MKM.list_kernel_ids w) w Hres
              (list_kernel_ids_registered w)) as (models & -> & Hall).
  assert (model_id <$> models = MKM.list_kernel_ids w) as Hids.
  { clear -Hall. induction Hall as [|kid model ids models (l & k & _ & _ & ->) _ IH];
      [done|]. cbn. by rewrite IH. }
  exists models. split; [reflexivity|]. split; [exact Hids|]. split; [|split].
  - rewrite Hids. apply NoDup_fst_map_to_list.
  - intros kernel_id. rewrite Hids, contains_true. unfold MKM.list_kernel_ids.
    rewrite list_elem_of_fmap. split.
    + intros [[i l] [-> Hin]]. apply elem_of_map_to_list in Hin. eauto.
    + intros [l Hl]. exists (kernel_id, l). split; [done|].
      by apply elem_of_map_to_list.
  - clear Hids. induction Hall as [|kid model ids models (l & k & Hl & Hk & ->) _ IH];
      constructor; [|exact IH]. cbn. eauto.
Qed.

Lemma list_kernels_lists_the_registry_witness :
  ∃ models,
    MKM.list_kernels one_kernel = (Ok models, one_kernel)
    ∧ model_id <$> models = ["X"].
Proof.
  destruct (list_kernels_lists_the_registry one_kernel one_kernel_resolves)
    as (models & Hrun & Hids & _).
  exists models. split; [exact Hrun | exact Hids].
Defined.

(** ** Stopping buffering twice *)

Lemma stopped_idempotent k : stopped (stopped k) = stopped k.
Proof. unfold stopped. cbn. by destruct (client k). Qed.

(** X6.  [stop_buffering] succeeds on every kernel that has a client or
    never buffered, and calling it again right away changes nothing: no
    error, no log record, the same world. *)
Theorem stop_buffering_twice_is_once
    (w : World) (self : loc) (k : KernelInterface) :
  heap w !! self = Some k →
  can_stop_buffering k →
  ∃ w',
    KI.stop_buffering self w = (Ok tt, w')
    ∧ KI.stop_buffering self w' = (Ok tt, w').
Proof.
  intros Hk Hcan. rewrite (stop_buffering_spec _ _ _ Hk Hcan).
  eexists. split; [reflexivity|].
  erewrite stop_buffering_spec; [|cbn; apply lookup_insert_eq|by intros _].
  rewrite stopped_idempotent. f_equal.
  assert (discard_record (stopped k) = []) as -> by reflexivity.
  unfold put, set_log, set_heap. cbn. by rewrite app_nil_r, insert_insert_eq.
Qed.

Lemma stop_buffering_twice_is_once_witness :
  ∃ w',
    KI.stop_buffering 0 buffering_kernel = (Ok tt, w')
    ∧ KI.stop_buffering 0 w' = (Ok tt, w').
Proof.
  apply (stop_buffering_twice_is_once buffering_kernel 0 kernel_X_buffering).
  - vm_compute. reflexivity.
  - intros H. discriminate H.
Defined.

(** ** Watching activity *)

(** X7.  The activity watcher, called with a message, stamps the kernel's
    [last_activity] and the manager's [last_kernel_activity] with the
    current time, whatever the message.  A status message carrying an
    execution state also sets the kernel's [execution_state]; any other
    message type leaves it.  A status message without an execution state
    raises [KeyError], after the two time stamps were written.  Nothing
    else of the kernel, and nothing of the registry, changes. *)
Theorem record_activity_stamps_and_tracks_state
    (w : World) (kernel : loc) (kernel_id : string) (msg : Msg)
    (k : KernelInterface) :
  heap w !! kernel = Some k →
  ∃ r w',
    MKM.run_record_activity kernel kernel_id msg w = (r, w')
    ∧ heap w' = <[kernel := activity_recorded (utcnow w) msg k]> (heap w)
    ∧ last_kernel_activity (km w') = utcnow w
    ∧ _kernels (km w') = _kernels (km w)
    ∧ r = (if decide (msg_type msg = "status") then
             match content msg !! "execution_state" with
             | Some _ => Ok tt
             | None => Raise (KeyError "execution_state")
             end
           else Ok tt).
Proof.
  intros Hk. unfold MKM.run_record_activity, activity_recorded.
  rewrite sync_bind_unfold. cbn [gets].
  rewrite (sync_bind_ok _ _ _ _ _ (update_put _ _ _ _ Hk)).
  rewrite sync_bind_unfold. unfold modify at 1.
  destruct (decide (msg_type msg = "status")) as [Hstatus|Hother].
  - destruct (content msg !! "execution_state") as [s|].
    + erewrite sync_bind_ok; [|apply update_put; cbn; apply lookup_insert_eq].
      unfold emit, modify. eexists _, _. split; [reflexivity|].
      cbn. by rewrite insert_insert_eq.
    + unfold raise. eexists _, _. split; [reflexivity|]. done.
  - unfold emit, modify. eexists _, _. split; [reflexivity|]. done.
Qed.

Lemma record_activity_stamps_and_tracks_state_witness :
  ∃ w',
    MKM.run_record_activity 0 "X" status_idle (set_utcnow 5 one_kernel) = (Ok tt, w')
    ∧ heap w' !! 0 =
        Some (set_execution_state "idle" (set_last_activity (Some 5%Z) kernel_X)).
Proof.
  destruct (record_activity_stamps_and_tracks_state (set_utcnow 5 one_kernel) 0 "X"
              status_idle kernel_X) as (r & w' & Hrun & Hheap & _ & _ & ->).
  - vm_compute. reflexivity.
  - exists w'. split; [exact Hrun|]. rewrite Hheap, lookup_insert_eq. reflexivity.
Defined.

(** ** A stop from request to completion *)

Lemma shutdown_request_spec self w k c :
  heap w !! self = Some k →
  client k = Some c →
  ∃ rest,
    KI.shutdown self false w =
      Susp (shutdown_or_terminate self)
        (put self (set_client (Some (request_shutdown c)) k) w) rest
    ∧ (∀ e w2, rest (Rejected e) w2 = Done (Raise e) w2)
    ∧ ∀ w2 k2 c2,
        heap w2 !! self = Some k2 →
        client k2 = Some c2 →
        rest Resolved w2 =
          Done (Ok tt)
            (set_log (log w2 ++ discard_record k2)
               (put self
                  (stopped (set_manager (cleanup (manager k2))
                              (set_client (Some (close c2)) k2))) w2)).
Proof.
  intros Hk Hc. unfold KI.shutdown. rewrite coro_bind_unfold.
  rewrite (lift_bind_ok _ _ _ _ _ (the_client_ok _ _ _ _ _ Hk Hc)).
  rewrite (lift_bind_ok _ _ _ _ _ (update_put _ _ _ _ Hk)).
  cbn [await step_bind].
  eexists. split; [reflexivity|]. split; [reflexivity|].
  intros w2 k2 c2 Hk2 Hc2. cbn [step_bind]. by erewrite teardown_spec.
Qed.

Lemma shutdown_kernel_spec w kernel_id now l k c :
  _kernels (km w) !! kernel_id = Some l →
  heap w !! l = Some k →
  client k = Some c →
  ∃ w1 rest,
    MKM.shutdown_kernel kernel_id now w = Susp (shutdown_or_terminate l) w1 rest
    ∧ heap w1 = <[l := set_client (Some (request_shutdown c)) k]> (heap w)
    ∧ _kernels (km w1) = delete kernel_id (_kernels (km w))
    ∧ KERNEL_CURRENTLY_RUNNING_TOTAL w1 = KERNEL_CURRENTLY_RUNNING_TOTAL w
    ∧ utcnow w1 = utcnow w
    ∧ (∀ e w2, rest (Rejected e) w2 = Done (Raise e) w2)
    ∧ ∀ w2 k2 c2,
        heap w2 !! l = Some k2 →
        client k2 = Some c2 →
        ∃ w3,
          rest Resolved w2 = Done (Ok tt) w3
          ∧ heap w3 =
              <[l := stopped (set_manager (cleanup (manager k2))
                                (set_client (Some (close c2)) k2))]> (heap w2)
          ∧ _kernels (km w3) = _kernels (km w2)
          ∧ KERNEL_CURRENTLY_RUNNING_TOTAL w3 =
              <[kernel_type k2 := (gauge_value w2 (kernel_type k2) - 1)%Z]>
                (KERNEL_CURRENTLY_RUNNING_TOTAL w2)
          ∧ last_kernel_activity (km w3) = utcnow w2.
Proof.
  intros Hreg Hk Hc. unfold MKM.shutdown_kernel.
  rewrite (lift_bind_ok _ _ _ _ _ (check_kernel_id_ok _ _ _ Hreg)).
  rewrite (lift_bind_ok _ _ _ _ _ (pop_kernel_ok _ _ _ Hreg)).
  rewrite coro_bind_unfold. unfold lift at 1, emit at 1, modify at 1.
  cbn [step_bind]. rewrite coro_bind_unfold.
  match goal with |- context [KI.shutdown l false ?w0] =>
    destruct (shutdown_request_spec l w0 k c Hk Hc) as (rest & -> & Hfail & Hrest)
  end.
  cbn [step_bind]. eexists _, _. split; [reflexivity|].
  do 4 (split; [reflexivity|]). split.
  - intros e w2. cbn beta. by rewrite Hfail.
  - intros w2 k2 c2 Hk2 Hc2. cbn beta. rewrite (Hrest w2 k2 c2 Hk2 Hc2).
    cbn [step_bind].
    rewrite coro_bind_unfold. unfold lift at 1.
    rewrite sync_bind_unfold. cbn [gets]. unfold modify at 1. cbn [step_bind].
    erewrite lift_bind_ok; [|apply deref_ok; cbn; apply lookup_insert_eq].
    unfold lift, gauge_dec, modify.
    eexists. split; [reflexivity|]. done.
Qed.



(** X9.  When the graceful-shutdown request of a [shutdown_kernel] fails,
    the failure is raised with the id already gone from the registry and
    nothing else done: the kernel's client is still open, its process
    handle not cleaned up, and the gauge not decremented, so the gauge of
    the kernel's type now exceeds the live sessions of that type by one
    more than before. *)
Theorem shutdown_kernel_failure_leaks_the_kernel
    (w : World) (kernel_id : string) (now : bool) (l : loc)
    (k : KernelInterface) (c : Client) (e : exn) :
  _kernels (km w) !! kernel_id = Some l →
  heap w !! l = Some k →
  client k = Some c →
  ∃ w',
    run (MKM.shutdown_kernel kernel_id now w) [Rejected e] = Some (Raise e, w')
    ∧ MKM.__contains__ w' kernel_id = false
    ∧ heap w' !! l = Some (set_client (Some (request_shutdown c)) k)
    ∧ gauge_value w' (kernel_type k) = gauge_value w (kernel_type k)
    ∧ gauge_excess w' (kernel_type k) = (gauge_excess w (kernel_type k) + 1)%Z.
Proof.
  intros Hreg Hk Hc.
  destruct (shutdown_kernel_spec w kernel_id now l k c Hreg Hk Hc)
    as (w1 & rest & Hsusp & Hheap1 & Hreg1 & Hgauge1 & _ & Hfail & _).
  assert (gauge_value w1 (kernel_type k) = gauge_value w (kernel_type k)) as Hg
    by (unfold gauge_value; by rewrite Hgauge1).
  exists w1. split; [by rewrite Hsusp; cbn [run]; rewrite Hfail|].
  split; [apply contains_false; rewrite Hreg1; apply lookup_delete_eq|].
  split; [rewrite Hheap1; apply lookup_insert_eq|]. split; [exact Hg|].
  unfold gauge_excess. rewrite Hg.
  rewrite (live_sessions_delete w w1 kernel_id l k (kernel_type k) Hreg Hk eq_refl).
  - lia.
  - exact Hreg1.
  - intros l0. rewrite Hheap1.
    destruct (decide (l0 = l)) as [->|Hne].
    + by rewrite lookup_insert_eq, Hk.
    + by rewrite lookup_insert_ne.
Qed.

Lemma shutdown_kernel_failure_leaks_the_kernel_witness :
  ∃ w',
    run (MKM.shutdown_kernel "X" false one_kernel) [Rejected (FutureError "no reply")]
      = Some (Raise (FutureError "no reply"), w')
    ∧ MKM.__contains__ w' "X" = false
    ∧ gauge_value w' "pyimport/kernel" = gauge_value one_kernel "pyimport/kernel".
Proof.
  destruct (shutdown_kernel_failure_leaks_the_kernel one_kernel "X" false 0 kernel_X
              _ (FutureError "no reply") one_kernel_registry one_kernel_heap eq_refl)
    as (w' & Hrun & Hgone & _ & Hgauge & _).
  exists w'. split; [exact Hrun|]. split; [exact Hgone | exact Hgauge].
Defined.

(** ** A restart that completes *)

Lemma live_sessions_same_types w w' ty :
  _kernels (km w') = _kernels (km w) →
  (∀ kernel_id l0,
     _kernels (km w) !! kernel_id = Some l0 →
     kernel_type <$> heap w' !! l0 = kernel_type <$> heap w !! l0) →
  live_sessions w' ty = live_sessions w ty.
Proof.
  intros Hkm Hheap. unfold live_sessions. rewrite Hkm. do 2 f_equal.
  apply map_filter_ext. intros kernel_id l0 Hl0. cbn.
  by rewrite (Hheap _ _ Hl0).
Qed.

Lemma live_sessions_rebind w w' kernel_id l k n k' :
  _kernels (km w) !! kernel_id = Some l →
  heap w !! l = Some k →
  _kernels (km w') = <[kernel_id := n]> (_kernels (km w)) →
  heap w' !! n = Some k' →
  kernel_type k' = kernel_type k →
  (∀ kernel_id' l0,
     kernel_id' ≠ kernel_id →
     _kernels (km w) !! kernel_id' = Some l0 →
     kernel_type <$> heap w' !! l0 = kernel_type <$> heap w !! l0) →
  live_sessions w' (kernel_type k) = live_sessions w (kernel_type k).
Proof.
  intros Hreg Hk Hkm Hn Hty Hother.
  pose (wa := set_km (set__kernels (delete kernel_id (_kernels (km w'))) (km w')) w').
  pose (wb := set_km (set__kernels (delete kernel_id (_kernels (km w))) (km w)) w).
  assert (live_sessions wa (kernel_type k) = (live_sessions w' (kernel_type k) - 1)%Z)
    as Ha.
  { apply (live_sessions_delete w' wa kernel_id n k'); try done.
    rewrite Hkm. apply lookup_insert_eq. }
  assert (live_sessions wb (kernel_type k) = (live_sessions w (kernel_type k) - 1)%Z)
    as Hb by (by apply (live_sessions_delete w wb kernel_id l k)).
  assert (live_sessions wa (kernel_type k) = live_sessions wb (kernel_type k)) as Hab.
  { apply live_sessions_same_types.
    - subst wa wb. cbn. by rewrite Hkm, delete_insert_eq.
    - intros kernel_id' l0. subst wa wb. cbn.
      intros [Hne Hl0]%lookup_delete_Some. by apply (Hother kernel_id'). }
  lia.
Qed.



(** ** A restart that times out *)

(** X11.  When the replacement of a [restart_kernel] is not ready before
    the deadline, the call raises [TimeoutError] after lowering the gauge of
    the kernel's type by one, although the id stays registered and the
    live sessions of that type are as many as before: the gauge's excess
    over the live sessions drops by one.  The replacement object that was
    launched stays behind, connected and bound to no id. *)
Theorem restart_kernel_timeout_lowers_gauge_excess
    (w : World) (kernel_id : string) (l : loc) (k : KernelInterface) (c : Client) :
  _kernels (km w) !! kernel_id = Some l →
  heap w !! l = Some k →
  client k = Some c →
  heap w !! next_obj w = None →
  registry_resolves w →
  ∃ w',
    run (MKM.restart_kernel kernel_id w) [Resolved; TimedOut] =
      Some (Raise (TimeoutError "Timeout waiting for restart"), w')
    ∧ _kernels (km w') = _kernels (km w)
    ∧ live_sessions w' (kernel_type k) = live_sessions w (kernel_type k)
    ∧ gauge_excess w' (kernel_type k) = (gauge_excess w (kernel_type k) - 1)%Z
    ∧ heap w' !! next_obj w =
        Some (set_client (Some new_client)
                (launched (next_obj w) (kernel_type k) (utcnow w)))
    ∧ ∀ kernel_id' l', _kernels (km w') !! kernel_id' = Some l' → l' ≠ next_obj w.
Proof.
  intros Hreg Hk Hc Hfresh Hres.
  assert (next_obj w ≠ l) as Hne by (intros Heq; rewrite Heq in Hfresh; congruence).
  unfold MKM.restart_kernel.
  rewrite (lift_bind_ok _ _ _ _ _ (check_kernel_id_ok _ _ _ Hreg)).
  rewrite (lift_bind_ok _ _ _ _ _ (get_kernel_ok _ _ _ Hreg)).
  rewrite coro_bind_unfold.
  destruct (shutdown_request_spec l w k c Hk Hc) as (rest & -> & _ & Hrest).
  cbn [step_bind run].
  rewrite (Hrest (put l (set_client (Some (request_shutdown c)) k) w) _ _
             (lookup_put _ _ _) eq_refl).
  cbn [step_bind].
  set (k2 := stopped _). set (w2 := set_log _ _).
  assert (heap w2 = <[l := k2]> (heap w)) as Hheap2
    by (subst w2; cbn; apply insert_insert_eq).
  assert (heap w2 !! l = Some k2) as Hk2 by (rewrite Hheap2; apply lookup_insert_eq).
  assert (kernel_type k2 = kernel_type k) as Hty by reflexivity.
  assert (next_obj w2 = next_obj w) as Hn by reflexivity.
  assert (utcnow w2 = utcnow w) as Hnow by reflexivity.
  assert (_kernels (km w2) = _kernels (km w)) as Hregs by reflexivity.
  assert (KERNEL_CURRENTLY_RUNNING_TOTAL w2 = KERNEL_CURRENTLY_RUNNING_TOTAL w)
    as Hg by reflexivity.
  clearbody k2 w2.
  rewrite coro_bind_unfold. unfold lift at 1. cbn [gets step_bind].
  rewrite (lift_bind_ok _ _ _ _ _ (deref_ok _ _ _ Hk2)).
  unfold except_TimeoutError, gen_with_timeout.
  destruct (start_kernel_suspends kernel_id (kernel_type k2) w2) as [rest' ->].
  cbn [timeout_step catch_timeout_step run].
  rewrite coro_bind_unfold. unfold lift at 1, emit at 1, modify at 1.
  cbn [step_bind].
  erewrite lift_bind_ok.
  2:{ apply deref_ok. cbn. rewrite Hn, lookup_insert_ne by done. exact Hk2. }
  rewrite coro_bind_unfold. unfold lift at 1, gauge_dec at 1, modify at 1.
  cbn [step_bind]. unfold lift, raise.
  rewrite Hn, Hty, Hnow.
  eexists. split; [reflexivity|]. cbn.
  assert (∀ kernel_id' l',
            _kernels (km w) !! kernel_id' = Some l' → l' ≠ next_obj w) as Hbound.
  { intros kernel_id' l' Hl' ->. destruct (Hres _ _ Hl') as [k0 Hk0]. congruence. }
  split; [exact Hregs|].
  match goal with |- live_sessions ?w3 _ = _ ∧ _ =>
    assert (live_sessions w3 (kernel_type k) = live_sessions w (kernel_type k))
      as Hlive
  end.
  { apply live_sessions_same_types; [exact Hregs|].
    intros kernel_id' l0 Hl0. cbn.
    rewrite lookup_insert_ne, Hheap2 by (apply not_eq_sym; eauto).
    destruct (decide (l0 = l)) as [->|Hl].
    - rewrite lookup_insert_eq, Hk. cbn. by rewrite Hty.
    - by rewrite lookup_insert_ne. }
  split; [exact Hlive|]. split.
  - unfold gauge_excess. rewrite Hlive. unfold gauge_value at 1. cbn.
    rewrite lookup_insert_eq. cbn. unfold gauge_value.
    change (KERNEL_CURRENTLY_RUNNING_TOTAL (set_log _ _))
      with (KERNEL_CURRENTLY_RUNNING_TOTAL w2).
    rewrite Hg. lia.
  - split; [apply lookup_insert_eq|]. rewrite Hregs. exact Hbound.
Qed.

Lemma restart_kernel_timeout_lowers_gauge_excess_witness :
  ∃ w',
    run (MKM.restart_kernel "X" one_kernel) [Resolved; TimedOut] =
      Some (Raise (TimeoutError "Timeout waiting for restart"), w')
    ∧ gauge_excess w' "pyimport/kernel"
      = (gauge_excess one_kernel "pyimport/kernel" - 1)%Z.
Proof.
  destruct (restart_kernel_timeout_lowers_gauge_excess one_kernel "X" 0 kernel_X _
              one_kernel_registry one_kernel_heap eq_refl one_kernel_fresh
              one_kernel_resolves)
    as (w' & Hrun & _ & _ & Hexcess & _).
  exists w'. split; [exact Hrun | exact Hexcess].
Defined.

(** ** Unknown ids *)

Lemma check_kernel_id_unknown kernel_id w :
  _kernels (km w) !! kernel_id = None →
  MKM._check_kernel_id kernel_id w =
    (Raise (HTTPError 404 ("Kernel does not exist: " ++ kernel_id)), w).
Proof.
  intros H. unfold MKM._check_kernel_id.
  by rewrite (proj2 (contains_false w kernel_id) H).
Qed.

Lemma get_kernel_unknown kernel_id w :
  _kernels (km w) !! kernel_id = None →
  MKM.get_kernel kernel_id w = (Raise (KeyError kernel_id), w).
Proof. intros H. unfold MKM.get_kernel. by rewrite H. Qed.

(** X12.  Every operation that checks its id answers an unregistered id
    with the same 404 error, at once and before it changes anything:
    [kernel_model], [shutdown_kernel], [restart_kernel] and [start_kernel]
    with an explicit id leave the world as it was ([start_kernel] does not
    even initialise the culler); [start_buffering], when buffering is
    enabled, has logged its start line and done nothing else. *)
Theorem unknown_id_is_rejected_with_404
    (w : World) (kernel_id : string) :
  _kernels (km w) !! kernel_id = None →
  let not_found := HTTPError 404 ("Kernel does not exist: " ++ kernel_id) in
  MKM.kernel_model kernel_id w = (Raise not_found, w)
  ∧ (∀ now, MKM.shutdown_kernel kernel_id now w = Done (Raise not_found) w)
  ∧ MKM.restart_kernel kernel_id w = Done (Raise not_found) w
  ∧ (∀ kernel_name uuid4,
       MKM.start_kernel (Some kernel_id) kernel_name uuid4 w
       = Done (Raise not_found) w)
  ∧ ∀ session_key channels,
      buffer_offline_messages (km w) = true →
      MKM.start_buffering kernel_id session_key channels w =
        (Raise not_found,
         set_log (log w ++ [{| level := "info";
                               format := "Starting buffering for %s";
                               args := [PyStr session_key] |}]) w).
Proof.
  intros Hnone not_found.
  pose proof (check_kernel_id_unknown kernel_id w Hnone) as Hcheck.
  split; [|split; [|split; [|split]]].
  - unfold MKM.kernel_model. by apply sync_bind_raise.
  - intros now. unfold MKM.shutdown_kernel. by apply lift_bind_raise.
  - unfold MKM.restart_kernel. by apply lift_bind_raise.
  - intros kernel_name uuid4. unfold MKM.start_kernel.
    rewrite coro_bind_unfold.
    erewrite lift_bind_raise; [|exact Hcheck]. reflexivity.
  - intros session_key channels Hon. unfold MKM.start_buffering.
    rewrite sync_bind_unfold. cbn [gets]. rewrite Hon. cbn [negb].
    rewrite sync_bind_unfold. unfold emit at 1, modify at 1.
    apply sync_bind_raise. apply check_kernel_id_unknown. exact Hnone.
Qed.

Lemma unknown_id_is_rejected_with_404_witness :
  MKM.restart_kernel "X" fresh_world
  = Done (Raise (HTTPError 404 "Kernel does not exist: X")) fresh_world.
Proof.
  apply (unknown_id_is_rejected_with_404 fresh_world "X"). reflexivity.
Defined.

(** X13.  The operations that do not check their id treat an unregistered
    one each in its own way: the connection notifications do nothing at
    all, while [get_kernel], the idle check of the culler and the
    kernel-death callback raise [KeyError]; the death callback has logged
    its warning by then, and none of them touches the kernel objects, the
    registry or the gauges. *)
Theorem unknown_id_without_check
    (w : World) (kernel_id : string) :
  _kernels (km w) !! kernel_id = None →
  MKM.notify_connect kernel_id w = (Ok tt, w)
  ∧ MKM.notify_disconnect kernel_id w = (Ok tt, w)
  ∧ MKM.get_kernel kernel_id w = (Raise (KeyError kernel_id), w)
  ∧ MKM.cull_kernel_if_idle kernel_id w = (Raise (KeyError kernel_id), w)
  ∧ MKM._handle_kernel_died kernel_id w =
      (Raise (KeyError kernel_id),
       set_log (log w ++ [{| level := "warning";
                             format := "Kernel %s died, removing from map.";
                             args := [PyStr kernel_id] |}]) w).
Proof.
  intros Hnone.
  pose proof (get_kernel_unknown kernel_id w Hnone) as Hget.
  split; [exact (notify_unknown (Connect kernel_id) w Hnone)|].
  split; [exact (notify_unknown (Disconnect kernel_id) w Hnone)|].
  split; [exact Hget|]. split.
  - unfold MKM.cull_kernel_if_idle. by apply sync_bind_raise.
  - unfold MKM._handle_kernel_died.
    rewrite sync_bind_unfold. unfold emit at 1, modify at 1.
    apply sync_bind_raise. unfold MKM.pop_kernel. apply sync_bind_raise.
    apply get_kernel_unknown. exact Hnone.
Qed.

Lemma unknown_id_without_check_witness :
  MKM.notify_disconnect "X" fresh_world = (Ok tt, fresh_world)
  ∧ MKM.cull_kernel_if_idle "X" fresh_world = (Raise (KeyError "X"), fresh_world).
Proof.
  destruct (unknown_id_without_check fresh_world "X" eq_refl)
    as (_ & Hnotify & _ & Hcull & _).
  split; [exact Hnotify | exact Hcull].
Defined.

(** ** An invariant of the server under the loop *)

Section loop.

Context (I : World → Prop).

Lemma step_maintains_forget {A} (s : step A) :
  step_maintains I s → step_maintains I (forget s).
Proof.
  induction 1 as [[a|e] w Hw|a w k Hw _ IH]; simpl; constructor; auto.
Qed.

Lemma called_maintains {A} (m : coro A) w :
  coro_maintains I m → I w →
  I (called m w).1 ∧ Forall (task_maintains I) (called m w).2.
Proof.
  intros Hm Hw. unfold called.
  pose proof (step_maintains_forget _ (Hm w Hw)) as Hs.
  destruct Hs as [r w' Hw'|a w' k Hw' Hk]; simpl.
  - split; [done|constructor].
  - split; [done|]. apply Forall_singleton. exact Hk.
Qed.

Lemma returned_maintains {A} (tasks : A → list task) (m : sync A) w :
  yields I (λ a, Forall (task_maintains I) (tasks a)) m → I w →
  I (returned tasks m w).1 ∧ Forall (task_maintains I) (returned tasks m w).2.
Proof.
  intros Hm Hw. destruct (Hm w Hw) as [Hw' Hq]. unfold returned.
  destruct (m w) as [[a|e] w']; simpl in *; split; auto.
Qed.

Lemma resumed_maintains t r w :
  task_maintains I t → I w →
  I (resumed t r w).1 ∧ Forall (task_maintains I) (resumed t r w).2.
Proof.
  intros Ht Hw. unfold resumed. specialize (Ht r w Hw).
  destruct Ht as [r' w' Hw'|a w' k Hw' Hk]; simpl.
  - split; [done|constructor].
  - split; [done|]. apply Forall_singleton. exact Hk.
Qed.

Lemma maintains_yields {A} (Q : A → Prop) (m : sync A) :
  maintains I m → (∀ a, Q a) → yields I Q m.
Proof. intros Hm HQ w Hw. split; [by apply Hm | by intros]. Qed.

Lemma yields_ret {A} (Q : A → Prop) (a : A) : Q a → yields I Q (mret a).
Proof. intros HQ w Hw. split; [done|]. by intros a' [= <-]. Qed.

Lemma yields_bind {A B} (Q : B → Prop) (m : sync A) (k : A → sync B) :
  maintains I m → (∀ a, yields I Q (k a)) → yields I Q (m ≫= k).
Proof.
  intros Hm Hk w Hw. rewrite sync_bind_unfold.
  specialize (Hm w Hw). destruct (m w) as [[a|e] w']; simpl in *.
  - by apply Hk.
  - split; [done|]. by intros.
Qed.

Lemma yields_try_except {A} (Q : A → Prop) (m : sync A) h :
  yields I Q m → (∀ e, yields I Q (h e)) → yields I Q (try_except m h).
Proof.
  intros Hm Hh w Hw. unfold try_except.
  specialize (Hm w Hw). destruct (m w) as [[a|e] w']; simpl in *.
  - done.
  - apply Hh. by destruct Hm.
Qed.

Lemma yields_spawn (m : coro unit) :
  coro_maintains I m →
  yields I (λ t, Forall (task_maintains I) (option_list t)) (spawn m).
Proof.
  intros Hm w Hw. specialize (Hm w Hw). unfold spawn.
  destruct Hm as [r w' Hw'|a w' k Hw' Hk]; simpl.
  - split; [done|]. intros t [= <-]. constructor.
  - split; [done|]. intros t [= <-]. by apply Forall_singleton.
Qed.

Hypothesis serve_maintains :
  ∀ c w, I w → I (serve c w).1 ∧ Forall (task_maintains I) (serve c w).2.

Hypothesis clock_maintains : ∀ t w, I w → I (set_utcnow t w).

Lemma loop_step_maintains x y :
  loop_step x y →
  I x.1 ∧ Forall (task_maintains I) x.2 →
  I y.1 ∧ Forall (task_maintains I) y.2.
Proof.
  intros [c w ts|t r w ts1 ts2|t w ts]; simpl.
  - intros [Hw Hts]. destruct (serve_maintains c w Hw) as [Hw' Hnew].
    split; [done|]. by apply Forall_app.
  - intros [Hw Hts]. apply Forall_app in Hts as [Hts1 Hts2].
    apply Forall_cons in Hts2 as [Ht Hts2].
    destruct (resumed_maintains t r w Ht Hw) as [Hw' Hnew].
    split; [done|]. apply Forall_app. split; [done|]. by apply Forall_app.
  - intros [Hw Hts]. split; [by apply clock_maintains | done].
Qed.

Lemma reachable_maintains w0 w : I w0 → reachable w0 w → I w.
Proof.
  intros Hw0 [ts Hrun].
  assert (∀ x y, rtc loop_step x y →
            I x.1 ∧ Forall (task_maintains I) x.2 →
            I y.1 ∧ Forall (task_maintains I) y.2) as Hall.
  { induction 1 as [|x y z Hxy _ IH]; [done|].
    intros Hx. apply IH. by apply (loop_step_maintains x y). }
  apply (Hall _ _ Hrun). split; [exact Hw0 | constructor].
Qed.

End loop.

Lemma kernel_model_maintains kernel_id :
  maintains world_ok (MKM.kernel_model kernel_id).
Proof. unfold MKM.kernel_model. repeat maintains_step. Qed.

Lemma list_kernels_maintains : maintains world_ok MKM.list_kernels.
Proof.
  unfold MKM.list_kernels. apply maintains_bind; [maintains_step|]. intros ids.
  induction ids as [|kernel_id ids IH]; cbn [MKM.models_of].
  - maintains_step.
  - apply maintains_bind; [apply kernel_model_maintains|]. intros model.
    apply maintains_bind; [exact IH|]. intros kernels. maintains_step.
Qed.

Lemma run_handler_maintains h msg : maintains world_ok (run_handler h msg).
Proof.
  destruct h; cbn [run_handler];
    [apply run_buffer_msg_maintains | apply run_record_activity_maintains].
Qed.

Lemma cull_kernel_if_idle_yields kernel_id :
  yields world_ok (λ t, Forall (task_maintains world_ok) (option_list t))
    (MKM.cull_kernel_if_idle kernel_id).
Proof.
  unfold MKM.cull_kernel_if_idle.
  do 2 (apply yields_bind; [maintains_step|]; intros ?).
  apply yields_bind; [by apply maintains_pure|]. intros ?.
  apply yields_bind; [maintains_step|]. intros _.
  destruct (last_activity _); [|by apply yields_ret; constructor].
  do 2 (apply yields_bind; [maintains_step|]; intros ?).
  destruct (_ && _); [|by apply yields_ret; constructor].
  apply yields_bind; [maintains_step|]. intros _.
  apply yields_spawn. apply shutdown_maintains.
Qed.

Lemma cull_kernels_yields :
  yields world_ok (Forall (task_maintains world_ok)) MKM.cull_kernels.
Proof.
  unfold MKM.cull_kernels.
  do 3 (apply yields_bind; [maintains_step|]; intros ?).
  match goal with |- yields _ _ (MKM.cull_each ?ids) =>
    induction ids as [|kernel_id ids IH] end; cbn [MKM.cull_each].
  - apply yields_ret. constructor.
  - intros w Hw. rewrite sync_bind_unfold.
    destruct (yields_try_except world_ok
                (λ t, Forall (task_maintains world_ok) (option_list t))
                (MKM.cull_kernel_if_idle kernel_id)
                (λ e, emit "exception"
                   "The following exception was encountered while checking the idle duration of kernel %s: %s"
                   [PyStr kernel_id; PyExc e];; mret None)
                (cull_kernel_if_idle_yields kernel_id)) with w as [Hw1 Ht];
      [|exact Hw|].
    { intros e. apply yields_bind; [maintains_step|]. intros _.
      apply yields_ret. constructor. }
    destruct (try_except _ _ w) as [[t|e] w1]; simpl in *;
      [|split; [done|by intros]].
    rewrite sync_bind_unfold. destruct (IH w1 Hw1) as [Hw2 Hts].
    destruct (MKM.cull_each _ w1) as [[ts|e] w2]; simpl in *;
      [|split; [done|by intros]].
    split; [done|]. intros ? [= <-]. apply Forall_app. split; auto.
Qed.

Lemma handle_kernel_restarted_yields self :
  yields world_ok (λ t, Forall (task_maintains world_ok) (option_list t))
    (KI._handle_kernel_restarted self).
Proof.
  unfold KI._handle_kernel_restarted.
  apply yields_bind; [repeat maintains_step|]. intros _.
  apply yields_spawn. apply connect_client_maintains.
Qed.

Lemma serve_world_ok c w :
  world_ok w →
  world_ok (serve c w).1 ∧ Forall (task_maintains world_ok) (serve c w).2.
Proof.
  intros Hw.
  destruct c; cbn [serve];
    first
      [ apply called_maintains; [|exact Hw];
        first [ apply start_kernel_maintains | apply shutdown_kernel_maintains
              | apply restart_kernel_maintains | apply connect_client_maintains
              | apply shutdown_maintains ]
      | apply returned_maintains; [|exact Hw];
        first
          [ apply cull_kernels_yields
          | apply handle_kernel_restarted_yields
          | apply maintains_yields; [|by constructor];
            first
              [ apply manager_start_buffering_maintains
              | apply notify_connect_maintains | apply notify_disconnect_maintains
              | apply kernel_model_maintains | apply list_kernels_maintains
              | apply initialize_culler_maintains
              | apply handle_kernel_died_maintains | apply interrupt_maintains
              | apply start_buffering_maintains | apply get_buffer_maintains
              | apply stop_buffering_maintains | apply run_handler_maintains ] ] ].
Qed.




(** ** What the loop never undoes *)

Section guarantees.

Context (I : World → Prop) (R : relation World) `{!PreOrder R}.

Lemma guarantees_pure {A} (m : sync A) : (∀ w, (m w).2 = w) → guarantees I R m.
Proof. intros H w Hw. by rewrite H. Qed.

Lemma guarantees_ret {A} (a : A) : guarantees I R (mret a).
Proof. by apply guarantees_pure. Qed.

Lemma guarantees_raise {A} e : guarantees I R (@raise A e).
Proof. by apply guarantees_pure. Qed.

Lemma guarantees_gets {A} (g : World → A) : guarantees I R (gets g).
Proof. by apply guarantees_pure. Qed.

Lemma guarantees_deref l : guarantees I R (deref l).
Proof. apply guarantees_pure. intros w. unfold deref. by destruct (_ !! _). Qed.

Lemma guarantees_get_kernel kernel_id : guarantees I R (MKM.get_kernel kernel_id).
Proof.
  apply guarantees_pure. intros w. unfold MKM.get_kernel. by destruct (_ !! _).
Qed.

Lemma guarantees_check_kernel_id kernel_id :
  guarantees I R (MKM._check_kernel_id kernel_id).
Proof.
  apply guarantees_pure. intros w. unfold MKM._check_kernel_id.
  by destruct (negb _).
Qed.

Lemma guarantees_modify g :
  (∀ w, I w → I (g w) ∧ R w (g w)) → guarantees I R (modify g).
Proof. intros H w. apply H. Qed.

Lemma guarantees_bind {A B} (m : sync A) (k : A → sync B) :
  guarantees I R m → (∀ a, guarantees I R (k a)) → guarantees I R (m ≫= k).
Proof.
  intros Hm Hk w Hw. rewrite sync_bind_unfold.
  destruct (Hm w Hw) as [Hw' HR]. destruct (m w) as [[a|e] w']; simpl in *.
  - destruct (Hk a w' Hw') as [Hw'' HR']. split; [done|]. by etrans.
  - done.
Qed.

Lemma guarantees_the_client l method : guarantees I R (the_client l method).
Proof.
  apply guarantees_bind; [apply guarantees_deref|].
  intros k. destruct (client k); [apply guarantees_ret | apply guarantees_raise].
Qed.

Lemma guarantees_try_except {A} (m : sync A) h :
  guarantees I R m → (∀ e, guarantees I R (h e)) → guarantees I R (try_except m h).
Proof.
  intros Hm Hh w Hw. unfold try_except.
  destruct (Hm w Hw) as [Hw' HR]. destruct (m w) as [[a|e] w']; simpl in *.
  - done.
  - destruct (Hh e w' Hw') as [Hw'' HR']. split; [done|]. by etrans.
Qed.

Lemma guarantees_when b m : guarantees I R m → guarantees I R (when b m).
Proof. destruct b; [done | intros _; apply guarantees_ret]. Qed.

Lemma guarantees_for_each {A} (l : list A) body :
  (∀ x, guarantees I R (body x)) → guarantees I R (for_each l body).
Proof.
  intros H. induction l as [|x l IH]; simpl.
  - apply guarantees_ret.
  - apply guarantees_bind; [apply H | intros _; apply IH].
Qed.

Lemma step_guarantees_mono {A} w0 w1 (s : step A) :
  R w0 w1 → step_guarantees I R w1 s → step_guarantees I R w0 s.
Proof.
  intros H01 [r w Hw HR|a w k Hw HR Hk]; constructor; try done; by etrans.
Qed.

Lemma task_guarantees_mono w0 w1 t :
  R w0 w1 → task_guarantees I R w0 t → task_guarantees I R w1 t.
Proof. intros H01 Ht r w Hw HR. apply Ht; [done|]. by etrans. Qed.

Lemma step_guarantees_bind {A B} w0 (s : step A) (k : A → coro B) :
  step_guarantees I R w0 s → (∀ a, coro_guarantees I R (k a)) →
  step_guarantees I R w0 (step_bind s k).
Proof.
  intros Hs Hk. induction Hs as [w0 [a|e] w Hw HR|w0 a w k' Hw HR _ IH]; simpl.
  - apply (step_guarantees_mono w0 w); [done|]. by apply Hk.
  - by constructor.
  - constructor; [done..|]. intros r w' Hw' HR'. by apply IH.
Qed.

Lemma coro_guarantees_ret {A} (a : A) : coro_guarantees I R (mret a).
Proof. intros w Hw. by constructor. Qed.

Lemma coro_guarantees_bind {A B} (m : coro A) (k : A → coro B) :
  coro_guarantees I R m → (∀ a, coro_guarantees I R (k a)) →
  coro_guarantees I R (m ≫= k).
Proof. intros Hm Hk w Hw. apply step_guarantees_bind; [by apply Hm | apply Hk]. Qed.

Lemma coro_guarantees_lift {A} (m : sync A) :
  guarantees I R m → coro_guarantees I R (lift m).
Proof.
  intros Hm w Hw. unfold lift. destruct (Hm w Hw) as [Hw' HR].
  destruct (m w) as [r w']. by constructor.
Qed.

Lemma coro_guarantees_await a : coro_guarantees I R (await a).
Proof.
  intros w Hw. constructor; [done..|]. intros [|e|] w' Hw' HR; by constructor.
Qed.

Lemma step_guarantees_timeout {A} seconds w0 (s : step A) :
  step_guarantees I R w0 s → step_guarantees I R w0 (timeout_step seconds s).
Proof.
  induction 1 as [w0 r w Hw HR|w0 a w k Hw HR _ IH]; simpl.
  - by constructor.
  - constructor; [done..|].
    intros [|e|] w' Hw' HR'; [by apply IH..|by constructor].
Qed.

Lemma step_guarantees_catch_timeout {A} w0 (s : step A) (h : coro A) :
  step_guarantees I R w0 s → coro_guarantees I R h →
  step_guarantees I R w0 (catch_timeout_step s h).
Proof.
  intros Hs Hh. induction Hs as [w0 r w Hw HR|w0 a w k Hw HR _ IH]; simpl.
  - destruct r as [a|[]]; try by constructor.
    apply (step_guarantees_mono w0 w); [done|]. by apply Hh.
  - constructor; [done..|]. intros r w' Hw' HR'. by apply IH.
Qed.

Lemma step_guarantees_forget {A} w0 (s : step A) :
  step_guarantees I R w0 s → step_guarantees I R w0 (forget s).
Proof.
  induction 1 as [w0 [a|e] w Hw HR|w0 a w k Hw HR _ IH]; simpl;
    constructor; auto.
Qed.

Lemma guarantees_spawn (m : coro unit) :
  coro_guarantees I R m → guarantees I R (spawn m).
Proof.
  intros Hm w Hw. specialize (Hm w Hw). unfold spawn.
  destruct Hm; done.
Qed.

Lemma guarantees_yields {A} (Q : World → A → Prop) (m : sync A) :
  guarantees I R m → (∀ w a, Q w a) → yields_in I R Q m.
Proof. intros Hm HQ w Hw. destruct (Hm w Hw). split_and!; [done..|by intros]. Qed.

Lemma yields_in_ret {A} (Q : World → A → Prop) (a : A) :
  (∀ w, Q w a) → yields_in I R Q (mret a).
Proof. intros HQ w Hw. split_and!; [done..|]. intros a' [= <-]. apply HQ. Qed.

Lemma yields_in_bind {A B} (Q : World → B → Prop) (m : sync A) (k : A → sync B) :
  guarantees I R m → (∀ a, yields_in I R Q (k a)) → yields_in I R Q (m ≫= k).
Proof.
  intros Hm Hk w Hw. rewrite sync_bind_unfold.
  destruct (Hm w Hw) as [Hw' HR]. destruct (m w) as [[a|e] w']; simpl in *.
  - destruct (Hk a w' Hw') as (Hw'' & HR' & HQ). split_and!; [done| |done].
    by etrans.
  - split_and!; [done..|]. by intros.
Qed.

Lemma yields_in_try_except {A} (Q : World → A → Prop) (m : sync A) h :
  (∀ w w' a, R w w' → Q w a → Q w' a) →
  yields_in I R Q m → (∀ e, yields_in I R Q (h e)) →
  yields_in I R Q (try_except m h).
Proof.
  intros Hmono Hm Hh w Hw. unfold try_except.
  destruct (Hm w Hw) as (Hw' & HR & HQ). destruct (m w) as [[a|e] w']; simpl in *.
  - done.
  - destruct (Hh e w' Hw') as (Hw'' & HR' & HQ'). split_and!; [done| |done].
    by etrans.
Qed.

Lemma yields_in_spawn (m : coro unit) :
  coro_guarantees I R m →
  yields_in I R (λ w t, Forall (task_guarantees I R w) (option_list t)) (spawn m).
Proof.
  intros Hm w Hw. specialize (Hm w Hw). unfold spawn.
  destruct Hm as [r w' Hw' HR|a w' k Hw' HR Hk]; simpl.
  - split_and!; [done..|]. intros t [= <-]. constructor.
  - split_and!; [done..|]. intros t [= <-]. by apply Forall_singleton.
Qed.

Lemma called_guarantees {A} (m : coro A) w :
  coro_guarantees I R m → I w →
  I (called m w).1 ∧ R w (called m w).1
  ∧ Forall (task_guarantees I R (called m w).1) (called m w).2.
Proof.
  intros Hm Hw. unfold called.
  pose proof (step_guarantees_forget _ _ (Hm w Hw)) as Hs.
  destruct Hs as [r w' Hw' HR|a w' k Hw' HR Hk]; simpl.
  - split_and!; [done..|constructor].
  - split_and!; [done..|]. apply Forall_singleton. exact Hk.
Qed.

Lemma returned_guarantees {A} (tasks : A → list task) (m : sync A) w :
  yields_in I R (λ w' a, Forall (task_guarantees I R w') (tasks a)) m → I w →
  I (returned tasks m w).1 ∧ R w (returned tasks m w).1
  ∧ Forall (task_guarantees I R (returned tasks m w).1) (returned tasks m w).2.
Proof.
  intros Hm Hw. destruct (Hm w Hw) as (Hw' & HR & HQ). unfold returned.
  destruct (m w) as [[a|e] w']; simpl in *; split_and!; auto.
Qed.

Lemma resumed_guarantees t r w0 w :
  task_guarantees I R w0 t → R w0 w → I w →
  I (resumed t r w).1 ∧ R w (resumed t r w).1
  ∧ Forall (task_guarantees I R (resumed t r w).1) (resumed t r w).2.
Proof.
  intros Ht HR Hw. unfold resumed. specialize (Ht r w Hw HR).
  destruct Ht as [r' w' Hw' HR'|a w' k Hw' HR' Hk]; simpl.
  - split_and!; [done..|constructor].
  - split_and!; [done..|]. apply Forall_singleton. exact Hk.
Qed.

Hypothesis serve_guarantees :
  ∀ c w, I w →
    I (serve c w).1 ∧ R w (serve c w).1
    ∧ Forall (task_guarantees I R (serve c w).1) (serve c w).2.

Hypothesis clock_guarantees : ∀ t w, I w → I (set_utcnow t w) ∧ R w (set_utcnow t w).

Lemma loop_step_guarantees x y :
  loop_step x y →
  I x.1 ∧ Forall (task_guarantees I R x.1) x.2 →
  I y.1 ∧ Forall (task_guarantees I R y.1) y.2.
Proof.
  intros [c w ts|t r w ts1 ts2|t w ts]; simpl.
  - intros [Hw Hts]. destruct (serve_guarantees c w Hw) as (Hw' & HR & Hnew).
    split; [done|]. apply Forall_app. split; [|done].
    eapply Forall_impl; [exact Hts|]. intros t. by apply task_guarantees_mono.
  - intros [Hw Hts]. apply Forall_app in Hts as [Hts1 Hts2].
    apply Forall_cons in Hts2 as [Ht Hts2].
    destruct (resumed_guarantees t r w w Ht) as (Hw' & HR & Hnew); [done..|].
    split; [done|]. apply Forall_app. split; [|apply Forall_app; split; [done|]].
    + eapply Forall_impl; [exact Hts1|]. intros t'. by apply task_guarantees_mono.
    + eapply Forall_impl; [exact Hts2|]. intros t'. by apply task_guarantees_mono.
  - intros [Hw Hts]. destruct (clock_guarantees t w Hw) as [Hw' HR].
    split; [done|].
    eapply Forall_impl; [exact Hts|]. intros t'. by apply task_guarantees_mono.
Qed.

Lemma reachable_guarantees w0 w : I w0 → reachable w0 w → I w.
Proof.
  intros Hw0 [ts Hrun].
  assert (∀ x y, rtc loop_step x y →
            I x.1 ∧ Forall (task_guarantees I R x.1) x.2 →
            I y.1 ∧ Forall (task_guarantees I R y.1) y.2) as Hall.
  { induction 1 as [|x y z Hxy _ IH]; [done|].
    intros Hx. apply IH. by apply (loop_step_guarantees x y). }
  apply (Hall _ _ Hrun). split; [exact Hw0 | constructor].
Qed.

End guarantees.

(** ** Registered sessions stay bound to connected kernel objects *)

#[global] Instance heap_grows_preorder : PreOrder heap_grows.
Proof.
  split.
  - by intros w l.
  - intros w1 w2 w3 H12 H23 l Hl. by apply H23, H12.
Qed.

Lemma sessions_ok_same w w' :
  heap w' = heap w → _kernels (km w') = _kernels (km w) →
  (next_obj w ≤ next_obj w')%nat →
  sessions_ok w → sessions_ok w' ∧ heap_grows w w'.
Proof.
  intros Hheap Hreg Hnext (Hconn & Hres & Hbelow). split; [split_and!|].
  - intros l k. rewrite Hheap. apply Hconn.
  - intros kernel_id l. rewrite Hreg, Hheap. apply Hres.
  - intros l k. rewrite Hheap. intros Hk. specialize (Hbelow l k Hk). lia.
  - intros l. by rewrite Hheap.
Qed.

Lemma sessions_ok_put l k w :
  sessions_ok w → is_Some (heap w !! l) → is_Some (client k) →
  sessions_ok (put l k w) ∧ heap_grows w (put l k w).
Proof.
  intros (Hconn & Hres & Hbelow) [k0 Hk0] Hc. unfold put. split; [split_and!|].
  - intros l0 k1. cbn. destruct (decide (l0 = l)) as [->|Hne].
    + rewrite lookup_insert_eq. by intros [= <-].
    + rewrite lookup_insert_ne by done. apply Hconn.
  - intros kernel_id l0 Hl0. cbn in *. destruct (decide (l0 = l)) as [->|Hne].
    + rewrite lookup_insert_eq. eauto.
    + rewrite lookup_insert_ne by done. by apply (Hres kernel_id).
  - intros l0 k1. cbn. destruct (decide (l0 = l)) as [->|Hne].
    + intros _. by apply (Hbelow l k0).
    + rewrite lookup_insert_ne by done. apply Hbelow.
  - intros l0 Hl0. cbn. destruct (decide (l0 = l)) as [->|Hne].
    + rewrite lookup_insert_eq. eauto.
    + by rewrite lookup_insert_ne.
Qed.

Lemma sessions_update l f :
  (∀ k, is_Some (client k) → is_Some (client (f k))) →
  guarantees sessions_ok heap_grows (update l f).
Proof.
  intros Hf w Hw. unfold update. rewrite sync_bind_unfold. unfold deref.
  destruct (heap w !! l) as [k|] eqn:Hk; [|done].
  apply sessions_ok_put; [done|eauto|]. apply Hf. by apply (proj1 Hw l).
Qed.

Lemma sessions_emit lvl fmt a : guarantees sessions_ok heap_grows (emit lvl fmt a).
Proof. intros w Hw. by apply sessions_ok_same. Qed.

Lemma sessions_alloc : guarantees sessions_ok heap_grows alloc.
Proof. intros w Hw. apply sessions_ok_same; [done..|cbn; lia|done]. Qed.

Lemma sessions_gauge_inc ty : guarantees sessions_ok heap_grows (gauge_inc ty).
Proof. intros w Hw. by apply sessions_ok_same. Qed.

Lemma sessions_gauge_dec ty : guarantees sessions_ok heap_grows (gauge_dec ty).
Proof. intros w Hw. by apply sessions_ok_same. Qed.

Lemma sessions_set_km g :
  (∀ w, _kernels (g w) ⊆ _kernels (km w)) →
  guarantees sessions_ok heap_grows (modify (λ w, set_km (g w) w)).
Proof.
  intros Hg w (Hconn & Hres & Hbelow). split; [split_and!|].
  - exact Hconn.
  - intros kernel_id l Hl. apply (Hres kernel_id). cbn in Hl.
    by eapply lookup_weaken.
  - exact Hbelow.
  - by intros l.
Qed.

Lemma sessions_clock t w :
  sessions_ok w → sessions_ok (set_utcnow t w) ∧ heap_grows w (set_utcnow t w).
Proof. intros Hw. by apply sessions_ok_same. Qed.

Create HintDb guarantees discriminated.

Tactic Notation "gapply" uconstr(lem) :=
  apply lem; try (match goal with |- PreOrder _ => apply _ end).

Ltac guarantees_step :=
  first
    [ solve [auto 1 with guarantees nocore]
    | gapply guarantees_ret | gapply guarantees_raise | gapply guarantees_gets
    | gapply guarantees_deref | gapply guarantees_the_client
    | gapply guarantees_get_kernel | gapply guarantees_check_kernel_id
    | apply sessions_emit | apply sessions_alloc
    | apply sessions_gauge_inc | apply sessions_gauge_dec
    | apply sessions_set_km; intros ?; cbn;
      first [reflexivity | apply delete_subseteq]
    | apply sessions_update; intros ? ?; cbn; eauto
    | gapply guarantees_when
    | gapply guarantees_for_each; intros ?
    | gapply guarantees_bind; [|intros ?]
    | match goal with
      | |- guarantees _ _ (let '(_, _) := ?x in _) => destruct x
      | |- guarantees _ _ (match ?x with _ => _ end) => destruct x
      | |- guarantees _ _ (if ?x then _ else _) => destruct x
      end ].

Ltac coro_guarantees_step :=
  first
    [ gapply coro_guarantees_ret | gapply coro_guarantees_await
    | gapply coro_guarantees_lift; solve [repeat guarantees_step]
    | gapply coro_guarantees_bind; [|intros ?]
    | match goal with
      | |- coro_guarantees _ _ (match ?x with _ => _ end) => destruct x
      | |- coro_guarantees _ _ (if ?x then _ else _) => destruct x
      end ].

Lemma stop_buffering_guarantees self :
  guarantees sessions_ok heap_grows (KI.stop_buffering self).
Proof. unfold KI.stop_buffering. repeat guarantees_step. Qed.

#[global] Hint Resolve stop_buffering_guarantees : guarantees.

Lemma get_buffer_guarantees self :
  guarantees sessions_ok heap_grows (KI.get_buffer self).
Proof. unfold KI.get_buffer. repeat guarantees_step. Qed.

Lemma start_buffering_guarantees self session_key :
  guarantees sessions_ok heap_grows (KI.start_buffering self session_key).
Proof. unfold KI.start_buffering. repeat guarantees_step. Qed.

Lemma interrupt_guarantees self :
  guarantees sessions_ok heap_grows (KI.interrupt self).
Proof. unfold KI.interrupt. repeat guarantees_step. Qed.

Lemma run_buffer_msg_guarantees self channel msg :
  guarantees sessions_ok heap_grows (KI.run_buffer_msg self channel msg).
Proof. unfold KI.run_buffer_msg. repeat guarantees_step. Qed.

#[global] Hint Resolve get_buffer_guarantees start_buffering_guarantees
  interrupt_guarantees run_buffer_msg_guarantees : guarantees.

Lemma connect_client_guarantees self :
  coro_guarantees sessions_ok heap_grows (KI.connect_client self).
Proof. unfold KI.connect_client. repeat coro_guarantees_step. Qed.

Lemma shutdown_guarantees self now :
  coro_guarantees sessions_ok heap_grows (KI.shutdown self now).
Proof. unfold KI.shutdown. repeat coro_guarantees_step. Qed.

Lemma pop_kernel_guarantees kernel_id :
  guarantees sessions_ok heap_grows (MKM.pop_kernel kernel_id).
Proof. unfold MKM.pop_kernel. repeat guarantees_step. Qed.

#[global] Hint Resolve pop_kernel_guarantees : guarantees.

Lemma handle_kernel_died_guarantees kernel_id :
  guarantees sessions_ok heap_grows (MKM._handle_kernel_died kernel_id).
Proof. unfold MKM._handle_kernel_died. repeat guarantees_step. Qed.

Lemma run_record_activity_guarantees kernel kernel_id msg :
  guarantees sessions_ok heap_grows (MKM.run_record_activity kernel kernel_id msg).
Proof. unfold MKM.run_record_activity. repeat guarantees_step. Qed.

Lemma start_watching_activity_guarantees kernel_id :
  guarantees sessions_ok heap_grows (MKM.start_watching_activity kernel_id).
Proof. unfold MKM.start_watching_activity. repeat guarantees_step. Qed.

Lemma initialize_culler_guarantees :
  guarantees sessions_ok heap_grows MKM.initialize_culler.
Proof. unfold MKM.initialize_culler. repeat guarantees_step. Qed.

Lemma notify_connect_guarantees kernel_id :
  guarantees sessions_ok heap_grows (MKM.notify_connect kernel_id).
Proof. unfold MKM.notify_connect. repeat guarantees_step. Qed.

Lemma notify_disconnect_guarantees kernel_id :
  guarantees sessions_ok heap_grows (MKM.notify_disconnect kernel_id).
Proof. unfold MKM.notify_disconnect. repeat guarantees_step. Qed.

Lemma manager_start_buffering_guarantees kernel_id session_key channels :
  guarantees sessions_ok heap_grows
    (MKM.start_buffering kernel_id session_key channels).
Proof. unfold MKM.start_buffering. repeat guarantees_step. Qed.

Lemma kernel_model_guarantees kernel_id :
  guarantees sessions_ok heap_grows (MKM.kernel_model kernel_id).
Proof. unfold MKM.kernel_model. repeat guarantees_step. Qed.

#[global] Hint Resolve handle_kernel_died_guarantees
  run_record_activity_guarantees start_watching_activity_guarantees
  initialize_culler_guarantees notify_connect_guarantees
  notify_disconnect_guarantees manager_start_buffering_guarantees
  kernel_model_guarantees : guarantees.

Lemma list_kernels_guarantees :
  guarantees sessions_ok heap_grows MKM.list_kernels.
Proof.
  unfold MKM.list_kernels. gapply guarantees_bind; [guarantees_step|]. intros ids.
  induction ids as [|kernel_id ids IH]; cbn [MKM.models_of].
  - guarantees_step.
  - gapply guarantees_bind; [apply kernel_model_guarantees|]. intros model.
    gapply guarantees_bind; [exact IH|]. intros kernels. guarantees_step.
Qed.

Lemma run_handler_guarantees h msg :
  guarantees sessions_ok heap_grows (run_handler h msg).
Proof.
  destruct h; cbn [run_handler];
    [apply run_buffer_msg_guarantees | apply run_record_activity_guarantees].
Qed.

(** [_start_kernel] binds the id to the object it created before it
    yielded; the object is still there when it is resumed. *)
Lemma start_kernel_inner_guarantees kernel_id ty :
  coro_guarantees sessions_ok heap_grows (MKM._start_kernel kernel_id ty).
Proof.
  intros w Hw. unfold MKM._start_kernel.
  rewrite (lift_bind_ok _ _ _ _ _ (init_spec _ _)).
  rewrite coro_bind_unfold. unfold KI.connect_client.
  erewrite lift_bind_ok; [|apply deref_ok; apply lookup_put].
  cbn [client launched].
  erewrite lift_bind_ok; [|apply update_put; apply lookup_put].
  rewrite put_put. cbn [await step_bind].
  set (k1 := set_client _ _). set (w1 := put _ _ _).
  assert (heap w1 !! next_obj w = Some k1) as Hk1 by apply lookup_put.
  assert (sessions_ok w1 ∧ heap_grows w w1) as [Hw1 HR1].
  { destruct Hw as (Hconn & Hres & Hbelow). subst w1. unfold put.
    split; [split_and!|].
    - intros l k. cbn. destruct (decide (l = next_obj w)) as [->|Hne].
      + rewrite lookup_insert_eq. intros [= <-]. by eexists.
      + rewrite lookup_insert_ne by done. apply Hconn.
    - intros kernel_id' l Hl. cbn in *.
      destruct (decide (l = next_obj w)) as [->|Hne].
      + rewrite lookup_insert_eq. eauto.
      + rewrite lookup_insert_ne by done. by apply (Hres kernel_id').
    - intros l k. cbn. destruct (decide (l = next_obj w)) as [->|Hne].
      + intros _. lia.
      + rewrite lookup_insert_ne by done. intros Hk.
        specialize (Hbelow l k Hk). lia.
    - intros l Hl. cbn. destruct (decide (l = next_obj w)) as [->|Hne].
      + rewrite lookup_insert_eq. eauto.
      + by rewrite lookup_insert_ne. }
  clearbody w1 k1.
  constructor; [done..|]. intros r w' Hw' HR.
  destruct r as [|e|]; cbn [step_bind]; [|by constructor..].
  rewrite coro_bind_unfold. unfold lift at 1, modify at 1. cbn [step_bind].
  match goal with |- step_guarantees _ _ _ (_ ?w2) =>
    assert (sessions_ok w2 ∧ heap_grows w' w2) as [Hw2 HR2]
  end.
  { destruct Hw' as (Hconn & Hres & Hbelow). split; [split_and!|].
    - exact Hconn.
    - intros kernel_id' l. cbn.
      destruct (decide (kernel_id' = kernel_id)) as [->|Hne].
      + rewrite lookup_insert_eq. intros [= <-]. apply HR. eauto.
      + rewrite lookup_insert_ne by done. apply Hres.
    - exact Hbelow.
    - by intros l. }
  eapply step_guarantees_mono; [apply _|exact HR2|].
  revert Hw2. generalize (set_km (set__kernels (<[kernel_id:=next_obj w]>
                                     (_kernels (km w'))) (km w')) w').
  change (coro_guarantees sessions_ok heap_grows
            (lift (MKM.start_watching_activity kernel_id);;
             lift (emit "info" "Kernel started: %s" [PyStr kernel_id]);;
             lift (update (next_obj w) (λ k,
               set_restarter (add_callback (_handle_kernel_died_cb kernel_id) "dead"
                                (restarter k)) k)))).
  repeat coro_guarantees_step.
Qed.

Lemma start_kernel_guarantees kernel_id kernel_name uuid4 :
  coro_guarantees sessions_ok heap_grows
    (MKM.start_kernel kernel_id kernel_name uuid4).
Proof.
  unfold MKM.start_kernel.
  gapply coro_guarantees_bind; [|intros ?; repeat coro_guarantees_step].
  destruct kernel_id as [kernel_id|].
  - repeat coro_guarantees_step.
  - gapply coro_guarantees_bind; [apply start_kernel_inner_guarantees|]. intros _.
    repeat coro_guarantees_step.
Qed.

Lemma shutdown_kernel_guarantees kernel_id now :
  coro_guarantees sessions_ok heap_grows (MKM.shutdown_kernel kernel_id now).
Proof.
  unfold MKM.shutdown_kernel.
  do 3 (gapply coro_guarantees_bind; [coro_guarantees_step|]; intros ?).
  gapply coro_guarantees_bind; [apply shutdown_guarantees|]. intros _.
  repeat coro_guarantees_step.
Qed.

Lemma restart_kernel_guarantees kernel_id :
  coro_guarantees sessions_ok heap_grows (MKM.restart_kernel kernel_id).
Proof.
  unfold MKM.restart_kernel.
  do 2 (gapply coro_guarantees_bind; [coro_guarantees_step|]; intros ?).
  gapply coro_guarantees_bind; [apply shutdown_guarantees|]. intros _.
  do 2 (gapply coro_guarantees_bind; [coro_guarantees_step|]; intros ?).
  intros w Hw. unfold except_TimeoutError, gen_with_timeout.
  gapply step_guarantees_catch_timeout.
  - gapply step_guarantees_timeout. by apply start_kernel_inner_guarantees.
  - repeat coro_guarantees_step.
Qed.

Lemma cull_kernel_if_idle_tasks kernel_id :
  yields_in sessions_ok heap_grows
    (λ w t, Forall (task_guarantees sessions_ok heap_grows w) (option_list t))
    (MKM.cull_kernel_if_idle kernel_id).
Proof.
  unfold MKM.cull_kernel_if_idle.
  do 2 (gapply yields_in_bind; [guarantees_step|]; intros ?).
  gapply yields_in_bind; [by gapply guarantees_pure|]. intros ?.
  gapply yields_in_bind; [guarantees_step|]. intros _.
  destruct (last_activity _); [|by gapply yields_in_ret; constructor].
  do 2 (gapply yields_in_bind; [guarantees_step|]; intros ?).
  destruct (_ && _); [|by gapply yields_in_ret; constructor].
  gapply yields_in_bind; [guarantees_step|]. intros _.
  gapply yields_in_spawn. apply shutdown_guarantees.
Qed.

Lemma cull_kernels_tasks :
  yields_in sessions_ok heap_grows
    (λ w ts, Forall (task_guarantees sessions_ok heap_grows w) ts)
    MKM.cull_kernels.
Proof.
  unfold MKM.cull_kernels.
  do 3 (gapply yields_in_bind; [guarantees_step|]; intros ?).
  match goal with |- yields_in _ _ _ (MKM.cull_each ?ids) =>
    induction ids as [|kernel_id ids IH] end; cbn [MKM.cull_each].
  - gapply yields_in_ret. constructor.
  - intros w Hw. rewrite sync_bind_unfold.
    destruct (yields_in_try_except sessions_ok heap_grows
                (λ w t, Forall (task_guarantees sessions_ok heap_grows w)
                          (option_list t))
                (MKM.cull_kernel_if_idle kernel_id)
                (λ e, emit "exception"
                   "The following exception was encountered while checking the idle duration of kernel %s: %s"
                   [PyStr kernel_id; PyExc e];; mret None))
      with w as (Hw1 & HR1 & Ht); [| | |exact Hw|].
    { intros w1 w2 t HR Ht. eapply Forall_impl; [exact Ht|]. intros t'.
      by gapply task_guarantees_mono. }
    { apply cull_kernel_if_idle_tasks. }
    { intros e. gapply yields_in_bind; [guarantees_step|]. intros _.
      gapply yields_in_ret. constructor. }
    destruct (try_except _ _ w) as [[t|e] w1]; simpl in *;
      [|split_and!; [done..|by intros]].
    rewrite sync_bind_unfold. destruct (IH w1 Hw1) as (Hw2 & HR2 & Hts).
    destruct (MKM.cull_each _ w1) as [[ts|e] w2]; simpl in *;
      [|split_and!; [done|by etrans|by intros]].
    split_and!; [done|by etrans|]. intros ? [= <-]. apply Forall_app. split; auto.
    eapply Forall_impl; [by apply Ht|]. intros t'.
    by gapply task_guarantees_mono.
Qed.

Lemma handle_kernel_restarted_tasks self :
  yields_in sessions_ok heap_grows
    (λ w t, Forall (task_guarantees sessions_ok heap_grows w) (option_list t))
    (KI._handle_kernel_restarted self).
Proof.
  unfold KI._handle_kernel_restarted.
  gapply yields_in_bind; [repeat guarantees_step|]. intros _.
  gapply yields_in_spawn. apply connect_client_guarantees.
Qed.

Lemma serve_sessions_ok c w :
  sessions_ok w →
  sessions_ok (serve c w).1 ∧ heap_grows w (serve c w).1
  ∧ Forall (task_guarantees sessions_ok heap_grows (serve c w).1) (serve c w).2.
Proof.
  intros Hw.
  destruct c; cbn [serve];
    first
      [ gapply called_guarantees; [|exact Hw];
        first [ apply start_kernel_guarantees | apply shutdown_kernel_guarantees
              | apply restart_kernel_guarantees | apply connect_client_guarantees
              | apply shutdown_guarantees ]
      | gapply returned_guarantees; [|exact Hw];
        first
          [ apply cull_kernels_tasks
          | apply handle_kernel_restarted_tasks
          | gapply guarantees_yields; [|by constructor];
            first
              [ apply manager_start_buffering_guarantees
              | apply notify_connect_guarantees | apply notify_disconnect_guarantees
              | apply kernel_model_guarantees | apply list_kernels_guarantees
              | apply initialize_culler_guarantees
              | apply handle_kernel_died_guarantees | apply interrupt_guarantees
              | apply start_buffering_guarantees | apply get_buffer_guarantees
              | apply stop_buffering_guarantees | apply run_handler_guarantees ] ] ].
Qed.




(** ** Buffering from start to replay *)

Lemma deliver_spec self msgs : ∀ w k,
  heap w !! self = Some k →
  ∃ w',
    deliver self msgs w = (Ok tt, w')
    ∧ heap w' !! self = Some (set_buffer (buffer k ++ msgs) k).
Proof.
  unfold deliver. induction msgs as [|[channel msg] msgs IH]; intros w k Hk.
  - exists w. split; [reflexivity|]. rewrite app_nil_r.
    by destruct k.
  - cbn [for_each run_handler].
    destruct (run_buffer_msg_appends self channel msg w k Hk) as (w1 & Hrun & Hk1).
    destruct (IH w1 _ Hk1) as (w2 & Hrest & Hk2).
    exists w2. split.
    + by rewrite (sync_bind_ok _ _ _ _ _ Hrun).
    + rewrite Hk2. cbn. by rewrite <- app_assoc.
Qed.



(** ** Connecting the client *)

(** X17.  [connect_client] creates the client once.  On a kernel that has
    a client it returns at once and changes nothing.  On a kernel without
    one it installs a new client and waits for it to be ready; a failure of
    that wait is raised with the client left in place, so a second call,
    made while the first one waits or after it failed, returns at once
    without waiting for readiness. *)
Theorem connect_client_creates_the_client_once
    (w : World) (self : loc) (k : KernelInterface) :
  heap w !! self = Some k →
  (is_Some (client k) → KI.connect_client self w = Done (Ok tt) w)
  ∧ (client k = None →
     let w1 := put self (set_client (Some new_client) k) w in
     ∃ rest,
       KI.connect_client self w = Susp (wait_for_ready self) w1 rest
       ∧ (∀ w2, rest Resolved w2 = Done (Ok tt) w2)
       ∧ (∀ e w2, rest (Rejected e) w2 = Done (Raise e) w2)
       ∧ KI.connect_client self w1 = Done (Ok tt) w1).
Proof.
  intros Hk. split.
  - intros [c Hc]. unfold KI.connect_client.
    rewrite (lift_bind_ok _ _ _ _ _ (deref_ok _ _ _ Hk)). by rewrite Hc.
  - intros Hnone w1. unfold KI.connect_client.
    rewrite (lift_bind_ok _ _ _ _ _ (deref_ok _ _ _ Hk)). rewrite Hnone.
    rewrite (lift_bind_ok _ _ _ _ _ (update_put _ _ _ _ Hk)).
    eexists. split; [reflexivity|]. split; [reflexivity|]. split; [reflexivity|].
    subst w1.
    by rewrite (lift_bind_ok _ _ _ _ _ (deref_ok _ _ _ (lookup_put _ _ _))).
Qed.

Lemma connect_client_creates_the_client_once_witness :
  KI.connect_client 0 one_kernel = Done (Ok tt) one_kernel.
Proof.
  apply (connect_client_creates_the_client_once one_kernel 0 kernel_X
           one_kernel_heap).
  by eexists.
Defined.

(** X18.  The restart callback of a kernel swaps in the process handle of
    the relaunched kernel.  On a connected kernel that is all it does: the
    client object, with every handler attached to it, stays the one of the
    previous process, and nothing is left running.  Only a kernel without a
    client gets a new one, whose readiness is awaited by a task left with
    the loop. *)
Theorem kernel_restarted_keeps_the_client
    (w : World) (self : loc) (k : KernelInterface) :
  heap w !! self = Some k →
  (is_Some (client k) →
   KI._handle_kernel_restarted self w
   = (Ok None, put self (set_manager new_manager k) w))
  ∧ (client k = None →
     ∃ rest,
       KI._handle_kernel_restarted self w
       = (Ok (Some (wait_for_ready self, rest)),
          put self (set_client (Some new_client) (set_manager new_manager k)) w)).
Proof.
  intros Hk. unfold KI._handle_kernel_restarted.
  rewrite (sync_bind_ok _ _ _ _ _ (update_put _ _ _ _ Hk)).
  pose proof (lookup_put self (set_manager new_manager k) w) as Hk1.
  unfold spawn, KI.connect_client.
  rewrite (lift_bind_ok _ _ _ _ _ (deref_ok _ _ _ Hk1)). cbn [client set_manager].
  split.
  - intros [c Hc]. by rewrite Hc.
  - intros Hnone. rewrite Hnone.
    rewrite (lift_bind_ok _ _ _ _ _ (update_put _ _ _ _ Hk1)).
    rewrite put_put. cbn [await]. eauto.
Qed.

Lemma kernel_restarted_keeps_the_client_witness :
  KI._handle_kernel_restarted 0 one_kernel
  = (Ok None, put 0 (set_manager new_manager kernel_X) one_kernel).
Proof.
  apply (kernel_restarted_keeps_the_client one_kernel 0 kernel_X one_kernel_heap).
  by eexists.
Defined.


(** ** Shutting every kernel down *)

Lemma shutdown_each_spec ids : ∀ w,
  NoDup ids →
  all_connected w →
  (∀ kid, kid ∈ ids → ∃ l, _kernels (km w) !! kid = Some l ∧ is_Some (heap w !! l)) →
  ∃ ts w',
    MKM.shutdown_each ids w = (Ok ts, w')
    ∧ length ts = length ids
    ∧ Forall (λ t : task, ∃ l, t.1 = shutdown_or_terminate l) ts
    ∧ (∀ kid, _kernels (km w') !! kid
              = if decide (kid ∈ ids) then None else _kernels (km w) !! kid)
    ∧ KERNEL_CURRENTLY_RUNNING_TOTAL w' = KERNEL_CURRENTLY_RUNNING_TOTAL w
    ∧ ∀ l k', heap w' !! l = Some k' →
        ∃ k, heap w !! l = Some k
             ∧ manager k' = manager k
             ∧ closed <$> client k' = closed <$> client k.
Proof.
  induction ids as [|kid ids IH]; intros w Hnd Hconn Hids.
  - exists [], w. split; [reflexivity|]. split; [reflexivity|].
    split; [constructor|]. split; [by intros kid|]. split; [reflexivity|].
    intros l k' Hk'. eauto.
  - apply NoDup_cons in Hnd as [Hnotin Hnd]. cbn [MKM.shutdown_each].
    destruct (Hids kid) as (l & Hreg & [k Hk]); [by left|].
    destruct (Hconn l k Hk) as [c Hc].
    destruct (shutdown_kernel_spec w kid false l k c Hreg Hk Hc)
      as (w1 & rest & Hsusp & Hheap1 & Hreg1 & Hgauge1 & _).
    rewrite sync_bind_unfold. unfold spawn at 1. rewrite Hsusp.
    destruct (IH w1 Hnd) as (ts & w' & Hrun & Hlen & Hts & Hreg' & Hgauge' & Hkeep).
    { intros l0 k0. rewrite Hheap1. destruct (decide (l0 = l)) as [->|Hne].
      - rewrite lookup_insert_eq. intros [= <-]. by eexists.
      - rewrite lookup_insert_ne by done. apply Hconn. }
    { intros kid' Hin. destruct (Hids kid') as (l' & Hreg0 & Hl'); [by right|].
      exists l'. split.
      - rewrite Hreg1, lookup_delete_ne; [done|]. by intros ->.
      - rewrite Hheap1. destruct (decide (l' = l)) as [->|Hne].
        + rewrite lookup_insert_eq. eauto.
        + by rewrite lookup_insert_ne. }
    rewrite sync_bind_unfold, Hrun. cbn [mret sync_ret option_list app].
    exists ((shutdown_or_terminate l, rest) :: ts), w'.
    split; [reflexivity|]. split; [by cbn; rewrite Hlen|].
    split; [constructor; [by eexists|done]|]. split; [|split].
    + intros kid'. rewrite Hreg'. destruct (decide (kid' ∈ ids)) as [Hin|Hin].
      * rewrite decide_True; [done|by right].
      * rewrite Hreg1. destruct (decide (kid' = kid)) as [->|Hne].
        -- rewrite decide_True by left. apply lookup_delete_eq.
        -- rewrite decide_False by (by intros [?|?]%elem_of_cons).
           by rewrite lookup_delete_ne.
    + by rewrite Hgauge', Hgauge1.
    + intros l0 k' Hk'. destruct (Hkeep l0 k' Hk') as (k1 & Hk1 & Hm & Hcl).
      rewrite Hheap1 in Hk1. destruct (decide (l0 = l)) as [->|Hne].
      * rewrite lookup_insert_eq in Hk1. injection Hk1 as <-.
        exists k. split; [done|]. split; [done|]. rewrite Hcl. cbn. by rewrite Hc.
      * rewrite lookup_insert_ne in Hk1 by done. eauto.
Qed.

(** X19.  [_shutdown_all] unregisters every kernel before any of them has
    shut down.  When every registered id is bound to a connected kernel
    object, the futures it builds are one pending shutdown request per
    registered id, and by the time it waits for them the registry is
    empty, although no client is closed yet, no process handle cleaned up
    and no gauge lowered. *)
Theorem shutdown_all_unregisters_before_it_waits (w : World) :
  all_connected w →
  registry_resolves w →
  ∃ ts w',
    MKM._shutdown_all w = (Ok ts, w')
    ∧ length ts = size (_kernels (km w))
    ∧ Forall (λ t : task, ∃ l, t.1 = shutdown_or_terminate l) ts
    ∧ _kernels (km w') = ∅
    ∧ KERNEL_CURRENTLY_RUNNING_TOTAL w' = KERNEL_CURRENTLY_RUNNING_TOTAL w
    ∧ ∀ l k', heap w' !! l = Some k' →
        ∃ k, heap w !! l = Some k
             ∧ manager k' = manager k
             ∧ closed <$> client k' = closed <$> client k.
Proof.
  intros Hconn Hres. unfold MKM._shutdown_all.
  rewrite sync_bind_unfold. cbn [gets].
  destruct (shutdown_each_spec (MKM.list_kernel_ids w) w)
    as (ts & w' & Hrun & Hlen & Hts & Hreg & Hgauge & Hkeep).
  { apply NoDup_fst_map_to_list. }
  { exact Hconn. }
  { intros kid Hin.
    pose proof (list_kernel_ids_registered w) as Hall.
    rewrite Forall_forall in Hall. destruct (Hall kid Hin) as [l Hl].
    exists l. split; [done|]. by apply (Hres kid). }
  exists ts, w'. split; [exact Hrun|]. split.
  { rewrite Hlen. unfold MKM.list_kernel_ids.
    by rewrite length_fmap, length_map_to_list. }
  split; [exact Hts|]. split; [|split; [exact Hgauge | exact Hkeep]].
  apply map_eq. intros kid. rewrite Hreg, lookup_empty.
  destruct (decide (kid ∈ MKM.list_kernel_ids w)) as [Hin|Hin]; [done|].
  destruct (_kernels (km w) !! kid) as [l|] eqn:Hl; [|done].
  exfalso. apply Hin. unfold MKM.list_kernel_ids.
  apply list_elem_of_fmap. exists (kid, l). split; [done|].
  by apply elem_of_map_to_list.
Qed.

Lemma shutdown_all_unregisters_before_it_waits_witness :
  ∃ ts w',
    MKM._shutdown_all one_kernel = (Ok ts, w')
    ∧ length ts = 1
    ∧ _kernels (km w') = ∅.
Proof.
  destruct (shutdown_all_unregisters_before_it_waits one_kernel)
    as (ts & w' & Hrun & Hlen & _ & Hreg & _).
  - intros l k Hk.
    assert (heap one_kernel = {[0 := kernel_X]}) as Hheap by reflexivity.
    rewrite Hheap in Hk. apply lookup_singleton_Some in Hk as [_ <-].
    by eexists.
  - exact one_kernel_resolves.
  - exists ts, w'. split; [exact Hrun|]. split; [|exact Hreg].
    rewrite Hlen. reflexivity.
Defined.
